(** * A shallow embedding of the TikTok uploader (TypeScript sources)

    The development follows [src/ts/src]: [types.ts] and [errors.ts] give
    the data model, [auth.ts] the session lookup and the interactive login,
    [uploader.ts] the session codec, the asset validator, the
    modal-dismissal scan, the submit-control resolver, completion polling,
    the upload orchestrator and the batch runner, [cli.ts] the commands and
    their routing.

    Conventions of the embedding:
    - a JavaScript string is represented by its UTF-8 bytes ([string]);
    - a timeout, a size and an index are integers ([Z]); the two divisions
      the sources compute in floating point ([size / 2^20] and
      [(i + 1) * 500 / timeoutSeconds]) are taken in [Q], which the doubles
      agree with on sizes below 2^53 bytes and timeouts below 2^46 seconds;
      a layout width is a rational ([Q]);
    - the browser is an opaque collaborator: every call into it is answered
      by an oracle that sees the whole history of calls; an awaited call
      resolves or rejects, it does not hang;
    - the file system is one snapshot for the time of a validation;
    - a callback of the caller ([onProgress], [onVideoComplete]) returns
      normally; each of its invocations is an event of the trace. *)

From Stdlib Require Import ZArith QArith Qround Qminmax Ascii String List Lia.
From stdpp Require Import base option gmap strings list.

Local Open Scope string_scope.
Local Open Scope list_scope.
Local Open Scope Z_scope.

(** ** Strings as the sources use them *)

Module JsString.

(** [String.prototype.toLowerCase], on the ASCII range. *)
Definition lower_ascii (c : ascii) : ascii :=
  let n := N_of_ascii c in
  if ((65 <=? n) && (n <=? 90))%N then ascii_of_N (n + 32) else c.

Fixpoint toLowerCase (s : string) : string :=
  match s with
  | EmptyString => EmptyString
  | String c s' => String (lower_ascii c) (toLowerCase s')
  end.

(** [String.prototype.includes]. *)
Fixpoint includes (s needle : string) : bool :=
  String.prefix needle s ||
  match s with
  | EmptyString => false
  | String _ s' => includes s' needle
  end.

Definition bytes (s : string) : list N := map N_of_ascii (list_ascii_of_string s).
Definition of_bytes (l : list N) : string := string_of_list_ascii (map ascii_of_N l).

(** The code points ECMAScript calls WhiteSpace or LineTerminator, each as
    its UTF-8 byte sequence: U+0009..U+000D, U+0020, U+00A0, U+1680,
    U+2000..U+200A, U+2028, U+2029, U+202F, U+205F, U+3000, U+FEFF. *)
Definition whitespace : list (list N) :=
  [ [9]; [10]; [11]; [12]; [13]; [32]; [194; 160]; [225; 154; 128];
    [226; 128; 128]; [226; 128; 129]; [226; 128; 130]; [226; 128; 131];
    [226; 128; 132]; [226; 128; 133]; [226; 128; 134]; [226; 128; 135];
    [226; 128; 136]; [226; 128; 137]; [226; 128; 138]; [226; 128; 168];
    [226; 128; 169]; [226; 128; 175]; [226; 129; 159]; [227; 128; 128];
    [239; 187; 191] ]%N.

Fixpoint strip (p l : list N) : option (list N) :=
  match p, l with
  | [], _ => Some l
  | a :: p', b :: l' => if (a =? b)%N then strip p' l' else None
  | _ :: _, [] => None
  end.

Fixpoint strip_any (ps : list (list N)) (l : list N) : option (list N) :=
  match ps with
  | [] => None
  | p :: ps' => match strip p l with
                | Some r => Some r
                | None => strip_any ps' l
                end
  end.

Fixpoint drop_ws (ws : list (list N)) (fuel : nat) (l : list N) : list N :=
  match fuel with
  | O => l
  | S fuel' => match strip_any ws l with
               | Some r => drop_ws ws fuel' r
               | None => l
               end
  end.

(** [String.prototype.trim]: white space is removed at both ends. *)
Definition trim (s : string) : string :=
  let l := drop_ws whitespace (String.length s) (bytes s) in
  let r := drop_ws (map (@rev N) whitespace) (List.length l) (rev l) in
  of_bytes (rev r).

(** Decimal rendering of a non-negative integer. *)
Fixpoint digits (fuel : nat) (n : Z) (acc : string) : string :=
  match fuel with
  | O => acc
  | S fuel' =>
      let acc' := String (ascii_of_N (Z.to_N (48 + n mod 10))) acc in
      if n <? 10 then acc' else digits fuel' (n / 10) acc'
  end.

Definition of_Z (n : Z) : string :=
  if n <? 0 then "-" +:+ digits (S (Z.to_nat (Z.log2 (- n)))) (- n) ""
  else digits (S (Z.to_nat (Z.log2 n))) n "".

Definition dquote : string := String (ascii_of_N 34) EmptyString.

End JsString.

Import JsString.

(** ** Data model ([types.ts], [errors.ts]) *)

#[local] Set Warnings "-register-all".

(** A value produced by [JSON.parse].  Numbers keep their lexeme; an object
    keeps its members in source order. *)
Inductive JSON : Type :=
| JNull
| JBool (b : bool)
| JNumber (lexeme : string)
| JString (s : string)
| JArray (items : list JSON)
| JObject (members : list (string * JSON)).

Inductive Visibility : Type := everyone | friends | private.

Record Cookie : Type := mkCookie {
  name : string;
  value : string;
  domain : string;
  path : string
}.

(** A [Cookie] as the JavaScript object it is at run time. *)
Definition cookie_object (c : Cookie) : JSON :=
  JObject [("name", JString (name c)); ("value", JString (value c));
           ("domain", JString (domain c)); ("path", JString (path c))].

Record UploadResult : Type := mkUploadResult {
  success : bool;
  videoId : option string;
  videoUrl : option string;
  status : string;
  error : option string
}.

Record UploaderOptions : Type := mkUploaderOptions {
  opt_session : option string;
  opt_headless : option bool;
  opt_timeout : option Z;
  opt_debug : option bool
}.

(** [onProgress] records whether the caller supplied a callback; each of its
    invocations is an event of the trace. *)
Record UploadOptions : Type := mkUploadOptions {
  visibility : option Visibility;
  onProgress : bool
}.

Record VideoInfo : Type := mkVideoInfo {
  video : string;
  description : string;
  vi_visibility : option Visibility
}.

Definition SUPPORTED_FORMATS : gset string := {[ ".mp4"; ".mov"; ".webm" ]}.
Definition MAX_VIDEO_SIZE_MB : Z := 287.
Definition TIKTOK_UPLOAD_URL : string := "https://www.tiktok.com/creator-center/upload?lang=en".
Definition TIKTOK_BASE_URL : string := "https://www.tiktok.com/".

(** The error classes of [errors.ts], and [Foreign] for any other thrown
    value, kept as what [String(error)] renders.  [VideoTooLargeError] keeps
    the size in bytes: [sizeMb] is that size divided by 2^20. *)
Inductive Error : Type :=
| SessionExpiredError
| LoginRequiredError
| UploadFailedError (message : string) (screenshotPath : option string)
| VideoNotFoundError (path : string)
| VideoTooLargeError (sizeBytes : Z) (maxSizeMb : Z)
| UnsupportedFormatError (extension : string)
| Foreign (rendering : string).

(** [Number.prototype.toFixed(1)] of [sizeBytes / 2^20], the nearest tenth,
    the larger one on a tie. *)
Definition toFixed1_mb (sizeBytes : Z) : string :=
  let tenths := (sizeBytes * 20 + 1048576) / 2097152 in
  of_Z (tenths / 10) +:+ "." +:+ of_Z (tenths mod 10).

Definition error_name (e : Error) : string :=
  match e with
  | SessionExpiredError => "SessionExpiredError"
  | LoginRequiredError => "LoginRequiredError"
  | UploadFailedError _ _ => "UploadFailedError"
  | VideoNotFoundError _ => "VideoNotFoundError"
  | VideoTooLargeError _ _ => "VideoTooLargeError"
  | UnsupportedFormatError _ => "UnsupportedFormatError"
  | Foreign _ => ""
  end.

Definition error_message (e : Error) : string :=
  match e with
  | SessionExpiredError => "Session has expired. Please login again with tiktok-upload auth"
  | LoginRequiredError =>
      "No TikTok session found. Run " +:+ dquote +:+ "tiktok-upload auth" +:+ dquote
      +:+ " or set TIKTOK_SESSION environment variable."
  | UploadFailedError m _ => m
  | VideoNotFoundError p => "Video file not found: " +:+ p
  | VideoTooLargeError sz mx =>
      "Video too large: " +:+ toFixed1_mb sz +:+ "MB exceeds limit of " +:+ of_Z mx +:+ "MB"
  | UnsupportedFormatError ext =>
      "Unsupported video format: " +:+ ext +:+ ". Supported formats: .mp4, .mov, .webm"
  | Foreign r => r
  end.

(** [String(error)]: [Error.prototype.toString] gives the name alone when
    the message is empty. *)
Definition String_of_error (e : Error) : string :=
  match e with
  | Foreign r => r
  | _ => if String.eqb (error_message e) "" then error_name e
         else error_name e +:+ ": " +:+ error_message e
  end.

(** The typed errors [upload] rethrows unchanged. *)
Definition is_flow_error (e : Error) : bool :=
  match e with
  | LoginRequiredError | SessionExpiredError | UploadFailedError _ _ => true
  | _ => false
  end.

(** ** The run-time library below the sources *)

(** What the sources take from Node: [Buffer.from(s, 'base64').toString('utf-8')],
    which never throws, and [JSON.parse], which throws ([None]) on text that
    is not JSON. *)
Class Runtime : Type := {
  base64_to_utf8 : string -> string;
  JSON_parse : string -> option JSON
}.

(** ** Session codec ([uploader.ts], [parseSession]) *)

Definition raw_session_cookies (session : string) : list JSON :=
  [ cookie_object (mkCookie "sessionid" session ".tiktok.com" "/");
    cookie_object (mkCookie "sessionid_ss" session ".tiktok.com" "/") ].

(** The [try] block returns the parsed value when it is an array; a throw
    from [JSON.parse] and a value of any other shape both fall through to
    the two synthesized records. *)
Definition parseSession `{Runtime} (session : string) : list JSON :=
  let decoded := base64_to_utf8 session in
  match JSON_parse decoded with
  | Some (JArray cookies) => cookies
  | Some _ => raw_session_cookies session
  | None => raw_session_cookies session
  end.

(** ** A reference run-time library

    The decoders of Node, on byte strings, for use in closed examples: the
    base64 reader skips every character outside the alphabet (standard and
    URL-safe) and stops at the first padding sign; the JSON reader follows
    the JSON grammar. *)

Module Node.

Definition sextet (c : N) : option N :=
  (if (65 <=? c) && (c <=? 90) then Some (c - 65)
   else if (97 <=? c) && (c <=? 122) then Some (c - 71)
   else if (48 <=? c) && (c <=? 57) then Some (c + 4)
   else if (c =? 43) || (c =? 45) then Some 62
   else if (c =? 47) || (c =? 95) then Some 63
   else None)%N.

Fixpoint sextets (l : list N) : list N :=
  match l with
  | [] => []
  | c :: l' =>
      if (c =? 61)%N then []
      else match sextet c with
           | Some v => v :: sextets l'
           | None => sextets l'
           end
  end.

Fixpoint octets (l : list N) : list N :=
  (match l with
   | a :: b :: c :: d :: r =>
       (a * 4 + b / 16) :: ((b mod 16) * 16 + c / 4) :: ((c mod 4) * 64 + d) :: octets r
   | [a; b; c] => [a * 4 + b / 16; (b mod 16) * 16 + c / 4]
   | [a; b] => [a * 4 + b / 16]
   | _ => []
   end)%N.

Definition base64_decode (s : string) : string := of_bytes (octets (sextets (bytes s))).

Definition is_ws (c : N) : bool := ((c =? 32) || (c =? 9) || (c =? 10) || (c =? 13))%N.
Definition is_digit (c : N) : bool := ((48 <=? c) && (c <=? 57))%N.

Fixpoint skip_ws (l : list N) : list N :=
  match l with
  | c :: l' => if is_ws c then skip_ws l' else l
  | [] => []
  end.

Fixpoint take_digits (l : list N) : list N * list N :=
  match l with
  | c :: l' => if is_digit c then let '(d, r) := take_digits l' in (c :: d, r) else ([], l)
  | [] => ([], [])
  end.

(** number = [ - ] int [ frac ] [ exp ] *)
Definition parse_number (l : list N) : option (list N * list N) :=
  let '(sign, l1) := match l with 45%N :: r => ([45%N], r) | _ => ([], l) end in
  let '(int, l2) := take_digits l1 in
  match int with
  | [] => None
  | 48%N :: _ :: _ => None
  | _ =>
      let frac := match l2 with
                  | 46%N :: r => let '(d, r') := take_digits r in
                                 match d with [] => None | _ => Some (46%N :: d, r') end
                  | _ => Some ([], l2)
                  end in
      match frac with
      | None => None
      | Some (fr, l3) =>
          let ex := match l3 with
                    | e :: r =>
                        if ((e =? 101) || (e =? 69))%N then
                          let '(sg, r1) := match r with
                                           | s :: r' => if ((s =? 43) || (s =? 45))%N
                                                        then ([s], r') else ([], r)
                                           | [] => ([], r)
                                           end in
                          let '(d, r2) := take_digits r1 in
                          match d with [] => None | _ => Some (e :: sg ++ d, r2) end
                        else Some ([], l3)
                    | [] => Some ([], l3)
                    end in
          match ex with
          | None => None
          | Some (exl, l4) => Some (sign ++ int ++ fr ++ exl, l4)
          end
      end
  end.

Definition hex_digit (c : N) : option N :=
  (if is_digit c then Some (c - 48)
   else if (97 <=? c) && (c <=? 102) then Some (c - 87)
   else if (65 <=? c) && (c <=? 70) then Some (c - 55)
   else None)%N.

Definition hex4 (a b c d : N) : option N :=
  match hex_digit a, hex_digit b, hex_digit c, hex_digit d with
  | Some x, Some y, Some z, Some w => Some (((x * 16 + y) * 16 + z) * 16 + w)%N
  | _, _, _, _ => None
  end.

Definition utf8_encode (cp : N) : list N :=
  (if cp <? 128 then [cp]
   else if cp <? 2048 then [192 + cp / 64; 128 + cp mod 64]
   else if cp <? 65536 then [224 + cp / 4096; 128 + (cp / 64) mod 64; 128 + cp mod 64]
   else [240 + cp / 262144; 128 + (cp / 4096) mod 64; 128 + (cp / 64) mod 64; 128 + cp mod 64])%N.

Definition simple_escape (c : N) : option N :=
  (if c =? 34 then Some 34 else if c =? 92 then Some 92 else if c =? 47 then Some 47
   else if c =? 98 then Some 8 else if c =? 102 then Some 12 else if c =? 110 then Some 10
   else if c =? 114 then Some 13 else if c =? 116 then Some 9 else None)%N.

(** The characters of a string after its opening quote, up to the closing
    one.  A high surrogate escape directly followed by a low one is one code
    point. *)
Fixpoint parse_chars (l : list N) : option (list N * list N) :=
  match l with
  | [] => None
  | 34%N :: r => Some ([], r)
  | 92%N :: 117%N :: a :: b :: c :: d :: r =>
      match hex4 a b c d with
      | None => None
      | Some hi =>
          let single := match parse_chars r with
                        | Some (s, r') => Some (utf8_encode hi ++ s, r')
                        | None => None
                        end in
          if ((55296 <=? hi) && (hi <=? 56319))%N then
            match r with
            | 92%N :: 117%N :: a' :: b' :: c' :: d' :: r2 =>
                match hex4 a' b' c' d' with
                | Some lo =>
                    if ((56320 <=? lo) && (lo <=? 57343))%N then
                      match parse_chars r2 with
                      | Some (s, r') =>
                          Some (utf8_encode (65536 + (hi - 55296) * 1024 + (lo - 56320)) ++ s, r')
                      | None => None
                      end
                    else single
                | None => None
                end
            | _ => single
            end
          else single
      end
  | 92%N :: e :: r =>
      match simple_escape e with
      | Some c => match parse_chars r with
                  | Some (s, r') => Some (c :: s, r')
                  | None => None
                  end
      | None => None
      end
  | c :: r =>
      if (c <? 32)%N then None
      else match parse_chars r with
           | Some (s, r') => Some (c :: s, r')
           | None => None
           end
  end.

Fixpoint parse_value (fuel : nat) (l : list N) {struct fuel} : option (JSON * list N) :=
  match fuel with
  | O => None
  | S fuel' =>
      match skip_ws l with
      | 110%N :: 117%N :: 108%N :: 108%N :: r => Some (JNull, r)
      | 116%N :: 114%N :: 117%N :: 101%N :: r => Some (JBool true, r)
      | 102%N :: 97%N :: 108%N :: 115%N :: 101%N :: r => Some (JBool false, r)
      | 34%N :: r =>
          match parse_chars r with
          | Some (s, r') => Some (JString (of_bytes s), r')
          | None => None
          end
      | 91%N :: r =>
          match skip_ws r with
          | 93%N :: r' => Some (JArray [], r')
          | _ => match parse_elements fuel' r with
                 | Some (items, r') => Some (JArray items, r')
                 | None => None
                 end
          end
      | 123%N :: r =>
          match skip_ws r with
          | 125%N :: r' => Some (JObject [], r')
          | _ => match parse_members fuel' r with
                 | Some (ms, r') => Some (JObject ms, r')
                 | None => None
                 end
          end
      | l' =>
          match parse_number l' with
          | Some (lex, r) => Some (JNumber (of_bytes lex), r)
          | None => None
          end
      end
  end
with parse_elements (fuel : nat) (l : list N) {struct fuel} : option (list JSON * list N) :=
  match fuel with
  | O => None
  | S fuel' =>
      match parse_value fuel' l with
      | None => None
      | Some (v, r) =>
          match skip_ws r with
          | 93%N :: r' => Some ([v], r')
          | 44%N :: r' =>
              match parse_elements fuel' r' with
              | Some (vs, r'') => Some (v :: vs, r'')
              | None => None
              end
          | _ => None
          end
      end
  end
with parse_members (fuel : nat) (l : list N) {struct fuel}
  : option (list (string * JSON) * list N) :=
  match fuel with
  | O => None
  | S fuel' =>
      match skip_ws l with
      | 34%N :: r =>
          match parse_chars r with
          | None => None
          | Some (k, r1) =>
              match skip_ws r1 with
              | 58%N :: r2 =>
                  match parse_value fuel' r2 with
                  | None => None
                  | Some (v, r3) =>
                      match skip_ws r3 with
                      | 125%N :: r' => Some ([(of_bytes k, v)], r')
                      | 44%N :: r' =>
                          match parse_members fuel' r' with
                          | Some (ms, r'') => Some ((of_bytes k, v) :: ms, r'')
                          | None => None
                          end
                      | _ => None
                      end
                  end
              | _ => None
              end
          end
      | _ => None
      end
  end.

Definition json_parse (text : string) : option JSON :=
  let l := bytes text in
  match parse_value (2 * List.length l + 2) l with
  | Some (v, r) => match skip_ws r with [] => Some v | _ => None end
  | None => None
  end.

(** The encoders: [Buffer.prototype.toString('base64')], and
    [JSON.stringify] on a list of cookie records. *)

Definition sextet_char (v : N) : N :=
  (if v <? 26 then v + 65
   else if v <? 52 then v + 71
   else if v <? 62 then v - 4
   else if v =? 62 then 43 else 47)%N.

Fixpoint base64_chars (l : list N) : list N :=
  (match l with
   | a :: b :: c :: r =>
       sextet_char (a / 4) :: sextet_char ((a mod 4) * 16 + b / 16)
         :: sextet_char ((b mod 16) * 4 + c / 64) :: sextet_char (c mod 64)
         :: base64_chars r
   | [a; b] =>
       [sextet_char (a / 4); sextet_char ((a mod 4) * 16 + b / 16);
        sextet_char ((b mod 16) * 4); 61]
   | [a] => [sextet_char (a / 4); sextet_char ((a mod 4) * 16); 61; 61]
   | [] => []
   end)%N.

Definition base64_encode (s : string) : string := of_bytes (base64_chars (bytes s)).

Definition hex_char (v : N) : N := (if v <? 10 then v + 48 else v + 87)%N.

Definition quote_byte (c : N) : list N :=
  (if c =? 34 then [92; 34]
   else if c =? 92 then [92; 92]
   else if c =? 8 then [92; 98]
   else if c =? 12 then [92; 102]
   else if c =? 10 then [92; 110]
   else if c =? 13 then [92; 114]
   else if c =? 9 then [92; 116]
   else if c <? 32 then [92; 117; 48; 48; hex_char (c / 16); hex_char (c mod 16)]
   else [c])%N.

Definition quote (s : string) : list N := (34 :: flat_map quote_byte (bytes s) ++ [34])%N.

Definition stringify_cookie (c : Cookie) : list N :=
  ([123] ++ quote "name" ++ [58] ++ quote (name c) ++ [44]
     ++ quote "value" ++ [58] ++ quote (value c) ++ [44]
     ++ quote "domain" ++ [58] ++ quote (domain c) ++ [44]
     ++ quote "path" ++ [58] ++ quote (path c) ++ [125])%N.

Fixpoint stringify_items (c : Cookie) (cs : list Cookie) : list N :=
  match cs with
  | [] => stringify_cookie c
  | c' :: cs' => stringify_cookie c ++ [44%N] ++ stringify_items c' cs'
  end.

Definition json_stringify (cs : list Cookie) : string :=
  of_bytes ([91%N] ++ match cs with
                      | [] => []
                      | c :: cs' => stringify_items c cs'
                      end ++ [93%N]).

(** [interactiveLogin] ([auth.ts]) hands out
    [Buffer.from(JSON.stringify(authCookies)).toString('base64')]. *)
Definition sessionToken (cs : list Cookie) : string := base64_encode (json_stringify cs).

#[export] Instance runtime : Runtime :=
  {| base64_to_utf8 := base64_decode; JSON_parse := json_parse |}.

End Node.

(** ** The host: working directory, environment, files

    [files] maps an absolute normalized path to the entry found there;
    [fs.existsSync] answers [true] for an entry of any kind,
    [fs.statSync] reads its size in bytes, and
    [fs.readFileSync(path, 'utf-8')] gives its text or throws: a directory
    and a file without read permission are entries that cannot be read. *)

Inductive Readout : Type :=
| Text (text : string)
| Unreadable (rendering : string).

Coercion Text : string >-> Readout.

Record Entry : Type := mkEntry {
  size : Z;
  utf8 : Readout
}.

Record Host : Type := mkHost {
  cwd : string;
  homedir : string;
  environ : gmap string string;
  files : gmap string Entry
}.

Module Path.

Definition slash : ascii := ascii_of_N 47.

Fixpoint segments (s : string) : list string :=
  match s with
  | EmptyString => [EmptyString]
  | String c s' =>
      if Ascii.eqb c slash then EmptyString :: segments s'
      else match segments s' with
           | seg :: rest => String c seg :: rest
           | [] => [String c EmptyString]
           end
  end.

(** [normalizeString] without leave to climb above the root: empty and [.]
    segments vanish, [..] removes the segment before it, if any. *)
Definition push_segment (stack : list string) (seg : string) : list string :=
  if String.eqb seg "" || String.eqb seg "." then stack
  else if String.eqb seg ".." then tail stack
  else seg :: stack.

Definition normalize (s : string) : list string :=
  rev (fold_left push_segment (segments s) []).

Fixpoint join (l : list string) : string :=
  match l with
  | [] => ""
  | [x] => x
  | x :: l' => x +:+ "/" +:+ join l'
  end.

(** [path.resolve] with one argument, on a POSIX host whose working
    directory is absolute. *)
Definition resolve (cwd p : string) : string :=
  let full := if String.eqb p "" then cwd
              else if String.prefix "/" p then p
              else cwd +:+ "/" +:+ p in
  "/" +:+ join (normalize full).

Record Scan : Type := mkScan {
  startDot : Z;
  startPart : Z;
  end_ : Z;
  matchedSlash : bool;
  preDotState : Z
}.

(** The backward loop of [path.extname]; [rev_codes] holds the characters
    at indices [i], [i-1], ... and the loop leaves at a slash that follows
    the last path component. *)
Fixpoint extname_scan (rev_codes : list N) (i : Z) (st : Scan) : Scan :=
  match rev_codes with
  | [] => st
  | code :: rest =>
      if (code =? 47)%N then
        if negb (matchedSlash st)
        then mkScan (startDot st) (i + 1) (end_ st) (matchedSlash st) (preDotState st)
        else extname_scan rest (i - 1) st
      else
        let st1 := if end_ st =? -1
                   then mkScan (startDot st) (startPart st) (i + 1) false (preDotState st)
                   else st in
        let st2 :=
          if (code =? 46)%N then
            if startDot st1 =? -1
            then mkScan i (startPart st1) (end_ st1) (matchedSlash st1) (preDotState st1)
            else if negb (preDotState st1 =? 1)
                 then mkScan (startDot st1) (startPart st1) (end_ st1) (matchedSlash st1) 1
                 else st1
          else if negb (startDot st1 =? -1)
               then mkScan (startDot st1) (startPart st1) (end_ st1) (matchedSlash st1) (-1)
               else st1 in
        extname_scan rest (i - 1) st2
  end.

Definition extname (p : string) : string :=
  let st := extname_scan (rev (bytes p)) (Z.of_nat (String.length p) - 1)
                         (mkScan (-1) 0 (-1) true 0) in
  if (startDot st =? -1) || (end_ st =? -1) || (preDotState st =? 0)
     || ((preDotState st =? 1) && (startDot st =? end_ st - 1)
         && (startDot st =? startPart st + 1))
  then ""
  else String.substring (Z.to_nat (startDot st)) (Z.to_nat (end_ st - startDot st)) p.

End Path.

(** ** Outcomes of fallible code *)

Inductive Outcome (A : Type) : Type :=
| Returns (a : A)
| Throws (e : Error).

Arguments Returns {A} a.
Arguments Throws {A} e.

(** ** Asset validator ([uploader.ts], [validateVideo]) *)

Definition Qgtb (a b : Q) : bool := negb (Qle_bool a b).

Definition validateVideo (h : Host) (videoPath : string) : Outcome string :=
  let resolvedPath := Path.resolve (cwd h) videoPath in
  match files h !! resolvedPath with
  | None => Throws (VideoNotFoundError resolvedPath)
  | Some stats =>
      let ext := toLowerCase (Path.extname resolvedPath) in
      if negb (bool_decide (ext ∈ SUPPORTED_FORMATS)) then Throws (UnsupportedFormatError ext)
      else
        let sizeMb := (inject_Z (size stats) / inject_Z (1024 * 1024))%Q in
        if Qgtb sizeMb (inject_Z MAX_VIDEO_SIZE_MB)
        then Throws (VideoTooLargeError (size stats) MAX_VIDEO_SIZE_MB)
        else Returns resolvedPath
  end.

(** ** Session lookup ([auth.ts], [getSession]) *)

Definition truthy (s : option string) : bool :=
  match s with
  | Some s' => negb (String.eqb s' "")
  | None => false
  end.

(** [fs.existsSync(p)] and then [fs.readFileSync(p, 'utf-8').trim()]:
    nothing for a path without entry, else the trimmed text or the error
    of the read. *)
Definition read_trimmed (h : Host) (p : string) : option (Outcome string) :=
  match files h !! p with
  | Some e =>
      Some (match utf8 e with
            | Text text => Returns (trim text)
            | Unreadable r => Throws (Foreign r)
            end)
  | None => None
  end.

Definition getSession (h : Host) (session : option string) (envVar : string)
    (filePath : option string) : Outcome string :=
  if truthy session then Returns (default "" session)
  else
    let envSession := environ h !! envVar in
    if truthy envSession then Returns (default "" envSession)
    else
      let fromFile :=
        if truthy filePath
        then read_trimmed h (Path.resolve (cwd h) (default "" filePath))
        else None in
      match fromFile with
      | Some read => read
      | None =>
          let defaultSessionFile := Path.resolve (homedir h) ".tiktok_session" in
          match read_trimmed h defaultSessionFile with
          | Some read => read
          | None => Throws LoginRequiredError
          end
      end.

(** ** The uploader object ([uploader.ts], constructor) *)

Record TikTokUploader : Type := mkUploader {
  session : option string;
  headless : bool;
  timeout : Z;
  debug : bool;
  cookies : option (list JSON)
}.

(** [a || b] on optional strings: [a] when it is truthy, else [b]. *)
Definition or_else (a b : option string) : option string :=
  if truthy a then a else b.

Definition new_TikTokUploader `{Runtime} (h : Host) (options : UploaderOptions)
  : TikTokUploader :=
  let session := or_else (opt_session options) (environ h !! "TIKTOK_SESSION") in
  {| session := session;
     headless := default true (opt_headless options);
     timeout := default 60000 (opt_timeout options);
     debug := default false (opt_debug options);
     cookies := if truthy session then Some (parseSession (default "" session)) else None |}.

(** ** The browser and the trace of an execution

    An [Event] is one call that leaves the uploader: into the browser
    automation library, to the console, or to a caller's callback. *)

Inductive Event : Type :=
| Launch (headless : bool)
| NewContext (width height : Z)
| NewPage
| Goto (url : string)
| WaitForTimeout (ms : Z)
| AddCookies (cookies : list JSON)
| ClosePage
| Url
| IsVisible (selector : string) (timeout : Z)
| Click (selector : string)
| SetInputFiles (selector : string) (path : string)
| Fill (selector : string) (text : string)
| Press (key : string)
| ScrollToBottom
| AllButtons (tag : string) (hasText : string)
| TextContent (handle : nat)
| BoundingBox (handle : nat)
| ScrollIntoViewIfNeeded (handle : nat)
| ClickHandle (handle : nat)
| Screenshot (path : string)
| CloseBrowser
| ConsoleLog (text : string)
| ConsoleError (text : string)
| Progress (percent : Z)
| VideoComplete (index : Z) (result : UploadResult).

(** The answer of an awaited call: it resolves to a value, or rejects with
    an error of the automation library, kept as its rendering. *)
Inductive Answer (A : Type) : Type :=
| Resolves (a : A)
| Rejects (rendering : string).

Arguments Resolves {A} a.
Arguments Rejects {A} rendering.

Record Box : Type := mkBox {
  x : Q;
  y : Q;
  width : Q;
  height : Q
}.

(** One element returned by [locator(...).all()], with the answers it gives
    when the resolver inspects it. *)
Record Candidate : Type := mkCandidate {
  handle : nat;
  textContent : Answer (option string);
  boundingBox : Answer (option Box)
}.

(** The browser as an oracle over the history of events so far. *)
Record Browser : Type := mkBrowser {
  rejects : list Event -> Event -> option string;
  current_url : list Event -> string;
  is_visible : list Event -> string -> Z -> Answer bool;
  all_buttons : list Event -> Answer (list Candidate)
}.

(** ** Control flow: a computation reads the history and yields an outcome
    together with the events it added. *)

Definition Flow (A : Type) : Type := list Event -> Outcome A * list Event.

Definition ret {A} (a : A) : Flow A := fun _ => (Returns a, []).

Definition throw {A} (e : Error) : Flow A := fun _ => (Throws e, []).

Definition bind {A B} (m : Flow A) (k : A -> Flow B) : Flow B :=
  fun h =>
    match m h with
    | (Returns a, t) => let '(r, t') := k a (h ++ t) in (r, t ++ t')
    | (Throws e, t) => (Throws e, t)
    end.

Notation "x <- m ;; k" := (bind m (fun x => k))
  (at level 100, m at next level, right associativity).
Notation "m ;; k" := (bind m (fun _ => k))
  (at level 100, right associativity).

Definition lift {A} (o : Outcome A) : Flow A := fun _ => (o, []).

Definition emit (ev : Event) : Flow unit := fun _ => (Returns tt, [ev]).

Definition when (c : bool) (m : Flow unit) : Flow unit := if c then m else ret tt.

(** [try { m } catch (error) { handler error }] *)
Definition try_catch {A} (m : Flow A) (handler : Error -> Flow A) : Flow A :=
  fun h =>
    match m h with
    | (Throws e, t) => let '(r, t') := handler e (h ++ t) in (r, t ++ t')
    | done => done
    end.

(** [try { m } finally { fin }]: [fin] always runs; when it throws, its
    error replaces the outcome of [m]. *)
Definition try_finally {A} (m : Flow A) (fin : Flow unit) : Flow A :=
  fun h =>
    let '(r, t) := m h in
    match fin (h ++ t) with
    | (Returns _, t') => (r, t ++ t')
    | (Throws e, t') => (Throws e, t ++ t')
    end.

Section Calls.

Variable b : Browser.

(** An awaited call that resolves to nothing. *)
Definition call (ev : Event) : Flow unit :=
  fun h =>
    match rejects b h ev with
    | None => (Returns tt, [ev])
    | Some r => (Throws (Foreign r), [ev])
    end.

Definition answer {A} (ev : Event) (a : list Event -> Answer A) : Flow A :=
  fun h =>
    match a h with
    | Resolves v => (Returns v, [ev])
    | Rejects r => (Throws (Foreign r), [ev])
    end.

(** [page.url()] is synchronous and does not throw. *)
Definition page_url : Flow string := fun h => (Returns (current_url b h), [Url]).

Definition isVisible (selector : string) (timeout : Z) : Flow bool :=
  answer (IsVisible selector timeout) (fun h => is_visible b h selector timeout).

End Calls.

(** ** The uploader's methods ([uploader.ts]) *)

(** [Math.round]: the nearest integer, the larger one on a tie. *)
Definition Math_round (q : Q) : Z := Qfloor (q + (1 # 2)).

(** The percentage reported at tick [i] of the polling loop:
    [Math.round(Math.min(95, ((i + 1) * 5 * 100) / timeoutSeconds))]. *)
Definition tick_progress (i timeoutSeconds : Z) : Z :=
  Math_round (Qmin (inject_Z 95) (inject_Z ((i + 1) * 5 * 100) / inject_Z timeoutSeconds)).

Definition modalButtons : list string := ["Cancel"; "Not now"; "Close"; "Skip"; "Got it"].

Definition exit_modal : string := "text=Are you sure you want to exit?".

Definition uploaded : UploadResult :=
  {| success := true; videoId := None; videoUrl := None; status := "uploaded"; error := None |}.

Definition failed (e : Error) : UploadResult :=
  {| success := false; videoId := None; videoUrl := None; status := "failed";
     error := Some (String_of_error e) |}.

Section Methods.

Variable b : Browser.
Variable host : Host.
Variable this : TikTokUploader.

Definition log (text : string) : Flow unit := when (debug this) (emit (ConsoleLog text)).

Definition setupContext : Flow unit :=
  match cookies this with
  | None => throw LoginRequiredError
  | Some cs =>
      call b NewPage ;;
      call b (Goto TIKTOK_BASE_URL) ;;
      call b (WaitForTimeout 1000) ;;
      call b (AddCookies cs) ;;
      call b ClosePage
  end.

(** The body of the loop of [dismissModals] for one label; [true] stands
    for the [return] inside the [try], [false] for falling out of it or
    for the [catch]. *)
Definition dismiss_one (buttonText : string) : Flow bool :=
  try_catch
    (visible <- isVisible b ("text=" +:+ buttonText) 1000 ;;
     if visible then
       call b (Click ("text=" +:+ buttonText)) ;;
       call b (WaitForTimeout 500) ;;
       log ("Dismissed modal with '" +:+ buttonText +:+ "'") ;;
       ret true
     else ret false)
    (fun _ => ret false).

Fixpoint dismiss_from (labels : list string) : Flow unit :=
  match labels with
  | [] => ret tt
  | buttonText :: rest =>
      returned <- dismiss_one buttonText ;;
      if returned then ret tt else dismiss_from rest
  end.

Definition dismissModals : Flow unit := dismiss_from modalButtons.

(** The body of the loop of [findPostButton] for one candidate. *)
Definition inspect (btn : Candidate) : Flow bool :=
  try_catch
    (content <- answer (TextContent (handle btn)) (fun _ => textContent btn) ;;
     let text := trim (default "" content) in
     box <- answer (BoundingBox (handle btn)) (fun _ => boundingBox btn) ;;
     match box with
     | Some bx => ret (String.eqb text "Post" && Qgtb (width bx) (inject_Z 100))
     | None => ret false
     end)
    (fun _ => ret false).

Fixpoint find_from (buttons : list Candidate) : Flow (option Candidate) :=
  match buttons with
  | [] => ret None
  | btn :: rest =>
      found <- inspect btn ;;
      if found then ret (Some btn) else find_from rest
  end.

Definition findPostButton : Flow (option Candidate) :=
  call b ScrollToBottom ;;
  call b (WaitForTimeout 500) ;;
  buttons <- answer (AllButtons "button" "Post") (all_buttons b) ;;
  find_from buttons.

(** The check for the exit dialog inside the polling loop; [true] stands
    for the [return false] inside the [try]. *)
Definition exit_check : Flow bool :=
  try_catch
    (visible <- isVisible b exit_modal 500 ;;
     if visible then
       emit (ConsoleError "Exit modal appeared - upload may have failed") ;;
       ret true
     else ret false)
    (fun _ => ret false).

(** The loop of [waitForUploadComplete] with [left] iterations to go,
    starting at index [i]. *)
Fixpoint poll (timeoutSeconds : Z) (onProgress : bool) (left : nat) (i : Z) : Flow bool :=
  match left with
  | O => ret false
  | S left' =>
      call b (WaitForTimeout 5000) ;;
      currentUrl <- page_url b ;;
      when onProgress (emit (Progress (tick_progress i timeoutSeconds))) ;;
      if includes currentUrl "/content" || includes currentUrl "/posts" then
        when onProgress (emit (Progress 100)) ;;
        ret true
      else
        stop <- exit_check ;;
        if stop then ret false
        else poll timeoutSeconds onProgress left' (i + 1)
  end.

Definition waitForUploadComplete (timeoutSeconds : Z) (onProgress : bool) : Flow bool :=
  let iterations := timeoutSeconds / 5 in
  poll timeoutSeconds onProgress (Z.to_nat iterations) 0.

Definition desc_field : string := "div[contenteditable='true']".

(** The statements of [upload] inside its [try] block. *)
Definition upload_steps (videoPath description : string) (options : UploadOptions)
  : Flow UploadResult :=
  setupContext ;;
  call b NewPage ;;
  call b (Goto TIKTOK_UPLOAD_URL) ;;
  call b (WaitForTimeout 3000) ;;
  when (onProgress options) (emit (Progress 10)) ;;
  url <- page_url b ;;
  if includes (toLowerCase url) "login" then throw SessionExpiredError
  else
    log "Uploading video file..." ;;
    call b (SetInputFiles "input[type='file']" videoPath) ;;
    call b (WaitForTimeout 10000) ;;
    when (onProgress options) (emit (Progress 40)) ;;
    dismissModals ;;
    log "Setting description..." ;;
    call b (Click desc_field) ;;
    call b (Fill desc_field description) ;;
    call b (Press "Escape") ;;
    call b (WaitForTimeout 1000) ;;
    when (onProgress options) (emit (Progress 60)) ;;
    log "Clicking Post..." ;;
    postBtn <- findPostButton ;;
    match postBtn with
    | None =>
        when (debug this) (call b (Screenshot "debug_no_post_button.png")) ;;
        throw (UploadFailedError "Could not find Post button" None)
    | Some btn =>
        call b (ScrollIntoViewIfNeeded (handle btn)) ;;
        call b (WaitForTimeout 500) ;;
        call b (ClickHandle (handle btn)) ;;
        when (onProgress options) (emit (Progress 70)) ;;
        log "Waiting for upload to complete..." ;;
        success <- waitForUploadComplete (timeout this / 1000) (onProgress options) ;;
        if success then
          log "Upload successful!" ;;
          ret uploaded
        else
          when (debug this) (call b (Screenshot "debug_upload_failed.png")) ;;
          throw (UploadFailedError "Upload did not complete successfully"
                   (if debug this then Some "debug_upload_failed.png" else None))
    end.

(** The [catch] clause of [upload]. *)
Definition upload_catch (error : Error) : Flow UploadResult :=
  if is_flow_error error then throw error
  else throw (UploadFailedError (String_of_error error) None).

Definition upload (video description : string) (options : UploadOptions)
  : Flow UploadResult :=
  videoPath <- lift (validateVideo host video) ;;
  log ("Uploading: " +:+ videoPath) ;;
  when (onProgress options) (emit (Progress 0)) ;;
  call b (Launch (headless this)) ;;
  call b (NewContext 1280 1024) ;;
  try_finally
    (try_catch (upload_steps videoPath description options) upload_catch)
    (call b CloseBrowser).

(** The loop of [uploadMany] from index [i] on. *)
Fixpoint upload_from (onVideoComplete : bool) (videos : list VideoInfo) (i : Z)
  : Flow (list UploadResult) :=
  match videos with
  | [] => ret []
  | videoInfo :: rest =>
      result <- try_catch
                  (upload (video videoInfo) (description videoInfo)
                          {| visibility := vi_visibility videoInfo; onProgress := false |})
                  (fun error => ret (failed error)) ;;
      when onVideoComplete (emit (VideoComplete i result)) ;;
      results <- upload_from onVideoComplete rest (i + 1) ;;
      ret (result :: results)
  end.

Definition uploadMany (videos : list VideoInfo) (onVideoComplete : bool)
  : Flow (list UploadResult) :=
  upload_from onVideoComplete videos 0.

End Methods.

(** ** The exported functions ([uploader.ts], [upload] and [uploadMany])

    [options] is both the constructor's and the method's argument. *)

Module Exported.

Definition upload `{Runtime} (b : Browser) (host : Host) (video description : string)
    (uploaderOptions : UploaderOptions) (options : UploadOptions) : Flow UploadResult :=
  let uploader := new_TikTokUploader host uploaderOptions in
  upload b host uploader video description options.

Definition uploadMany `{Runtime} (b : Browser) (host : Host) (videos : list VideoInfo)
    (options : UploaderOptions) : Flow (list UploadResult) :=
  let uploader := new_TikTokUploader host options in
  uploadMany b host uploader videos false.

End Exported.

(** ** Projections of a trace *)

Definition progress_of (t : list Event) : list Z :=
  omap (fun e => match e with Progress p => Some p | _ => None end) t.

Definition completions_of (t : list Event) : list (Z * UploadResult) :=
  omap (fun e => match e with VideoComplete i r => Some (i, r) | _ => None end) t.

Definition is_close (e : Event) : bool :=
  match e with CloseBrowser => true | _ => false end.

Definition is_launch (e : Event) : bool :=
  match e with Launch _ => true | _ => false end.

Definition is_click (e : Event) : bool :=
  match e with Click _ => true | _ => false end.

Definition is_complete (e : Event) : bool :=
  match e with VideoComplete _ _ => true | _ => false end.

Definition is_tick (e : Event) : bool :=
  match e with WaitForTimeout 5000 => true | _ => false end.

Definition count (f : Event -> bool) (t : list Event) : nat := List.length (List.filter f t).

(** ** Sample hosts, uploaders and browsers for closed examples *)

Module Samples.

Definition host : Host :=
  {| cwd := "/home/me";
     homedir := "/home/me";
     environ := ∅;
     files := {[ "/home/me/clip.MP4" := mkEntry (10 * 1048576) "";
                 "/home/me/limit.webm" := mkEntry (287 * 1048576) "";
                 "/home/me/big.mov" := mkEntry (287 * 1048576 + 1) "";
                 "/home/me/notes.txt" := mkEntry 12 "hello world" ]} |}.

Definition token : string :=
  "W3sibmFtZSI6InNlc3Npb25pZCIsInZhbHVlIjoiYWJjIiwiZG9tYWluIjoiLnRpa3Rvay5jb20iLCJwYXRoIjoiLyJ9XQ==".

Definition with_session : TikTokUploader :=
  @new_TikTokUploader Node.runtime host (mkUploaderOptions (Some "3f9a0c") None None None).

Definition without_session : TikTokUploader :=
  @new_TikTokUploader Node.runtime host (mkUploaderOptions None None None None).

Definition quick : TikTokUploader :=
  @new_TikTokUploader Node.runtime host (mkUploaderOptions (Some "3f9a0c") None (Some 10000) None).

(** An icon-sized control, a compound label, and the real button. *)
Definition buttons : list Candidate :=
  [ mkCandidate 0 (Resolves (Some "Post")) (Resolves (Some (mkBox 0 0 (24 # 1) (24 # 1))));
    mkCandidate 1 (Resolves (Some " Post now ")) (Resolves (Some (mkBox 0 0 (200 # 1) (40 # 1))));
    mkCandidate 2 (Resolves (Some " Post ")) (Resolves (Some (mkBox 0 0 (1205 # 10) (40 # 1))));
    mkCandidate 3 (Resolves (Some "Post")) (Resolves (Some (mkBox 0 0 (300 # 1) (40 # 1)))) ].

Definition studio : string := "https://www.tiktok.com/tiktokstudio/content".

(** No call rejects, no dialog shows, and the page reaches the content
    list at the [n]-th polling tick. *)
Definition succeeds_at (n : nat) : Browser :=
  {| rejects := fun _ _ => None;
     current_url := fun h => if (n <=? count is_tick h)%nat then studio else TIKTOK_UPLOAD_URL;
     is_visible := fun _ _ _ => Resolves false;
     all_buttons := fun _ => Resolves buttons |}.

(** The page never leaves the upload form. *)
Definition never_done : Browser :=
  {| rejects := fun _ _ => None;
     current_url := fun _ => TIKTOK_UPLOAD_URL;
     is_visible := fun _ _ _ => Resolves false;
     all_buttons := fun _ => Resolves buttons |}.

(** The exit dialog is up from the first polling tick on. *)
Definition exit_dialog : Browser :=
  {| rejects := fun _ _ => None;
     current_url := fun _ => TIKTOK_UPLOAD_URL;
     is_visible := fun _ selector _ => Resolves (String.eqb selector exit_modal);
     all_buttons := fun _ => Resolves buttons |}.

(** The browser starts, and creating its context fails. *)
Definition context_fails : Browser :=
  {| rejects := fun _ ev => match ev with
                            | NewContext _ _ => Some "Error: browser.newContext: Target page, context or browser has been closed"
                            | _ => None
                            end;
     current_url := fun _ => TIKTOK_UPLOAD_URL;
     is_visible := fun _ _ _ => Resolves false;
     all_buttons := fun _ => Resolves buttons |}.

(** Two dialogs are up; the click on the first one's button is rejected. *)
Definition click_rejected : Browser :=
  {| rejects := fun _ ev => match ev with
                            | Click "text=Cancel" => Some "TimeoutError: locator.click: Timeout 30000ms exceeded."
                            | _ => None
                            end;
     current_url := fun _ => TIKTOK_UPLOAD_URL;
     is_visible := fun _ selector _ =>
                     Resolves (String.eqb selector "text=Cancel" || String.eqb selector "text=Not now");
     all_buttons := fun _ => Resolves buttons |}.

(** A dialog with a [Close] button is up. *)
Definition close_shown : Browser :=
  {| rejects := fun _ _ => None;
     current_url := fun _ => TIKTOK_UPLOAD_URL;
     is_visible := fun _ selector _ => Resolves (String.eqb selector "text=Close");
     all_buttons := fun _ => Resolves buttons |}.



Definition with_callback : UploadOptions := {| visibility := None; onProgress := true |}.

Definition batch : list VideoInfo :=
  [ mkVideoInfo "clip.MP4" "first" None;
    mkVideoInfo "missing.mp4" "second" (Some friends);
    mkVideoInfo "limit.webm" "third" (Some private) ].

End Samples.

(** ** Vocabulary of the properties *)

(** A cookie list in its transport encoding, as [interactiveLogin] writes
    it: base64 of the JSON text of the list. *)
Definition encodes_cookies `{Runtime} (s : string) (cs : list Cookie) : Prop :=
  JSON_parse (base64_to_utf8 s) = Some (JArray (map cookie_object cs)).

(** The extension as the validator compares it. *)
Definition extension_of (h : Host) (videoPath : string) : string :=
  toLowerCase (Path.extname (Path.resolve (cwd h) videoPath)).

Definition megabyte : Z := 1024 * 1024.

(** What the resolver asks of a candidate: its trimmed text is the label
    itself, and its box is wider than 100 units. *)
Definition exact_label (c : Candidate) : Prop :=
  exists content, textContent c = Resolves content /\ trim (default "" content) = "Post".

Definition wide_enough (c : Candidate) : Prop :=
  exists bx, boundingBox c = Resolves (Some bx) /\ (inject_Z 100 < width bx)%Q.

Definition qualifies (c : Candidate) : bool :=
  match textContent c, boundingBox c with
  | Resolves content, Resolves (Some bx) =>
      String.eqb (trim (default "" content)) "Post" && Qgtb (width bx) (inject_Z 100)
  | _, _ => false
  end.

(** Every event a computation adds satisfies [f], whatever the history. *)
Definition only {A} (f : Event -> bool) (m : Flow A) : Prop :=
  forall h, Forall (fun e => f e = true) (snd (m h)).

Definition not_progress (e : Event) : bool :=
  match e with Progress _ => false | _ => true end.

(** Events between the creation of the context and the close of the
    browser: no launch, no close, no completion callback of the batch. *)
Definition in_session (e : Event) : bool :=
  negb (is_close e) && negb (is_launch e) && negb (is_complete e).

Definition exit_message : string := "Exit modal appeared - upload may have failed".

Definition not_console_error (e : Event) : bool :=
  match e with ConsoleError _ => false | _ => true end.


(** The events of one polling tick up to its checks, at index [i]. *)
Definition tick_events (timeoutSeconds : Z) (onProgress : bool) (i : Z) : list Event :=
  [WaitForTimeout 5000; Url]
  ++ (if onProgress then [Progress (tick_progress i timeoutSeconds)] else []).

Definition is_success_url (url : string) : bool :=
  includes url "/content" || includes url "/posts".

(** The percentages of [k] consecutive ticks from index [i] on. *)
Fixpoint ticks_from (timeoutSeconds : Z) (i : Z) (k : nat) : list Z :=
  match k with
  | O => []
  | S k' => tick_progress i timeoutSeconds :: ticks_from timeoutSeconds (i + 1) k'
  end.

Definition milestones : list Z := [0; 10; 40; 60; 70].

Fixpoint nondecreasing (l : list Z) : Prop :=
  match l with
  | a :: (b :: _) as l' => a <= b /\ nondecreasing l'
  | _ => True
  end.

(** What [upload] adds to the trace before it launches the browser. *)
Definition prologue (this : TikTokUploader) (videoPath : string) (options : UploadOptions)
  : list Event :=
  (if debug this then [ConsoleLog ("Uploading: " +:+ videoPath)] else [])
  ++ (if onProgress options then [Progress 0] else []).

(** The error [upload] throws for an error caught in its [try] block. *)
Definition caught (e : Error) : Error :=
  if is_flow_error e then e else UploadFailedError (String_of_error e) None.


(** The visibility check of [dismissModals] for one label. *)
Definition label_selector (l : string) : string := "text=" +:+ l.

Definition label_check (l : string) : Event := IsVisible (label_selector l) 1000.

(** The element of label [l] is reported visible at history [h]. *)
Definition shown (b : Browser) (h : list Event) (l : string) : Prop :=
  is_visible b h (label_selector l) 1000 = Resolves true.

(** No label of [labels] is reported visible when its turn comes, the scan
    starting at history [h]. *)
Definition all_hidden (b : Browser) (h : list Event) (labels : list string) : Prop :=
  forall i l, labels !! i = Some l -> ~ shown b (h ++ map label_check (take i labels)) l.

(** The outcome [uploadMany] records for one request. *)
Definition outcome_result (o : Outcome UploadResult) : UploadResult :=
  match o with
  | Returns r => r
  | Throws e => failed e
  end.

Definition request_options (v : VideoInfo) : UploadOptions :=
  {| visibility := vi_visibility v; onProgress := false |}.

(** A batch run, request by request: each upload starts from the history
    the previous one left, its outcome is recorded whether it returned or
    threw, and the completion callback follows it. *)
Inductive Batch (b : Browser) (host : Host) (this : TikTokUploader) (cb : bool)
  : Z -> list VideoInfo -> list Event -> list UploadResult -> list Event -> Prop :=
| Batch_done (i : Z) (h : list Event) : Batch b host this cb i [] h [] []
| Batch_next (i : Z) (v : VideoInfo) (rest : list VideoInfo) (h : list Event)
    (o : Outcome UploadResult) (t1 : list Event) (rs : list UploadResult) (t2 : list Event) :
    upload b host this (video v) (description v) (request_options v) h = (o, t1) ->
    Batch b host this cb (i + 1) rest
          (h ++ t1 ++ (if cb then [VideoComplete i (outcome_result o)] else [])) rs t2 ->
    Batch b host this cb i (v :: rest) h (outcome_result o :: rs)
          (t1 ++ (if cb then [VideoComplete i (outcome_result o)] else []) ++ t2).

(** A failure outcome for the thrown error [e], field by field: not a
    success, the status [failed], and the rendering of the error. *)
Definition failure_outcome (r : UploadResult) (e : Error) : Prop :=
  success r = false /\ status r = "failed" /\ error r = Some (String_of_error e)
  /\ videoId r = None /\ videoUrl r = None.

(** The results paired with their indices from [i] on. *)
Fixpoint indexed_from (i : Z) (rs : list UploadResult) : list (Z * UploadResult) :=
  match rs with
  | [] => []
  | r :: rs' => (i, r) :: indexed_from (i + 1) rs'
  end.

(** A request with its visibility replaced. *)
Definition with_visibility (vis : VideoInfo -> option Visibility) (v : VideoInfo) : VideoInfo :=
  {| video := video v; description := description v; vi_visibility := vis v |}.

(** The debug line of a dismissed dialog. *)
Definition dismissed_log (this : TikTokUploader) (l : string) : list Event :=
  if debug this then [ConsoleLog ("Dismissed modal with '" +:+ l +:+ "'")] else [].

(** The modal scan as the amended claim describes it, label by label from
    history [h]: a label reported visible whose click and pause both
    resolve ends the scan after the click, the 500 ms pause and the debug
    line; a label reported hidden, or whose visibility check, click or
    pause rejects, is skipped, and the scan goes on with the next label
    from the history these calls left; the scan ends when no label is
    left. *)
Inductive Scanned (b : Browser) (this : TikTokUploader)
  : list string -> list Event -> list Event -> Prop :=
| Scanned_all (h : list Event) : Scanned b this [] h []
| Scanned_dismissed (l : string) (rest : list string) (h : list Event) :
    is_visible b h (label_selector l) 1000 = Resolves true ->
    rejects b (h ++ [label_check l]) (Click (label_selector l)) = None ->
    rejects b (h ++ [label_check l; Click (label_selector l)]) (WaitForTimeout 500) = None ->
    Scanned b this (l :: rest) h
      ([label_check l; Click (label_selector l); WaitForTimeout 500] ++ dismissed_log this l)
| Scanned_hidden (l : string) (rest : list string) (h t : list Event) :
    is_visible b h (label_selector l) 1000 = Resolves false ->
    Scanned b this rest (h ++ [label_check l]) t ->
    Scanned b this (l :: rest) h (label_check l :: t)
| Scanned_check_rejected (l : string) (rest : list string) (h t : list Event) (r : string) :
    is_visible b h (label_selector l) 1000 = Rejects r ->
    Scanned b this rest (h ++ [label_check l]) t ->
    Scanned b this (l :: rest) h (label_check l :: t)
| Scanned_click_rejected (l : string) (rest : list string) (h t : list Event) (r : string) :
    is_visible b h (label_selector l) 1000 = Resolves true ->
    rejects b (h ++ [label_check l]) (Click (label_selector l)) = Some r ->
    Scanned b this rest (h ++ [label_check l; Click (label_selector l)]) t ->
    Scanned b this (l :: rest) h (label_check l :: Click (label_selector l) :: t)
| Scanned_pause_rejected (l : string) (rest : list string) (h t : list Event) (r : string) :
    is_visible b h (label_selector l) 1000 = Resolves true ->
    rejects b (h ++ [label_check l]) (Click (label_selector l)) = None ->
    rejects b (h ++ [label_check l; Click (label_selector l)]) (WaitForTimeout 500) = Some r ->
    Scanned b this rest
      (h ++ [label_check l; Click (label_selector l); WaitForTimeout 500]) t ->
    Scanned b this (l :: rest) h
      (label_check l :: Click (label_selector l) :: WaitForTimeout 500 :: t).




(** The shape of the percentages an upload reports: a prefix of the fixed
    milestones, then the values of [k] consecutive polling ticks, which
    start only after the last milestone, then 100 when [finished]. *)
Definition progress_shape (T : Z) (ps : list Z) (finished : bool) : Prop :=
  exists ms k,
    ps = ms ++ ticks_from T 0 k ++ (if finished then [100] else [])
    /\ (exists rest, milestones = ms ++ rest)
    /\ ((0 < k)%nat \/ finished = true -> ms = milestones /\ Z.of_nat k <= T / 5 /\ (0 < k)%nat).

(** A flow that, entered after the percentages [pre], leaves a sequence of
    the right shape, finished when it returns. *)
Definition reports (T : Z) (pre : list Z) (m : Flow UploadResult) : Prop :=
  forall h,
    exists finished,
      progress_shape T (pre ++ progress_of (snd (m h))) finished
      /\ (forall res, fst (m h) = Returns res -> finished = true).

(** ** Vocabulary of the further properties *)

(** Any event but a polling wait. *)
Definition no_tick (e : Event) : bool := negb (is_tick e).

(** The browser resolves every call that resolves to nothing. *)
Definition never_rejects (b : Browser) : Prop := forall h ev, rejects b h ev = None.




(** In the trace [t], added after history [h], some polling tick read a
    page URL that contains [/content] or [/posts]. *)
Definition saw_success (b : Browser) (h t : list Event) : Prop :=
  exists t0 t1,
    t = t0 ++ WaitForTimeout 5000 :: Url :: t1
    /\ is_success_url (current_url b (h ++ t0 ++ [WaitForTimeout 5000])) = true.

(** A property of a trace and of the history before it that still holds
    when events are put before or after the trace. *)
Definition extends (P : list Event -> list Event -> Prop) : Prop :=
  (forall h t1 t2, P (h ++ t1) t2 -> P h (t1 ++ t2))
  /\ (forall h t1 t2, P h t1 -> P h (t1 ++ t2)).

(** Whenever the flow returns, its trace has the property. *)
Definition reaches {A} (P : list Event -> list Event -> Prop) (m : Flow A) : Prop :=
  forall h a, fst (m h) = Returns a -> P h (snd (m h)).

(** The flow returns nothing but the result of a finished upload. *)
Definition returns_uploaded (m : Flow UploadResult) : Prop :=
  forall h a, fst (m h) = Returns a -> a = uploaded.

(** The flow waits for at most [n] polling ticks. *)
Definition ticks_at_most {A} (n : nat) (m : Flow A) : Prop :=
  forall h, (count is_tick (snd (m h)) <= n)%nat.

(** A computation that, whenever it returns, has made the calls of [l], in
    this order, possibly with others in between. *)
Definition performs {A} (l : list Event) (m : Flow A) : Prop :=
  forall h a, fst (m h) = Returns a -> sublist l (snd (m h)).

(** The calls a successful upload has made between the creation of the
    context and the listing of the buttons. *)
Definition form_calls (cs : list JSON) (videoPath description : string) : list Event :=
  [AddCookies cs; Goto TIKTOK_UPLOAD_URL; SetInputFiles "input[type='file']" videoPath;
   Fill desc_field description].

(** In the trace [t], added after history [h]: the calls of [before] were
    made, in this order; then the page was asked for its buttons and
    answered the list [bs]; [btn] is the first candidate of this list that
    qualifies, and it was clicked afterwards. *)
Definition posted (b : Browser) (before h t : list Event) (bs : list Candidate)
    (btn : Candidate) : Prop :=
  exists t1 t2,
    t = t1 ++ AllButtons "button" "Post" :: t2
    /\ sublist before t1
    /\ all_buttons b (h ++ t1) = Resolves bs
    /\ List.find qualifies bs = Some btn
    /\ In (ClickHandle (handle btn)) t2.

(** Whenever the flow returns, it has posted. *)
Definition posts {A} (b : Browser) (before : list Event) (m : Flow A) : Prop :=
  forall h a, fst (m h) = Returns a -> exists bs btn, posted b before h (snd (m h)) bs btn.


(** A request whose file passes validation. *)
Definition passes_validation (host : Host) (v : VideoInfo) : bool :=
  match validateVideo host (video v) with Returns _ => true | Throws _ => false end.

(** A browser that always starts: neither the launch nor the creation of
    the context is ever rejected. *)
Definition always_starts (b : Browser) : Prop :=
  forall h, (forall headless, rejects b h (Launch headless) = None)
            /\ (forall w ht, rejects b h (NewContext w ht) = None).


(** The visibility checks of the modal scan. *)
Definition is_check (e : Event) : bool :=
  match e with IsVisible _ 1000 => true | _ => false end.

(** The events the modal scan may add when it has asked for [labels]. *)
Definition is_dismissal (labels : list string) (e : Event) : bool :=
  match e with
  | IsVisible selector timeout =>
      (timeout =? 1000) && existsb (String.eqb selector) (map label_selector labels)
  | Click selector => existsb (String.eqb selector) (map label_selector labels)
  | WaitForTimeout ms => ms =? 500
  | ConsoleLog _ => true
  | _ => false
  end.

(** A computation that returns from every history, with a value of which
    [Q] holds. *)
Definition yields {A} (Q : A -> Prop) (m : Flow A) : Prop :=
  forall h, exists a, fst (m h) = Returns a /\ Q a.

(** A page that cooperates with an upload whose polling loop has
    [iterations] rounds: it never shows the login page nor the exit dialog,
    always lists a button that qualifies, and shows a success URL from the
    polling wait number [n + 1] on, [n] being below [iterations]. *)
Record cooperates (b : Browser) (iterations : nat) : Prop := {
  calls_resolve : never_rejects b;
  logged_in : forall h, includes (toLowerCase (current_url b h)) "login" = false;
  no_exit_dialog : forall h, is_visible b h exit_modal 500 <> Resolves true;
  post_button : forall h, exists bs btn,
      all_buttons b h = Resolves bs /\ List.find qualifies bs = Some btn;
  completes : exists n, (n < iterations)%nat
      /\ forall h, (n < count is_tick h)%nat -> is_success_url (current_url b h) = true
}.

(** A browser whose session has expired: every page is the login page. *)
Definition logged_out : Browser :=
  {| rejects := fun _ _ => None;
     current_url := fun _ => "https://www.tiktok.com/Login?redirect_url=upload";
     is_visible := fun _ _ _ => Resolves false;
     all_buttons := fun _ => Resolves [] |}.


(** The calls of an upload from the launch to the reading of the page URL
    that decides whether the session is still valid. *)
Definition opening (this : TikTokUploader) (cs : list JSON) (options : UploadOptions)
  : list Event :=
  [Launch (headless this); NewContext 1280 1024;
   NewPage; Goto TIKTOK_BASE_URL; WaitForTimeout 1000; AddCookies cs; ClosePage;
   NewPage; Goto TIKTOK_UPLOAD_URL; WaitForTimeout 3000]
  ++ (if onProgress options then [Progress 10] else []).

(** ** The command line ([cli.ts])

    [process.exit(code)] is the value a command returns.  Where the
    progress callback of an upload is [showProgress], each [Progress p]
    of the trace stands for the call [showProgress(p)]. *)

Module Cli.

Definition VERSION : string := "0.1.0".

Definition newline : string := String (ascii_of_N 10) EmptyString.

Definition carriage_return : string := String (ascii_of_N 13) EmptyString.

(** The variables of the argument loop of [cmdUpload]. *)
Record UploadArgs : Type := mkUploadArgs {
  videoPath : option string;
  caption : option string;
  visibility : Visibility;
  visible : bool;
  debug : bool;
  quiet : bool
}.

Definition initial : UploadArgs := mkUploadArgs None None everyone false false false.

Definition visibility_of (v : string) : option Visibility :=
  if String.eqb v "everyone" then Some everyone
  else if String.eqb v "friends" then Some friends
  else if String.eqb v "private" then Some private
  else None.

(** The argument loop of [cmdUpload]; [args[++i]] past the end is
    [undefined]. *)
Fixpoint parse_from (args : list string) (st : UploadArgs) : UploadArgs :=
  match args with
  | [] => st
  | arg :: rest =>
      if String.eqb arg "-c" || String.eqb arg "--caption" then
        match rest with
        | [] => mkUploadArgs (videoPath st) None (visibility st) (visible st) (debug st) (quiet st)
        | v :: rest' =>
            parse_from rest'
              (mkUploadArgs (videoPath st) (Some v) (visibility st) (visible st) (debug st)
                            (quiet st))
        end
      else if String.eqb arg "--visibility" then
        match rest with
        | [] => st
        | v :: rest' =>
            parse_from rest'
              (match visibility_of v with
               | Some vis =>
                   mkUploadArgs (videoPath st) (caption st) vis (visible st) (debug st) (quiet st)
               | None => st
               end)
        end
      else if String.eqb arg "--visible" then
        parse_from rest
          (mkUploadArgs (videoPath st) (caption st) (visibility st) true (debug st) (quiet st))
      else if String.eqb arg "--debug" then
        parse_from rest
          (mkUploadArgs (videoPath st) (caption st) (visibility st) (visible st) true (quiet st))
      else if String.eqb arg "-q" || String.eqb arg "--quiet" then
        parse_from rest
          (mkUploadArgs (videoPath st) (caption st) (visibility st) (visible st) (debug st) true)
      else if negb (String.prefix "-" arg) && negb (truthy (videoPath st)) then
        parse_from rest
          (mkUploadArgs (Some arg) (caption st) (visibility st) (visible st) (debug st) (quiet st))
      else parse_from rest st
  end.

Definition parse_upload_args (args : list string) : UploadArgs := parse_from args initial.

(** [String.prototype.repeat] for a count that is not negative. *)
Fixpoint repeat_string (s : string) (count : nat) : string :=
  match count with
  | O => ""
  | S count' => s +:+ repeat_string s count'
  end.

(** The progress callback of [cmdUpload]: what it writes, or [None] for
    the [RangeError] of [repeat] on a negative count. *)
Definition showProgress (progress : Z) : option (list string) :=
  let barWidth := 30 in
  let filled := (barWidth * progress) / 100 in
  if (filled <? 0) || (barWidth - filled <? 0) then None
  else
    let bar := repeat_string "█" (Z.to_nat filled)
               +:+ repeat_string "░" (Z.to_nat (barWidth - filled)) in
    Some ([carriage_return +:+ "  [" +:+ bar +:+ "] " +:+ of_Z progress +:+ "%"]
            ++ (if progress =? 100 then [newline] else [])).

(** UTF-16 code units of the code point whose UTF-8 form starts with the
    byte [b]; a continuation byte counts for nothing. *)
Definition units (b : N) : Z :=
  if (b <? 128)%N then 1 else if (b <? 192)%N then 0 else if (b <? 240)%N then 1 else 2.

(** [String.prototype.length]. *)
Definition length16 (s : string) : Z := fold_right (fun b n => units b + n) 0 (bytes s).

(** [substring(0, n)] on the bytes: whole code points while they fit; a
    surrogate pair cut in half leaves U+FFFD, which is what the console
    prints for a lone surrogate. *)
Fixpoint take16 (n : Z) (l : list N) : list N :=
  match l with
  | [] => []
  | b :: rest =>
      if units b <=? n then b :: take16 (n - units b) rest
      else if 0 <? n then [239; 191; 189]%N
      else []
  end.

(** [caption.length > 50 ? caption.substring(0, 50) + '...' : caption] *)
Definition preview (caption : string) : string :=
  if 50 <? length16 caption then of_bytes (take16 50 (bytes caption)) +:+ "..." else caption.

Inductive Command : Type :=
| Help
| Version
| Auth (commandArgs : list string)
| Upload (args : list string)
| Check
| Unknown (command : string).

Definition has (args : list string) (flag : string) : bool := existsb (String.eqb flag) args.

(** The routing of [main]: which command runs, and on which arguments. *)
Definition route (args : list string) : Command :=
  if (Nat.eqb (List.length args) 0) || has args "--help" || has args "-h" then Help
  else if has args "--version" || has args "-v" then Version
  else
    match args with
    | [] => Help
    | command :: commandArgs =>
        if String.eqb command "auth" then Auth commandArgs
        else if String.eqb command "upload" then Upload commandArgs
        else if String.eqb command "check" then Check
        else
          let ext := toLowerCase (Path.extname command) in
          if bool_decide (ext ∈ SUPPORTED_FORMATS) then Upload args else Unknown command
    end.

Section Commands.

Context `{Runtime}.
Variable b : Browser.
Variable host : Host.

(** What [console.error(error)] prints for a thrown value, which the model
    keeps only as its [String(error)]. *)
Variable inspect : Error -> string.

(** The [catch] clause of [cmdUpload]. *)
Definition upload_failed (debugging : bool) (error : Error) : Flow Z :=
  match error with
  | SessionExpiredError =>
      emit (ConsoleError (newline +:+ "❌ " +:+ error_message error))
  | Foreign _ =>
      emit (ConsoleError (newline +:+ "❌ Unexpected error: " +:+ String_of_error error)) ;;
      when debugging (emit (ConsoleError (inspect error)))
  | _ =>
      emit (ConsoleError (newline +:+ "❌ Error: " +:+ error_message error))
  end ;;
  ret 1.

Definition cmdUpload (args : list string) : Flow Z :=
  let parsed := parse_upload_args args in
  if negb (truthy (videoPath parsed)) then
    emit (ConsoleError "Error: Video file path is required") ;;
    ret 1
  else if negb (truthy (caption parsed)) then
    emit (ConsoleError "Error: Caption is required (-c or --caption)") ;;
    ret 1
  else
    let video := default "" (videoPath parsed) in
    let text := default "" (caption parsed) in
    try_catch
      (match getSession host None "TIKTOK_SESSION" None with
       | Throws _ =>
           emit (ConsoleError "Error: No TikTok session found.") ;;
           emit (ConsoleError "Run 'tiktok-upload auth' first to login.") ;;
           ret 1
       | Returns session =>
           let uploader :=
             new_TikTokUploader host
               (mkUploaderOptions (Some session) (Some (negb (visible parsed))) None
                                  (Some (debug parsed))) in
           emit (ConsoleLog ("Uploading: " +:+ video)) ;;
           emit (ConsoleLog ("Caption: " +:+ preview text)) ;;
           emit (ConsoleLog "") ;;
           result <- upload b host uploader video text
                       (mkUploadOptions (Some (visibility parsed)) (negb (quiet parsed))) ;;
           if success result then
             emit (ConsoleLog (newline +:+ "✅ Upload successful!")) ;;
             when (truthy (videoUrl result))
                  (emit (ConsoleLog ("   URL: " +:+ default "" (videoUrl result)))) ;;
             ret 0
           else
             emit (ConsoleError (newline +:+ "❌ Upload failed: "
                                   +:+ default "undefined" (error result))) ;;
             ret 1
       end)
      (upload_failed (debug parsed)).

Definition cmdCheck : Flow Z :=
  try_catch
    (session <- lift (getSession host None "TIKTOK_SESSION" None) ;;
     emit (ConsoleLog "✅ Session found") ;;
     emit (ConsoleLog "   Validating session...") ;;
     let uploader :=
       new_TikTokUploader host (mkUploaderOptions (Some session) (Some true) None None) in
     emit (ConsoleLog "   Session appears valid") ;;
     ret 0)
    (fun error =>
       match error with
       | LoginRequiredError =>
           emit (ConsoleLog "❌ No session found") ;;
           emit (ConsoleLog "   Run 'tiktok-upload auth' to login")
       | SessionExpiredError =>
           emit (ConsoleLog "❌ Session expired") ;;
           emit (ConsoleLog "   Run 'tiktok-upload auth' to get a new session")
       | _ => emit (ConsoleError ("Error: " +:+ String_of_error error))
       end ;;
       ret 1).

End Commands.

End Cli.
(** ** Vocabulary of the command-line properties *)

(** The uploader, the request and the opening lines [cmdUpload] builds
    from its arguments and the session. *)
Definition cli_uploader `{Runtime} (host : Host) (parsed : Cli.UploadArgs) (session : string)
  : TikTokUploader :=
  new_TikTokUploader host
    (mkUploaderOptions (Some session) (Some (negb (Cli.visible parsed))) None
                       (Some (Cli.debug parsed))).

Definition cli_request (parsed : Cli.UploadArgs) : UploadOptions :=
  mkUploadOptions (Some (Cli.visibility parsed)) (negb (Cli.quiet parsed)).

Definition cli_banner (parsed : Cli.UploadArgs) : list Event :=
  [ConsoleLog ("Uploading: " +:+ default "" (Cli.videoPath parsed));
   ConsoleLog ("Caption: " +:+ Cli.preview (default "" (Cli.caption parsed)));
   ConsoleLog ""].

Definition success_line : string := Cli.newline +:+ "✅ Upload successful!".

(** The session [cmdUpload] and [cmdCheck] look up. *)
Definition cli_session (host : Host) : Outcome string :=
  getSession host None "TIKTOK_SESSION" None.

(** A host whose default session file is a directory. *)
Definition directory_session_host : Host :=
  {| cwd := "/home/me";
     homedir := "/home/me";
     environ := ∅;
     files := {[ "/home/me/.tiktok_session" :=
                   mkEntry 4096
                     (Unreadable "Error: EISDIR: illegal operation on a directory, read") ]} |}.

(** ** Interactive login ([auth.ts], [interactiveLogin]; [cli.ts], [cmdAuth])

    The login talks to a browser of its own and writes one file.  A cookie
    of the browser context is kept with the four fields the login reads. *)

Module Login.

Inductive Event : Type :=
| ConsoleLog (text : string)
| ConsoleError (text : string)
| Launch (headless : bool)
| NewContext (width height : Z)
| NewPage
| Goto (url : string)
| WaitForTimeout (ms : Z)
| Cookies
| Url
| CloseBrowser
| WriteFile (path data : string).

(** What the login throws: its own [LoginRequiredError], with the message
    of the timeout, or the rejection of a call. *)
Inductive Failure : Type :=
| TimedOut
| Rejected (rendering : string).

Definition String_of_failure (e : Failure) : string :=
  match e with
  | TimedOut => "LoginRequiredError: Login timed out. Please try again."
  | Rejected r => r
  end.

Inductive Outcome (A : Type) : Type :=
| Returns (a : A)
| Throws (e : Failure).

Arguments Returns {A} a.
Arguments Throws {A} e.

(** The browser of the login and the file system of its one write, as
    oracles over the history. *)
Record Browser : Type := mkBrowser {
  rejects : list Event -> Event -> option string;
  context_cookies : list Event -> Answer (list Cookie);
  current_url : list Event -> string
}.

Definition Flow (A : Type) : Type := list Event -> Outcome A * list Event.

Definition ret {A} (a : A) : Flow A := fun _ => (Returns a, []).

Definition throw {A} (e : Failure) : Flow A := fun _ => (Throws e, []).

Definition bind {A B} (m : Flow A) (k : A -> Flow B) : Flow B :=
  fun h =>
    match m h with
    | (Returns a, t) => let '(r, t') := k a (h ++ t) in (r, t ++ t')
    | (Throws e, t) => (Throws e, t)
    end.

Declare Scope login_scope.
Delimit Scope login_scope with login.

Notation "x <- m ;; k" := (bind m (fun x => k))
  (at level 100, m at next level, right associativity) : login_scope.
Notation "m ;; k" := (bind m (fun _ => k))
  (at level 100, right associativity) : login_scope.

Local Open Scope login_scope.

Definition emit (ev : Event) : Flow unit := fun _ => (Returns tt, [ev]).

Definition try_catch {A} (m : Flow A) (handler : Failure -> Flow A) : Flow A :=
  fun h =>
    match m h with
    | (Throws e, t) => let '(r, t') := handler e (h ++ t) in (r, t ++ t')
    | done => done
    end.

Definition AUTH_COOKIES : gset string :=
  {[ "sessionid"; "sessionid_ss"; "sid_tt"; "uid_tt"; "sid_guard" ]}.

(** [cookies.filter((c) => AUTH_COOKIES.has(c.name))] *)
Definition auth_cookies (cookies : list Cookie) : list Cookie :=
  List.filter (fun c => bool_decide (name c ∈ AUTH_COOKIES)) cookies.

(** [sessionCookies.some((c) => c.name === 'sessionid')] *)
Definition has_sessionid (sessionCookies : list Cookie) : bool :=
  existsb (fun c => String.eqb (name c) "sessionid") sessionCookies.

Section Steps.

Variable b : Browser.
Variable host : Host.

Definition call (ev : Event) : Flow unit :=
  fun h =>
    match rejects b h ev with
    | None => (Returns tt, [ev])
    | Some r => (Throws (Rejected r), [ev])
    end.

(** [await context.cookies()] *)
Definition cookies : Flow (list Cookie) :=
  fun h =>
    match context_cookies b h with
    | Resolves cs => (Returns cs, [Cookies])
    | Rejects r => (Throws (Rejected r), [Cookies])
    end.

Definition page_url : Flow string := fun h => (Returns (current_url b h), [Url]).

(** The loop [while (elapsed < timeout)]; it yields [sessionFound].  Each
    round adds 2000 to [elapsed], so [fuel] rounds are enough when [fuel]
    is at least [timeout]. *)
Fixpoint wait_for_login (fuel : nat) (elapsed timeout : Z) : Flow bool :=
  match fuel with
  | O => ret false
  | S fuel' =>
      if elapsed <? timeout then
        call (WaitForTimeout 2000) ;;
        let elapsed := elapsed + 2000 in
        cs <- cookies ;;
        let sessionCookies := auth_cookies cs in
        if has_sessionid sessionCookies then
          emit (ConsoleLog "Login detected!") ;;
          ret true
        else
          current <- page_url ;;
          let url := toLowerCase current in
          if negb (includes url "login") && includes url "/foryou" then
            call (WaitForTimeout 2000) ;;
            newCookies <- cookies ;;
            let newSessionCookies := auth_cookies newCookies in
            if has_sessionid newSessionCookies then
              emit (ConsoleLog "Login detected!") ;;
              ret true
            else wait_for_login fuel' elapsed timeout
          else wait_for_login fuel' elapsed timeout
      else ret false
  end.

Definition interactiveLogin (saveToFile : option string) (timeout : Z) : Flow string :=
  emit (ConsoleLog "Opening browser for TikTok login...") ;;
  emit (ConsoleLog "Please log in to your TikTok account.") ;;
  emit (ConsoleLog ("The browser will close automatically after login is detected."
                      +:+ Cli.newline)) ;;
  call (Launch false) ;;
  call (NewContext 1280 800) ;;
  call NewPage ;;
  call (Goto "https://www.tiktok.com/login") ;;
  emit (ConsoleLog "Waiting for login...") ;;
  emit (ConsoleLog ("(You have 5 minutes to complete the login)" +:+ Cli.newline)) ;;
  sessionFound <- wait_for_login (Z.to_nat timeout) 0 timeout ;;
  if negb sessionFound then
    call CloseBrowser ;;
    throw TimedOut
  else
    cs <- cookies ;;
    let authCookies := auth_cookies cs in
    call CloseBrowser ;;
    let sessionToken := Node.sessionToken authCookies in
    (if truthy saveToFile then
       let savePath := Path.resolve (cwd host) (default "" saveToFile) in
       call (WriteFile savePath sessionToken) ;;
       emit (ConsoleLog (Cli.newline +:+ "Session saved to: " +:+ savePath))
     else ret tt) ;;
    ret sessionToken.

(** The lines of [printSessionInstructions]. *)
Definition printSessionInstructions (sessionToken : string) : list string :=
  [ Cli.newline +:+ Cli.repeat_string "=" 60;
    "LOGIN SUCCESSFUL!";
    Cli.repeat_string "=" 60;
    Cli.newline +:+ "Your TikTok session token:" +:+ Cli.newline;
    "TIKTOK_SESSION=" +:+ sessionToken;
    Cli.newline +:+ Cli.repeat_string "-" 60;
    Cli.newline +:+ "To use this token:" +:+ Cli.newline;
    "Option 1: Set environment variable";
    "  export TIKTOK_SESSION=" +:+ dquote +:+ sessionToken +:+ dquote;
    Cli.newline +:+ "Option 2: Add to .env file";
    "  TIKTOK_SESSION=" +:+ sessionToken;
    Cli.newline +:+ "Option 3: Add to GitHub Secrets";
    "  Go to your repo -> Settings -> Secrets -> New secret";
    "  Name: TIKTOK_SESSION";
    "  Value: " +:+ sessionToken;
    Cli.newline +:+ Cli.repeat_string "-" 60;
    Cli.newline +:+ "This token expires in approximately 30 days.";
    "Run " +:+ dquote +:+ "tiktok-upload auth" +:+ dquote +:+ " again when it expires.";
    Cli.repeat_string "=" 60 +:+ Cli.newline ].

Fixpoint log_lines (lines : list string) : Flow unit :=
  match lines with
  | [] => ret tt
  | line :: rest => emit (ConsoleLog line) ;; log_lines rest
  end.

(** The value [cmdAuth] reads after the first [--save-to-file]. *)
Fixpoint save_target (args : list string) : option string :=
  match args with
  | [] => None
  | arg :: rest =>
      if String.eqb arg "--save-to-file" then
        match rest with
        | next :: _ => if truthy (Some next) then Some next else None
        | [] => None
        end
      else save_target rest
  end.

Definition cmdAuth (args : list string) : Flow Z :=
  let saveToFile := save_target args in
  try_catch
    (sessionToken <- interactiveLogin saveToFile 300000 ;;
     log_lines (printSessionInstructions sessionToken) ;;
     ret 0)
    (fun error =>
       emit (ConsoleError ("Error: " +:+ String_of_failure error)) ;;
       ret 1).

End Steps.

End Login.
(** ** Vocabulary of the login properties *)

Definition login_count (f : Login.Event -> bool) (t : list Login.Event) : nat :=
  List.length (List.filter f t).

Definition login_is_close (e : Login.Event) : bool :=
  match e with Login.CloseBrowser => true | _ => false end.

Definition login_is_write (e : Login.Event) : bool :=
  match e with Login.WriteFile _ _ => true | _ => false end.

Definition login_is_wait (e : Login.Event) : bool :=
  match e with Login.WaitForTimeout _ => true | _ => false end.

(** Events of the login while its browser is open and nothing is written. *)
Definition login_open (e : Login.Event) : bool :=
  negb (login_is_close e) && negb (login_is_write e).

(** Every event the login flow adds satisfies [f]. *)
Definition login_only {A} (f : Login.Event -> bool) (m : Login.Flow A) : Prop :=
  forall h, Forall (fun e => f e = true) (snd (m h)).

(** What the login does after closing the browser. *)
Definition login_saved (host : Host) (saveToFile : option string) (sessionToken : string)
  : list Login.Event :=
  if truthy saveToFile then
    [Login.WriteFile (Path.resolve (cwd host) (default "" saveToFile)) sessionToken;
     Login.ConsoleLog (Cli.newline +:+ "Session saved to: "
                         +:+ Path.resolve (cwd host) (default "" saveToFile))]
  else [].

(** The call [ev] made at history [h] was rejected with [r]. *)
Definition login_rejected (b : Login.Browser) (h : list Login.Event) (ev : Login.Event)
    (r : string) : Prop :=
  match ev with
  | Login.Cookies => Login.context_cookies b h = Rejects r
  | _ => Login.rejects b h ev = Some r
  end.

(** Nobody logs in: every call resolves and the context never holds a
    [sessionid] cookie. *)
Definition nobody_logs_in (b : Login.Browser) : Prop :=
  (forall h ev, Login.rejects b h ev = None)
  /\ (forall h, exists cs,
         Login.context_cookies b h = Resolves cs
         /\ Login.has_sessionid (Login.auth_cookies cs) = false).

(** A browser in which the user has logged in by the time the history
    holds [n] events. *)
Definition logs_in_after (n : nat) : Login.Browser :=
  {| Login.rejects := fun _ _ => None;
     Login.context_cookies := fun h =>
       Resolves (if (n <=? List.length h)%nat
                 then [mkCookie "sessionid" "abc" ".tiktok.com" "/";
                       mkCookie "ttwid" "x" ".tiktok.com" "/"]
                 else [mkCookie "ttwid" "x" ".tiktok.com" "/"]);
     Login.current_url := fun _ => "https://www.tiktok.com/login" |}.

(** A browser in which nobody logs in. *)
Definition idle_login : Login.Browser :=
  {| Login.rejects := fun _ _ => None;
     Login.context_cookies := fun _ => Resolves [mkCookie "ttwid" "x" ".tiktok.com" "/"];
     Login.current_url := fun _ => "https://www.tiktok.com/login" |}.

(** The login page cannot be reached. *)
Definition offline_login : Login.Browser :=
  {| Login.rejects := fun _ ev =>
       match ev with
       | Login.Goto _ => Some "Error: page.goto: net::ERR_INTERNET_DISCONNECTED"
       | _ => None
       end;
     Login.context_cookies := fun _ => Resolves [];
     Login.current_url := fun _ => "about:blank" |}.

(** A flow of the login that leaves the browser open and writes nothing,
    and that throws nothing but the rejection of its last call. *)
Definition login_keeps_open {A} (b : Login.Browser) (m : Login.Flow A) : Prop :=
  forall h,
    Forall (fun e => login_open e = true) (snd (m h))
    /\ (forall e, fst (m h) = Login.Throws e ->
          exists r t0 ev,
            e = Login.Rejected r /\ snd (m h) = t0 ++ [ev] /\ login_rejected b (h ++ t0) ev r).

(** The browser of a login over its whole run: closed exactly once when the
    login returns or times out; when a call is rejected, that call is the
    last one, and the browser was not closed before it unless the call is
    the write of the session file. *)
Definition login_lifecycle {A} (b : Login.Browser) (m : Login.Flow A) : Prop :=
  forall h,
    match fst (m h) with
    | Login.Returns _ | Login.Throws Login.TimedOut =>
        login_count login_is_close (snd (m h)) = 1%nat
    | Login.Throws (Login.Rejected r) =>
        exists t0 ev,
          snd (m h) = t0 ++ [ev]
          /\ login_rejected b (h ++ t0) ev r
          /\ login_count login_is_close t0 = (if login_is_write ev then 1 else 0)%nat
    end.

(** A flow of the login that returns [true] only right after printing that
    it read a [sessionid] cookie. *)
Definition login_detects (b : Login.Browser) (m : Login.Flow bool) : Prop :=
  forall h,
    fst (m h) = Login.Returns true ->
    exists t0 seen,
      snd (m h) = t0 ++ [Login.Cookies; Login.ConsoleLog "Login detected!"]
      /\ Forall (fun e => login_open e = true) t0
      /\ Login.context_cookies b (h ++ t0) = Resolves seen
      /\ Login.has_sessionid (Login.auth_cookies seen) = true.

(** What a returned login has done last: a read of the cookies that showed
    a [sessionid], the line that says so, a second read, from which the
    token is built, the close, and the write when a file was asked for. *)
Definition login_token_from (b : Login.Browser) (host : Host) (saveToFile : option string)
    (h t : list Login.Event) (token : string) : Prop :=
  exists t0 seen cs,
    t = t0 ++ [Login.Cookies; Login.ConsoleLog "Login detected!"; Login.Cookies;
               Login.CloseBrowser] ++ login_saved host saveToFile token
    /\ Forall (fun e => login_open e = true) t0
    /\ Login.context_cookies b (h ++ t0) = Resolves seen
    /\ Login.has_sessionid (Login.auth_cookies seen) = true
    /\ Login.context_cookies
         b (h ++ t0 ++ [Login.Cookies; Login.ConsoleLog "Login detected!"]) = Resolves cs
    /\ token = Node.sessionToken (Login.auth_cookies cs)
    /\ @parseSession Node.runtime token = map cookie_object (Login.auth_cookies cs).

(** Whenever the flow returns a token, it has ended as a login does. *)
Definition login_yields_token (b : Login.Browser) (host : Host) (saveToFile : option string)
    (m : Login.Flow string) : Prop :=
  forall h token,
    fst (m h) = Login.Returns token ->
    login_token_from b host saveToFile h (snd (m h)) token.

(** The statements of [interactiveLogin] after its loop. *)
Definition login_ending (b : Login.Browser) (host : Host) (saveToFile : option string)
    (sessionFound : bool) : Login.Flow string :=
  if negb sessionFound then
    Login.bind (Login.call b Login.CloseBrowser) (fun _ => Login.throw Login.TimedOut)
  else
    Login.bind (Login.cookies b) (fun cs =>
    Login.bind (Login.call b Login.CloseBrowser) (fun _ =>
    Login.bind
      (if truthy saveToFile then
         Login.bind
           (Login.call b (Login.WriteFile (Path.resolve (cwd host) (default "" saveToFile))
                            (Node.sessionToken (Login.auth_cookies cs))))
           (fun _ =>
              Login.emit (Login.ConsoleLog
                            (Cli.newline +:+ "Session saved to: "
                               +:+ Path.resolve (cwd host) (default "" saveToFile))))
       else Login.ret tt)
      (fun _ => Login.ret (Node.sessionToken (Login.auth_cookies cs))))).


(** A byte of the printable range that holds every base64 character and
    no first or last byte of a white-space sequence. *)
Definition plain_byte (c : N) : Prop := (43 <= c <= 122)%N.

(** * Properties *)

(** ** The library functions on examples *)

Example trim_Post : trim (String (ascii_of_N 10) "  Post ") = "Post".
Proof. reflexivity. Qed.

Example includes_login :
  includes (toLowerCase "https://www.tiktok.com/Login?x=1") "login" = true.
Proof. reflexivity. Qed.

Example of_Z_287 : of_Z 287 = "287" /\ of_Z 0 = "0" /\ of_Z 1000 = "1000".
Proof. repeat split; reflexivity. Qed.

Example node_decodes_cookie_list :
  @parseSession Node.runtime
    "W3sibmFtZSI6InNlc3Npb25pZCIsInZhbHVlIjoiYWJjIiwiZG9tYWluIjoiLnRpa3Rvay5jb20iLCJwYXRoIjoiLyJ9XQ=="
  = [cookie_object (mkCookie "sessionid" "abc" ".tiktok.com" "/")].
Proof. vm_compute. reflexivity. Qed.

Example node_raw_sessionid :
  @parseSession Node.runtime "3f9a0c" = raw_session_cookies "3f9a0c".
Proof. vm_compute. reflexivity. Qed.

Example resolve_relative : Path.resolve "/home/me" "clips/../a.MP4" = "/home/me/a.MP4".
Proof. reflexivity. Qed.

Example resolve_absolute : Path.resolve "/home/me" "/tmp//x/./b.mov" = "/tmp/x/b.mov".
Proof. reflexivity. Qed.

Example extname_examples :
  Path.extname "/a/b.tar.gz" = ".gz" /\ Path.extname "/a/.bashrc" = "" /\
  Path.extname "/a.d/noext" = "" /\ Path.extname "/a/clip.MP4" = ".MP4" /\
  Path.extname "/a/.." = "" /\ Path.extname "/a/x." = ".".
Proof. repeat split; reflexivity. Qed.

(** ** Session codec *)

Section SessionCodec.

Context `{Runtime}.

Lemma parseSession_array (s : string) (items : list JSON) :
  JSON_parse (base64_to_utf8 s) = Some (JArray items) -> parseSession s = items.
Proof. intros E. unfold parseSession. now rewrite E. Qed.

Lemma parseSession_fallback (s : string) :
  (forall items, JSON_parse (base64_to_utf8 s) <> Some (JArray items)) ->
  parseSession s = raw_session_cookies s.
Proof.
  intros N. unfold parseSession.
  destruct (JSON_parse (base64_to_utf8 s)) as [v|]; [|reflexivity].
  destruct v; try reflexivity. now destruct (N items).
Qed.

(** Whatever the input, the result is the parsed array or the two
    synthesized records: there is no third case and no failure. *)
Lemma parseSession_total (s : string) :
  (exists items, JSON_parse (base64_to_utf8 s) = Some (JArray items) /\ parseSession s = items)
  \/ ((forall items, JSON_parse (base64_to_utf8 s) <> Some (JArray items))
      /\ parseSession s = raw_session_cookies s).
Proof.
  destruct (JSON_parse (base64_to_utf8 s)) as [v|] eqn:E.
  - destruct v; try (right; split; [congruence | apply parseSession_fallback; congruence]).
    left. exists items. split; [reflexivity | now apply parseSession_array].
  - right. split; [congruence | apply parseSession_fallback; congruence].
Qed.

End SessionCodec.

(** *** The token of [interactiveLogin] decodes to its cookies *)

Section SessionToken.

Import Node.

Ltac settle_comparisons :=
  repeat match goal with
         | |- context [(?a <=? ?b)%N] =>
             first [ replace (a <=? b)%N with true by (symmetry; apply N.leb_le; lia)
                   | replace (a <=? b)%N with false by (symmetry; apply N.leb_gt; lia) ]
         | |- context [(?a <? ?b)%N] =>
             first [ replace (a <? b)%N with true by (symmetry; apply N.ltb_lt; lia)
                   | replace (a <? b)%N with false by (symmetry; apply N.ltb_ge; lia) ]
         | |- context [(?a =? ?b)%N] =>
             first [ replace (a =? b)%N with true by (symmetry; apply N.eqb_eq; lia)
                   | replace (a =? b)%N with false by (symmetry; apply N.eqb_neq; lia) ]
         end; cbn [andb orb].

Lemma sextet_char_cases (v : N) :
  (v < 64)%N ->
  (v < 26 /\ sextet_char v = v + 65)%N
  \/ (26 <= v < 52 /\ sextet_char v = v + 71)%N
  \/ (52 <= v < 62 /\ sextet_char v = v - 4)%N
  \/ (v = 62 /\ sextet_char v = 43)%N
  \/ (v = 63 /\ sextet_char v = 47)%N.
Proof.
  intros L. unfold sextet_char.
  destruct (N.ltb_spec v 26); [now left|].
  destruct (N.ltb_spec v 52); [right; left; split; [lia | reflexivity]|].
  destruct (N.ltb_spec v 62); [right; right; left; split; [lia | reflexivity]|].
  destruct (N.eqb_spec v 62); [now right; right; right; left|].
  right; right; right; right. split; [lia | reflexivity].
Qed.

Lemma sextet_sextet_char (v : N) : (v < 64)%N -> sextet (sextet_char v) = Some v.
Proof.
  intros L.
  destruct (sextet_char_cases v L) as [[B ->]|[[B ->]|[[B ->]|[[-> ->]|[-> ->]]]]];
    try reflexivity; unfold sextet; settle_comparisons; f_equal; lia.
Qed.

Lemma sextet_char_bound (v : N) : (v < 64)%N -> (sextet_char v < 256)%N /\ sextet_char v <> 61%N.
Proof.
  intros L.
  destruct (sextet_char_cases v L) as [[B ->]|[[B ->]|[[B ->]|[[-> ->]|[-> ->]]]]]; lia.
Qed.

Lemma sextets_char (v : N) (l : list N) :
  (v < 64)%N -> sextets (sextet_char v :: l) = v :: sextets l.
Proof.
  intros L. cbn [sextets]. destruct (sextet_char_bound v L) as [_ P].
  destruct (N.eqb_spec (sextet_char v) 61); [contradiction|].
  now rewrite sextet_sextet_char.
Qed.

Lemma triple_ind (P : list N -> Prop) :
  P [] -> (forall a, P [a]) -> (forall a b, P [a; b]) ->
  (forall a b c r, P r -> P (a :: b :: c :: r)) ->
  forall l, P l.
Proof.
  intros P0 P1 P2 P3.
  assert (A : forall l, P l /\ (forall a, P (a :: l)) /\ (forall a b, P (a :: b :: l))).
  { induction l as [|c l (IH0 & IH1 & IH2)]; [now repeat split|].
    repeat split;
      [exact (IH1 c) | intros a; exact (IH2 a c) | intros a b; exact (P3 a b c l IH0)]. }
  intros l. apply A.
Qed.

Ltac divmod := zify; Z.to_euclidean_division_equations; lia.

Lemma octets_sextets_chars (l : list N) :
  Forall (fun c => (c < 256)%N) l ->
  octets (sextets (base64_chars l)) = l
  /\ Forall (fun c => (c < 256)%N) (base64_chars l).
Proof.
  induction l as [|a|a b|a b c r IH] using triple_ind; intros F.
  - now split.
  - inversion F as [|? ? La _]; subst. cbn [base64_chars].
    assert (L1 : (a / 4 < 64)%N) by divmod.
    assert (L2 : (a mod 4 * 16 < 64)%N) by divmod.
    split.
    + rewrite !sextets_char by assumption. cbn. f_equal. divmod.
    + repeat constructor; try lia; now apply sextet_char_bound.
  - inversion F as [|? ? La F']; subst. inversion F' as [|? ? Lb _]; subst.
    cbn [base64_chars].
    assert (L1 : (a / 4 < 64)%N) by divmod.
    assert (L2 : (a mod 4 * 16 + b / 16 < 64)%N) by divmod.
    assert (L3 : (b mod 16 * 4 < 64)%N) by divmod.
    split.
    + rewrite !sextets_char by assumption. cbn. f_equal; [divmod|]. f_equal. divmod.
    + repeat constructor; try lia; now apply sextet_char_bound.
  - inversion F as [|? ? La F']; subst. inversion F' as [|? ? Lb F'']; subst.
    inversion F'' as [|? ? Lc Fr]; subst.
    destruct (IH Fr) as [IH1 IH2].
    cbn [base64_chars].
    assert (L1 : (a / 4 < 64)%N) by divmod.
    assert (L2 : (a mod 4 * 16 + b / 16 < 64)%N) by divmod.
    assert (L3 : (b mod 16 * 4 + c / 64 < 64)%N) by divmod.
    assert (L4 : (c mod 64 < 64)%N) by divmod.
    split.
    + rewrite !sextets_char by assumption. cbn [octets]. rewrite IH1.
      f_equal; [divmod|]. f_equal; [divmod|]. f_equal. divmod.
    + repeat (constructor; [now apply sextet_char_bound|]). exact IH2.
Qed.

Lemma bytes_bound (s : string) : Forall (fun c => (c < 256)%N) (bytes s).
Proof.
  unfold bytes. induction s as [|c s IH]; cbn; constructor; [apply N_ascii_bounded | exact IH].
Qed.

Lemma of_bytes_bytes (s : string) : of_bytes (bytes s) = s.
Proof.
  unfold of_bytes, bytes. induction s as [|c s IH]; [reflexivity|].
  cbn. now rewrite ascii_N_embedding, IH.
Qed.

Lemma bytes_of_bytes (l : list N) :
  Forall (fun c => (c < 256)%N) l -> bytes (of_bytes l) = l.
Proof.
  unfold of_bytes, bytes. induction 1 as [|c l L _ IH]; [reflexivity|].
  cbn. now rewrite N_ascii_embedding, IH.
Qed.

Lemma base64_decode_encode (s : string) : base64_decode (base64_encode s) = s.
Proof.
  unfold base64_decode, base64_encode.
  destruct (octets_sextets_chars (bytes s) (bytes_bound s)) as [E F].
  now rewrite bytes_of_bytes, E, of_bytes_bytes.
Qed.

Lemma parse_chars_quoted (s : string) (rest : list N) :
  parse_chars (flat_map quote_byte (bytes s) ++ 34%N :: rest) = Some (bytes s, rest).
Proof.
  induction s as [|c s IH]; [reflexivity|].
  change (bytes (String c s)) with (N_of_ascii c :: bytes s).
  cbn [flat_map]. rewrite <- app_assoc.
  remember (flat_map quote_byte (bytes s) ++ 34%N :: rest) as tail eqn:E.
  remember (bytes s) as bs eqn:B.
  destruct c as [[] [] [] [] [] [] [] []];
    match goal with
    | |- context [quote_byte (N_of_ascii ?a)] =>
        let v := eval vm_compute in (N_of_ascii a) in
        let q := eval vm_compute in (quote_byte v) in
        change (N_of_ascii a) with v; change (quote_byte v) with q
    end;
    cbn [app]; cbn; rewrite IH; reflexivity.
Qed.

Lemma quote_app (s : string) (rest : list N) :
  quote s ++ rest = 34%N :: flat_map quote_byte (bytes s) ++ 34%N :: rest.
Proof. unfold quote. cbn [app]. now rewrite <- app_assoc. Qed.

Lemma parse_value_quoted (fuel : nat) (s : string) (rest : list N) :
  parse_value (S fuel) (quote s ++ rest) = Some (JString s, rest).
Proof.
  rewrite quote_app.
  remember (flat_map quote_byte (bytes s) ++ 34%N :: rest) as tail eqn:E.
  cbn. subst tail. now rewrite parse_chars_quoted, of_bytes_bytes.
Qed.

Lemma parse_members_more (fuel : nat) (k v : string) (rest : list N) :
  parse_members (S (S fuel)) (quote k ++ [58%N] ++ quote v ++ [44%N] ++ rest)
  = match parse_members (S fuel) rest with
    | Some (ms, r) => Some ((k, JString v) :: ms, r)
    | None => None
    end.
Proof.
  rewrite quote_app.
  remember (flat_map quote_byte (bytes k) ++ 34%N :: [58%N] ++ quote v ++ [44%N] ++ rest)
    as tail eqn:E.
  cbn [parse_members skip_ws is_ws N.eqb Pos.eqb orb].
  subst tail. rewrite parse_chars_quoted.
  cbn [app skip_ws is_ws N.eqb Pos.eqb orb].
  rewrite parse_value_quoted.
  cbn [app skip_ws is_ws N.eqb Pos.eqb orb].
  rewrite of_bytes_bytes. reflexivity.
Qed.

Lemma parse_members_last (fuel : nat) (k v : string) (rest : list N) :
  parse_members (S (S fuel)) (quote k ++ [58%N] ++ quote v ++ [125%N] ++ rest)
  = Some ([(k, JString v)], rest).
Proof.
  rewrite quote_app.
  remember (flat_map quote_byte (bytes k) ++ 34%N :: [58%N] ++ quote v ++ [125%N] ++ rest)
    as tail eqn:E.
  cbn [parse_members skip_ws is_ws N.eqb Pos.eqb orb].
  subst tail. rewrite parse_chars_quoted.
  cbn [app skip_ws is_ws N.eqb Pos.eqb orb].
  rewrite parse_value_quoted.
  cbn [app skip_ws is_ws N.eqb Pos.eqb orb].
  rewrite of_bytes_bytes. reflexivity.
Qed.

Lemma parse_value_object (fuel : nat) (k : string) (rest : list N) :
  parse_value (S fuel) (123%N :: quote k ++ rest)
  = match parse_members fuel (quote k ++ rest) with
    | Some (ms, r) => Some (JObject ms, r)
    | None => None
    end.
Proof.
  rewrite quote_app.
  remember (flat_map quote_byte (bytes k) ++ 34%N :: rest) as tail eqn:E.
  reflexivity.
Qed.

Lemma parse_value_cookie (fuel : nat) (c : Cookie) (rest : list N) :
  parse_value (S (S (S (S (S (S fuel)))))) (stringify_cookie c ++ rest)
  = Some (cookie_object c, rest).
Proof.
  unfold stringify_cookie. rewrite <- !app_assoc.
  change ([123%N] ++ ?x) with (123%N :: x).
  rewrite parse_value_object.
  rewrite !parse_members_more, parse_members_last. reflexivity.
Qed.


Lemma parse_elements_eq (fuel : nat) (l : list N) :
  parse_elements (S fuel) l
  = match parse_value fuel l with
    | None => None
    | Some (v, r) =>
        match skip_ws r with
        | 93%N :: r' => Some ([v], r')
        | 44%N :: r' =>
            match parse_elements fuel r' with
            | Some (vs, r'') => Some (v :: vs, r'')
            | None => None
            end
        | _ => None
        end
    end.
Proof. reflexivity. Qed.

Lemma parse_elements_last (fuel : nat) (c : Cookie) (rest : list N) :
  parse_elements (S (S (S (S (S (S (S fuel))))))) (stringify_cookie c ++ [93%N] ++ rest)
  = Some ([cookie_object c], rest).
Proof.
  rewrite parse_elements_eq, parse_value_cookie. reflexivity.
Qed.

Lemma parse_elements_more (fuel : nat) (c : Cookie) (rest : list N) :
  parse_elements (S (S (S (S (S (S (S fuel))))))) (stringify_cookie c ++ [44%N] ++ rest)
  = match parse_elements (S (S (S (S (S (S fuel)))))) rest with
    | Some (vs, r) => Some (cookie_object c :: vs, r)
    | None => None
    end.
Proof. rewrite parse_elements_eq, parse_value_cookie. reflexivity. Qed.

Lemma parse_elements_items (cs : list Cookie) :
  forall c fuel rest,
    parse_elements (List.length cs + S (S (S (S (S (S (S fuel)))))))
                   (stringify_items c cs ++ [93%N] ++ rest)
    = Some (map cookie_object (c :: cs), rest).
Proof.
  induction cs as [|c' cs IH]; intros c fuel rest.
  - cbn [List.length stringify_items Nat.add]. apply parse_elements_last.
  - cbn [List.length stringify_items]. rewrite <- !app_assoc.
    replace (S (List.length cs) + S (S (S (S (S (S (S fuel)))))))%nat
      with (S (S (S (S (S (S (S (List.length cs + S fuel))))))))%nat by lia.
    rewrite parse_elements_more.
    replace (S (S (S (S (S (S (List.length cs + S fuel)))))))%nat
      with (List.length cs + S (S (S (S (S (S (S fuel)))))))%nat by lia.
    rewrite IH. reflexivity.
Qed.

Lemma stringify_cookie_length (c : Cookie) : (4 <= List.length (stringify_cookie c))%nat.
Proof. unfold stringify_cookie, quote. cbn [app List.length]. rewrite !length_app. cbn. lia. Qed.

Lemma stringify_items_length (cs : list Cookie) :
  forall c, (4 * S (List.length cs) <= List.length (stringify_items c cs))%nat.
Proof.
  induction cs as [|c' cs IH]; intros c; cbn [stringify_items List.length].
  - pose proof (stringify_cookie_length c). lia.
  - rewrite !length_app. pose proof (stringify_cookie_length c). specialize (IH c').
    cbn [List.length]. lia.
Qed.

Lemma quote_byte_bound (c : N) :
  (c < 256)%N -> Forall (fun x => (x < 256)%N) (quote_byte c).
Proof.
  intros L. unfold quote_byte, hex_char.
  repeat match goal with
         | |- context [if ?t then _ else _] => destruct t
         end; repeat constructor; try lia.
  all: zify; Z.to_euclidean_division_equations; lia.
Qed.

Lemma quote_bound (s : string) : Forall (fun x => (x < 256)%N) (quote s).
Proof.
  unfold quote. constructor; [lia|]. apply Forall_app. split; [|repeat constructor; lia].
  pose proof (bytes_bound s) as B. induction B as [|c l L _ IH]; [constructor|].
  cbn [flat_map]. apply Forall_app. split; [now apply quote_byte_bound | exact IH].
Qed.

Lemma stringify_cookie_bound (c : Cookie) :
  Forall (fun x => (x < 256)%N) (stringify_cookie c).
Proof.
  unfold stringify_cookie.
  repeat first [ apply Forall_app; split | apply quote_bound | apply Forall_cons; split
               | apply Forall_nil | lia ].
Qed.

Lemma stringify_items_bound (cs : list Cookie) :
  forall c, Forall (fun x => (x < 256)%N) (stringify_items c cs).
Proof.
  induction cs as [|c' cs IH]; intros c; cbn [stringify_items].
  - apply stringify_cookie_bound.
  - apply Forall_app. split; [apply stringify_cookie_bound|].
    apply Forall_app. split; [repeat constructor; lia | apply IH].
Qed.

Lemma stringify_items_head (cs : list Cookie) (c : Cookie) :
  exists tail, stringify_items c cs = 123%N :: tail.
Proof. destruct cs; cbn [stringify_items]; unfold stringify_cookie; cbn [app]; eauto. Qed.

Lemma parse_value_array (fuel : nat) (r : list N) :
  parse_value (S fuel) (91%N :: 123%N :: r)
  = match parse_elements fuel (123%N :: r) with
    | Some (items, r') => Some (JArray items, r')
    | None => None
    end.
Proof. reflexivity. Qed.

Lemma json_parse_stringify (cs : list Cookie) :
  json_parse (json_stringify cs) = Some (JArray (map cookie_object cs)).
Proof.
  destruct cs as [|c cs]; [reflexivity|].
  unfold json_parse, json_stringify.
  rewrite bytes_of_bytes.
  2:{ apply Forall_app. split; [repeat constructor; lia|].
      apply Forall_app. split; [apply stringify_items_bound | repeat constructor; lia]. }
  pose proof (stringify_items_length cs c) as Len.
  destruct (stringify_items_head cs c) as [tail H].
  cbn [app]. rewrite length_cons, length_app. cbn [List.length].
  remember (List.length (stringify_items c cs)) as n eqn:En.
  replace (2 * S (n + 1) + 2)%nat
    with (S (List.length cs + S (S (S (S (S (S (S (2 * n - List.length cs - 2)))))))))%nat
    by lia.
  rewrite H at 1. cbn [app]. rewrite parse_value_array.
  change (123%N :: tail ++ [93%N]) with ((123%N :: tail) ++ [93%N] ++ []).
  rewrite <- H, parse_elements_items. reflexivity.
Qed.

(** The token [interactiveLogin] hands out decodes to the cookies it was
    made from. *)
Lemma parseSession_sessionToken (cs : list Cookie) :
  @parseSession Node.runtime (sessionToken cs) = map cookie_object cs.
Proof.
  unfold parseSession, sessionToken. cbn [base64_to_utf8 JSON_parse Node.runtime].
  now rewrite base64_decode_encode, json_parse_stringify.
Qed.

End SessionToken.

(** C3, as amended: session decoding never fails; an input that decodes to a
    JSON array, whatever its elements, yields exactly that array, so an
    encoded cookie list yields that list, and so does, with the reference
    decoders, the token [interactiveLogin] makes of a cookie list; every
    input that does not decode to an array yields the two records
    [sessionid] and [sessionid_ss] carrying the raw input, with domain
    [.tiktok.com] and path [/]. *)
Theorem parseSession_decoding `{Runtime} (s : string) :
  (forall items, JSON_parse (base64_to_utf8 s) = Some (JArray items) -> parseSession s = items)
  /\ (forall cs, encodes_cookies s cs -> parseSession s = map cookie_object cs)
  /\ ((forall items, JSON_parse (base64_to_utf8 s) <> Some (JArray items)) ->
      parseSession s =
        [ cookie_object {| name := "sessionid"; value := s; domain := ".tiktok.com"; path := "/" |};
          cookie_object {| name := "sessionid_ss"; value := s; domain := ".tiktok.com"; path := "/" |} ])
  /\ (forall cs, @parseSession Node.runtime (Node.sessionToken cs) = map cookie_object cs).
Proof.
  split; [|split; [|split]].
  - intros items. apply parseSession_array.
  - intros cs. apply parseSession_array.
  - apply parseSession_fallback.
  - apply parseSession_sessionToken.
Qed.

Lemma parseSession_decoding_witness :
  @parseSession Node.runtime Samples.token
    = map cookie_object [mkCookie "sessionid" "abc" ".tiktok.com" "/"]
  /\ @parseSession Node.runtime "3f9a0c"
    = [ cookie_object (mkCookie "sessionid" "3f9a0c" ".tiktok.com" "/");
        cookie_object (mkCookie "sessionid_ss" "3f9a0c" ".tiktok.com" "/") ].
Proof.
  split.
  - apply (proj1 (proj2 (@parseSession_decoding Node.runtime Samples.token))).
    vm_compute. reflexivity.
  - apply (proj1 (proj2 (proj2 (@parseSession_decoding Node.runtime "3f9a0c")))).
    intros items. vm_compute. discriminate.
Defined.

(** C3, the claim as stated fails: [WzFd] is base64 for the text [[1]], a
    JSON array that is no list of cookie records; it is returned as it is,
    not replaced by the two synthesized records. *)
Lemma parseSession_keeps_any_array :
  (forall cs, ~ @encodes_cookies Node.runtime "WzFd" cs)
  /\ @parseSession Node.runtime "WzFd" = [JNumber "1"]
  /\ @parseSession Node.runtime "WzFd" <> raw_session_cookies "WzFd".
Proof.
  split; [|split].
  - intros cs E. unfold encodes_cookies in E.
    assert (P : @JSON_parse Node.runtime (@base64_to_utf8 Node.runtime "WzFd")
                = Some (JArray [JNumber "1"])) by (vm_compute; reflexivity).
    rewrite P in E. destruct cs as [|c [|c' cs]]; discriminate.
  - vm_compute. reflexivity.
  - vm_compute. discriminate.
Qed.

(** ** Asset validator *)

Lemma Qgtb_size (s : Z) :
  Qgtb (inject_Z s / inject_Z (1024 * 1024)) (inject_Z MAX_VIDEO_SIZE_MB)
  = (287 * 1048576 <? s).
Proof.
  unfold Qgtb, MAX_VIDEO_SIZE_MB.
  change (inject_Z (1024 * 1024)) with (1048576 # 1)%Q.
  unfold Qle_bool, Qdiv, Qmult, Qinv, inject_Z. simpl Qnum. simpl Qden.
  change (Z.pos (1 * 1048576)) with 1048576.
  destruct (Z.leb_spec (s * 1 * 1) (287 * 1048576)), (Z.ltb_spec (287 * 1048576) s);
    simpl; try reflexivity; lia.
Qed.

Lemma supported_iff (ext : string) :
  ext ∈ SUPPORTED_FORMATS <-> ext = ".mp4" \/ ext = ".mov" \/ ext = ".webm".
Proof. unfold SUPPORTED_FORMATS. rewrite !elem_of_union, !elem_of_singleton. tauto. Qed.

(** C4: the checks run in the order existence, format, size, and the first
    violated one is reported: no entry at the resolved path gives
    [VideoNotFoundError] whatever the extension; otherwise a lower-cased
    extension other than [.mp4], [.mov], [.webm] gives
    [UnsupportedFormatError] whatever the size; otherwise a size above
    287 MB gives [VideoTooLargeError]; otherwise validation succeeds with
    the resolved path. *)
Theorem validateVideo_order (h : Host) (videoPath : string) :
  let resolved := Path.resolve (cwd h) videoPath in
  let ext := extension_of h videoPath in
  (files h !! resolved = None ->
     validateVideo h videoPath = Throws (VideoNotFoundError resolved))
  /\ (forall stats, files h !! resolved = Some stats ->
        ext <> ".mp4" -> ext <> ".mov" -> ext <> ".webm" ->
        validateVideo h videoPath = Throws (UnsupportedFormatError ext))
  /\ (forall stats, files h !! resolved = Some stats ->
        ext = ".mp4" \/ ext = ".mov" \/ ext = ".webm" ->
        (validateVideo h videoPath = Throws (VideoTooLargeError (size stats) 287)
           <-> 287 * megabyte < size stats)
        /\ (validateVideo h videoPath = Returns resolved
           <-> size stats <= 287 * megabyte)).
Proof.
  intros resolved ext. unfold validateVideo. fold resolved.
  split; [|split].
  - intros E. now rewrite E.
  - intros stats E N1 N2 N3. rewrite E.
    fold (extension_of h videoPath). fold ext.
    rewrite bool_decide_eq_false_2; [reflexivity|].
    rewrite supported_iff. tauto.
  - intros stats E S. rewrite E.
    fold (extension_of h videoPath). fold ext.
    rewrite bool_decide_eq_true_2 by (now apply supported_iff).
    simpl negb. cbv iota. rewrite Qgtb_size. unfold megabyte, MAX_VIDEO_SIZE_MB.
    destruct (Z.ltb_spec (287 * 1048576) (size stats)); split; split;
      try (intros; lia); try discriminate; try reflexivity; intros; exfalso; lia.
Qed.

Lemma validateVideo_order_witness :
  validateVideo Samples.host "missing.avi" = Throws (VideoNotFoundError "/home/me/missing.avi")
  /\ validateVideo Samples.host "notes.txt" = Throws (UnsupportedFormatError ".txt")
  /\ validateVideo Samples.host "big.mov" = Throws (VideoTooLargeError (287 * 1048576 + 1) 287)
  /\ validateVideo Samples.host "clip.MP4" = Returns "/home/me/clip.MP4"
  /\ validateVideo Samples.host "limit.webm" = Returns "/home/me/limit.webm".
Proof.
  split; [|split; [|split; [|split]]].
  - apply (proj1 (validateVideo_order Samples.host "missing.avi")).
    vm_compute. reflexivity.
  - apply (proj1 (proj2 (validateVideo_order Samples.host "notes.txt")) (mkEntry 12 "hello world"));
      [vm_compute; reflexivity | vm_compute; discriminate ..].
  - apply (proj2 (proj2 (validateVideo_order Samples.host "big.mov"))
             (mkEntry (287 * 1048576 + 1) ""));
      [vm_compute; reflexivity | right; left; vm_compute; reflexivity | vm_compute; reflexivity].
  - apply (proj2 (proj2 (validateVideo_order Samples.host "clip.MP4"))
             (mkEntry (10 * 1048576) ""));
      [vm_compute; reflexivity | left; vm_compute; reflexivity | vm_compute; discriminate].
  - apply (proj2 (proj2 (validateVideo_order Samples.host "limit.webm"))
             (mkEntry (287 * 1048576) ""));
      [vm_compute; reflexivity | right; right; vm_compute; reflexivity | vm_compute; discriminate].
Defined.

(** ** Submit-control resolver *)

Lemma Qgtb_lt (a c : Q) : Qgtb a c = true <-> (c < a)%Q.
Proof.
  unfold Qgtb. rewrite negb_true_iff. split.
  - intros E. apply Qnot_le_lt. intros L. apply Qle_bool_iff in L. congruence.
  - intros L. destruct (Qle_bool a c) eqn:E; [|reflexivity].
    apply Qle_bool_iff in E. exfalso. now apply (Qlt_not_le c a).
Qed.

Lemma qualifies_spec (c : Candidate) :
  qualifies c = true <-> exact_label c /\ wide_enough c.
Proof.
  unfold qualifies, exact_label, wide_enough. split.
  - destruct (textContent c) as [content|]; [|discriminate].
    destruct (boundingBox c) as [[bx|]|]; try discriminate.
    rewrite andb_true_iff, String.eqb_eq, Qgtb_lt. intros [T W].
    split; eauto.
  - intros [[content [T E]] [bx [B W]]]. rewrite T, B.
    rewrite andb_true_iff, String.eqb_eq, Qgtb_lt. now split.
Qed.

(** Inspecting a candidate never throws: a rejected read counts as a
    candidate that does not qualify. *)
Lemma inspect_qualifies (btn : Candidate) (h : list Event) :
  fst (inspect btn h) = Returns (qualifies btn).
Proof.
  unfold inspect, qualifies, try_catch, bind, answer, ret.
  destruct (textContent btn) as [content|]; [|reflexivity].
  destruct (boundingBox btn) as [[bx|]|]; reflexivity.
Qed.

Lemma find_from_find (buttons : list Candidate) (h : list Event) :
  fst (find_from buttons h) = Returns (List.find qualifies buttons).
Proof.
  revert h. induction buttons as [|btn rest IH]; intros h; [reflexivity|].
  cbn [find_from List.find]. unfold bind at 1.
  pose proof (inspect_qualifies btn h) as I.
  destruct (inspect btn h) as [r t]. cbn in I. subst r.
  destruct (qualifies btn).
  - reflexivity.
  - specialize (IH (h ++ t)). destruct (find_from rest (h ++ t)) as [r' t'].
    cbn in IH. now subst r'.
Qed.

Lemma find_first {A} (f : A -> bool) (l : list A) :
  match List.find f l with
  | Some a => exists before after,
      l = before ++ a :: after /\ f a = true /\ Forall (fun c => f c = false) before
  | None => Forall (fun c => f c = false) l
  end.
Proof.
  induction l as [|c l IH]; cbn [List.find]; [constructor|].
  destruct (f c) eqn:E.
  - exists [], l. repeat split; [assumption | constructor].
  - destruct (List.find f l) as [a|].
    + destruct IH as (before & after & -> & Fa & Fb).
      exists (c :: before), after. repeat split; [assumption | now constructor].
    + now constructor.
Qed.

(** C5: once the page is scrolled and the candidates are collected, the
    resolver returns the first candidate whose trimmed text is exactly the
    label and whose box is wider than 100 units; it returns null, without
    throwing, when no candidate meets both, and never returns a candidate
    that misses either. *)
Theorem findPostButton_first (b : Browser) (h : list Event) (buttons : list Candidate) :
  rejects b h ScrollToBottom = None ->
  rejects b (h ++ [ScrollToBottom]) (WaitForTimeout 500) = None ->
  all_buttons b ((h ++ [ScrollToBottom]) ++ [WaitForTimeout 500]) = Resolves buttons ->
  exists found,
    fst (findPostButton b h) = Returns found /\
    match found with
    | Some btn =>
        exists before after,
          buttons = before ++ btn :: after /\ exact_label btn /\ wide_enough btn
          /\ Forall (fun c => ~ (exact_label c /\ wide_enough c)) before
    | None => Forall (fun c => ~ (exact_label c /\ wide_enough c)) buttons
    end.
Proof.
  intros S W B. exists (List.find qualifies buttons). split.
  - unfold findPostButton, bind, call, answer. rewrite S, W, B.
    pose proof (find_from_find buttons
                  (((h ++ [ScrollToBottom]) ++ [WaitForTimeout 500])
                     ++ [AllButtons "button" "Post"])) as F.
    destruct (find_from buttons _) as [r t]. exact F.
  - pose proof (find_first qualifies buttons) as F.
    assert (N : forall l, Forall (fun c => qualifies c = false) l ->
                          Forall (fun c => ~ (exact_label c /\ wide_enough c)) l).
    { intros l Fl. eapply Forall_impl; [exact Fl|].
      intros c E Q. apply qualifies_spec in Q. congruence. }
    destruct (List.find qualifies buttons) as [btn|].
    + destruct F as (before & after & E & Q & Fb).
      apply qualifies_spec in Q. destruct Q as [Q1 Q2].
      exists before, after. repeat split; try assumption. now apply N.
    + now apply N.
Qed.

Lemma findPostButton_first_witness :
  exists found,
    fst (findPostButton (Samples.succeeds_at 1) []) = Returns found /\
    match found with
    | Some btn =>
        exists before after,
          Samples.buttons = before ++ btn :: after /\ exact_label btn /\ wide_enough btn
          /\ Forall (fun c => ~ (exact_label c /\ wide_enough c)) before
    | None => Forall (fun c => ~ (exact_label c /\ wide_enough c)) Samples.buttons
    end.
Proof.
  apply (findPostButton_first (Samples.succeeds_at 1) [] Samples.buttons); reflexivity.
Defined.

Example findPostButton_sample :
  fst (findPostButton (Samples.succeeds_at 1) []) = Returns (nth_error Samples.buttons 2).
Proof. vm_compute. reflexivity. Qed.

(** ** Reasoning about flows *)

Lemma bind_run {A B} (m : Flow A) (k : A -> Flow B) (h : list Event) :
  bind m k h =
    match m h with
    | (Returns a, t) => (fst (k a (h ++ t)), t ++ snd (k a (h ++ t)))
    | (Throws e, t) => (Throws e, t)
    end.
Proof.
  unfold bind. destruct (m h) as [[a|e] t]; [|reflexivity].
  now destruct (k a (h ++ t)).
Qed.

Section Only.

Context {A : Type} (f : Event -> bool).

Lemma only_ret (a : A) : only f (ret a).
Proof. intros h. constructor. Qed.

Lemma only_throw (e : Error) : only f (@throw A e).
Proof. intros h. constructor. Qed.

Lemma only_lift (o : Outcome A) : only f (lift o).
Proof. intros h. constructor. Qed.

Lemma only_bind {B} (m : Flow B) (k : B -> Flow A) :
  only f m -> (forall x, only f (k x)) -> only f (bind m k).
Proof.
  intros Hm Hk h. rewrite bind_run. specialize (Hm h).
  destruct (m h) as [[x|e] t]; cbn in *; [|assumption].
  apply Forall_app. split; [assumption | apply Hk].
Qed.

Lemma only_try_catch (m : Flow A) (handler : Error -> Flow A) :
  only f m -> (forall e, only f (handler e)) -> only f (try_catch m handler).
Proof.
  intros Hm Hk h. unfold try_catch. specialize (Hm h).
  destruct (m h) as [[x|e] t]; cbn in *; [assumption|].
  specialize (Hk e (h ++ t)). destruct (handler e (h ++ t)) as [r t']. cbn in *.
  apply Forall_app. now split.
Qed.

Lemma only_answer (ev : Event) (a : list Event -> Answer A) :
  f ev = true -> only f (answer ev a).
Proof.
  intros E h. unfold answer. destruct (a h); cbn; repeat constructor; assumption.
Qed.

Lemma only_if (c : bool) (m1 m2 : Flow A) :
  only f m1 -> only f m2 -> only f (if c then m1 else m2).
Proof. now destruct c. Qed.

End Only.

Lemma only_emit f (ev : Event) : f ev = true -> only f (emit ev).
Proof. intros E h. cbn. repeat constructor. assumption. Qed.

Lemma only_call f (b : Browser) (ev : Event) : f ev = true -> only f (call b ev).
Proof.
  intros E h. unfold call. destruct (rejects b h ev); cbn; repeat constructor; assumption.
Qed.

Lemma only_page_url f (b : Browser) : f Url = true -> only f (page_url b).
Proof. intros E h. cbn. repeat constructor. assumption. Qed.

Lemma only_when f (c : bool) (m : Flow unit) : (c = true -> only f m) -> only f (when c m).
Proof. intros H. destruct c; cbn; [now apply H | apply only_ret]. Qed.

Lemma only_log f (this : TikTokUploader) (text : string) :
  f (ConsoleLog text) = true -> only f (log this text).
Proof. intros E. apply only_when. intros _. now apply only_emit. Qed.

Lemma only_isVisible f (b : Browser) (selector : string) (timeout : Z) :
  f (IsVisible selector timeout) = true -> only f (isVisible b selector timeout).
Proof. intros E. now apply only_answer. Qed.

(** One step of a structural proof that a flow adds only events of [f]. *)
Ltac only_step :=
  first
    [ apply only_ret | apply only_throw | apply only_lift
    | apply only_emit | apply only_call | apply only_page_url
    | apply only_log | apply only_isVisible | apply only_answer
    | apply only_when; intros _
    | apply only_try_catch; [|intros ?]
    | apply only_bind; [|intros ?]
    | apply only_if
    | reflexivity ].

Ltac only_auto := repeat only_step.

Section OnlyMethods.

Variable f : Event -> bool.
Variable b : Browser.
Variable this : TikTokUploader.

Hypothesis f_page :
  forall e, not_progress e && in_session e && not_console_error e = true -> f e = true.

Lemma only_setupContext : only f (setupContext b this).
Proof.
  unfold setupContext. destruct (cookies this); only_auto; now apply f_page.
Qed.

Lemma only_dismissModals : only f (dismissModals b this).
Proof.
  unfold dismissModals. induction modalButtons as [|l ls IH]; cbn [dismiss_from].
  - apply only_ret.
  - apply only_bind.
    + unfold dismiss_one. only_auto; now apply f_page.
    + intros r. destruct r; [apply only_ret | exact IH].
Qed.

Lemma only_find_from (buttons : list Candidate) : only f (find_from buttons).
Proof.
  induction buttons as [|c cs IH]; cbn [find_from].
  - apply only_ret.
  - apply only_bind.
    + unfold inspect. apply only_try_catch; [|intros ?; apply only_ret].
      apply only_bind; [apply only_answer; now apply f_page|]. intros content.
      apply only_bind; [apply only_answer; now apply f_page|]. intros box.
      destruct box; apply only_ret.
    + intros r. destruct r; [apply only_ret | exact IH].
Qed.

Lemma only_findPostButton : only f (findPostButton b).
Proof.
  unfold findPostButton.
  apply only_bind; [apply only_call; now apply f_page|]. intros _.
  apply only_bind; [apply only_call; now apply f_page|]. intros _.
  apply only_bind; [apply only_answer; now apply f_page|]. intros buttons.
  apply only_find_from.
Qed.

End OnlyMethods.

(** ** Completion polling *)

Lemma poll_step (b : Browser) (T : Z) (cb : bool) (left : nat) (i : Z) (h : list Event) :
  poll b T cb (S left) i h =
    match rejects b h (WaitForTimeout 5000) with
    | Some r => (Throws (Foreign r), [WaitForTimeout 5000])
    | None =>
        let t2 := tick_events T cb i in
        if is_success_url (current_url b (h ++ [WaitForTimeout 5000]))
        then (Returns true, t2 ++ (if cb then [Progress 100] else []))
        else
          match is_visible b (h ++ t2) exit_modal 500 with
          | Resolves true =>
              (Returns false, t2 ++ [IsVisible exit_modal 500; ConsoleError exit_message])
          | _ =>
              let rt := poll b T cb left (i + 1) (h ++ t2 ++ [IsVisible exit_modal 500]) in
              (fst rt, t2 ++ [IsVisible exit_modal 500] ++ snd rt)
          end
    end.
Proof.
  cbn [poll].
  cbv beta iota zeta delta [bind call page_url when emit ret exit_check try_catch isVisible answer
         is_success_url tick_events fst snd].
  destruct (rejects b h (WaitForTimeout 5000)); [reflexivity|].
  rewrite <- !app_assoc. cbn [app].
  destruct cb; cbn [app].
  - destruct (includes _ "/content" || includes _ "/posts"); [reflexivity|].
    rewrite <- !app_assoc. cbn [app].
    destruct (is_visible b _ exit_modal 500) as [[|]|]; cbn [app]; try reflexivity.
    + rewrite <- !app_assoc. cbn [app]. destruct (poll _ _ _ _ _ _). reflexivity.
    + rewrite <- !app_assoc. cbn [app]. destruct (poll _ _ _ _ _ _). reflexivity.
  - destruct (includes _ "/content" || includes _ "/posts"); [reflexivity|].
    rewrite <- !app_assoc. cbn [app].
    destruct (is_visible b _ exit_modal 500) as [[|]|]; cbn [app]; try reflexivity.
    + rewrite <- !app_assoc. cbn [app]. destruct (poll _ _ _ _ _ _). reflexivity.
    + rewrite <- !app_assoc. cbn [app]. destruct (poll _ _ _ _ _ _). reflexivity.
Qed.

Lemma tick_progress_le (T i j : Z) : 0 < T -> i <= j -> tick_progress i T <= tick_progress j T.
Proof.
  intros HT Hij. unfold tick_progress, Math_round.
  apply Qfloor_resp_le. apply Qplus_le_compat; [|apply Qle_refl].
  apply Q.min_le_compat_l.
  unfold Qdiv. apply Qmult_le_compat_r.
  - rewrite <- Zle_Qle. lia.
  - apply Qinv_le_0_compat. unfold Qle. cbn. lia.
Qed.

Lemma tick_progress_bounds (T i : Z) : 0 < T -> 0 <= i -> 0 <= tick_progress i T <= 95.
Proof.
  intros HT Hi. unfold tick_progress, Math_round. split.
  - change 0 with (Qfloor (0 + (1 # 2))). apply Qfloor_resp_le.
    apply Qplus_le_compat; [|apply Qle_refl].
    apply Q.min_glb; [discriminate|].
    unfold Qdiv. apply Qmult_le_0_compat.
    + unfold Qle. cbn. lia.
    + apply Qinv_le_0_compat. unfold Qle. cbn. lia.
  - change 95 with (Qfloor (inject_Z 95 + (1 # 2))) at 2. apply Qfloor_resp_le.
    apply Qplus_le_compat; [|apply Qle_refl]. apply Q.le_min_l.
Qed.

Lemma progress_of_app (t1 t2 : list Event) :
  progress_of (t1 ++ t2) = progress_of t1 ++ progress_of t2.
Proof. apply omap_app. Qed.

Lemma progress_of_only (t : list Event) :
  Forall (fun e => not_progress e = true) t -> progress_of t = [].
Proof.
  induction 1 as [|e t E _ IH]; [reflexivity|].
  destruct e; try discriminate; exact IH.
Qed.

Section Polling.

Variable b : Browser.
Variable T : Z.

Lemma poll_progress (left : nat) :
  forall i h,
    exists k fin,
      (k <= left)%nat
      /\ progress_of (snd (poll b T true left i h)) = ticks_from T i k ++ fin
      /\ ((fst (poll b T true left i h) = Returns true /\ fin = [100] /\ (1 <= k)%nat)
          \/ (fst (poll b T true left i h) <> Returns true /\ fin = [])).
Proof.
  induction left as [|left IH]; intros i h.
  - exists O, []. repeat split; [lia | right; split; [discriminate | reflexivity]].
  - rewrite poll_step.
    destruct (rejects b h (WaitForTimeout 5000)).
    { exists O, []. repeat split; [lia | right; split; [discriminate | reflexivity]]. }
    cbv zeta. destruct (is_success_url _).
    { exists 1%nat, [100]. repeat split; [lia | left; repeat split; lia]. }
    assert (Stop : exists (k : nat) (fin : list Z),
               (k <= S left)%nat
               /\ progress_of (tick_events T true i
                               ++ [IsVisible exit_modal 500; ConsoleError exit_message])
                  = ticks_from T i k ++ fin
               /\ (Returns false <> Returns true /\ fin = [])).
    { exists 1%nat, []. repeat split; [lia | discriminate]. }
    destruct (is_visible b _ exit_modal 500) as [[|]|].
    + destruct Stop as (k & fin & ? & ? & ?). exists k, fin. cbn [fst snd]. tauto.
    + destruct (IH (i + 1) (h ++ tick_events T true i ++ [IsVisible exit_modal 500]))
        as (k & fin & Hk & Hp & Hr).
      exists (S k), fin. cbn [fst snd]. repeat split; [lia | | ].
      * rewrite !progress_of_app, Hp. reflexivity.
      * destruct Hr as [(? & ? & ?)|?]; [left; repeat split; try assumption; lia | now right].
    + destruct (IH (i + 1) (h ++ tick_events T true i ++ [IsVisible exit_modal 500]))
        as (k & fin & Hk & Hp & Hr).
      exists (S k), fin. cbn [fst snd]. repeat split; [lia | | ].
      * rewrite !progress_of_app, Hp. reflexivity.
      * destruct Hr as [(? & ? & ?)|?]; [left; repeat split; try assumption; lia | now right].
Qed.



Lemma only_poll (f : Event -> bool) (cb : bool) (left : nat) :
  (forall e, in_session e = true -> f e = true) ->
  forall i, only f (poll b T cb left i).
Proof.
  intros Hf. induction left as [|left IH]; intros i h.
  - constructor.
  - rewrite poll_step.
    assert (Ht : Forall (fun e => f e = true) (tick_events T cb i)).
    { unfold tick_events. destruct cb; repeat constructor; now apply Hf. }
    destruct (rejects b h (WaitForTimeout 5000)).
    { cbn. repeat constructor. now apply Hf. }
    cbv zeta. destruct (is_success_url _).
    { cbn [snd]. apply Forall_app. split; [exact Ht|].
      destruct cb; repeat constructor. now apply Hf. }
    assert (Hv : f (IsVisible exit_modal 500) = true) by now apply Hf.
    assert (He : f (ConsoleError exit_message) = true) by now apply Hf.
    destruct (is_visible b _ exit_modal 500) as [[|]|]; cbn [snd].
    + apply Forall_app. split; [exact Ht | now repeat constructor].
    + apply Forall_app. split; [exact Ht|]. constructor; [exact Hv | apply IH].
    + apply Forall_app. split; [exact Ht|]. constructor; [exact Hv | apply IH].
Qed.

End Polling.

(** ** The orchestrator *)

Section OnlySteps.

Variable f : Event -> bool.
Hypothesis f_session : forall e, in_session e = true -> f e = true.

Lemma f_session_page (e : Event) :
  not_progress e && in_session e && not_console_error e = true -> f e = true.
Proof. rewrite !andb_true_iff. intros [[_ I] _]. now apply f_session. Qed.

Lemma only_waitForUploadComplete (b : Browser) (T : Z) (cb : bool) :
  only f (waitForUploadComplete b T cb).
Proof. unfold waitForUploadComplete. now apply only_poll. Qed.

Lemma only_upload_steps (b : Browser) (this : TikTokUploader) (videoPath description : string)
    (options : UploadOptions) :
  only f (upload_steps b this videoPath description options).
Proof.
  assert (Q : forall e, in_session e = true -> f e = true) by exact f_session.
  unfold upload_steps.
  apply only_bind; [apply only_setupContext, f_session_page|]. intros _.
  do 4 (apply only_bind; [only_auto; now apply Q|]; intros _).
  apply only_bind; [only_auto; now apply Q|]. intros url.
  destruct (includes (toLowerCase url) "login"); [apply only_throw|].
  do 4 (apply only_bind; [only_auto; now apply Q|]; intros _).
  apply only_bind; [apply only_dismissModals, f_session_page|]. intros _.
  do 7 (apply only_bind; [only_auto; now apply Q|]; intros _).
  apply only_bind; [apply only_findPostButton, f_session_page|]. intros [btn|].
  - do 5 (apply only_bind; [only_auto; now apply Q|]; intros _).
    apply only_bind; [apply only_waitForUploadComplete|]. intros [|]; only_auto; now apply Q.
  - only_auto; now apply Q.
Qed.

End OnlySteps.

Lemma guarded_run (m : Flow UploadResult) (h : list Event) :
  try_catch m upload_catch h
  = (match fst (m h) with
     | Returns a => Returns a
     | Throws e => Throws (caught e)
     end, snd (m h)).
Proof.
  unfold try_catch, upload_catch, caught.
  destruct (m h) as [[a|e] t]; cbn [fst snd]; [reflexivity|].
  destruct (is_flow_error e); unfold throw; now rewrite app_nil_r.
Qed.

Section Upload.

Variable b : Browser.
Variable host : Host.
Variable this : TikTokUploader.
Variables video description : string.
Variable options : UploadOptions.

Lemma upload_invalid (e : Error) (h : list Event) :
  validateVideo host video = Throws e ->
  upload b host this video description options h = (Throws e, []).
Proof. intros V. unfold upload, bind, lift. now rewrite V. Qed.

Lemma upload_run (videoPath : string) (h : list Event) :
  validateVideo host video = Returns videoPath ->
  let pre := prologue this videoPath options in
  let opened := pre ++ [Launch (headless this); NewContext 1280 1024] in
  upload b host this video description options h =
    match rejects b (h ++ pre) (Launch (headless this)) with
    | Some r => (Throws (Foreign r), pre ++ [Launch (headless this)])
    | None =>
        match rejects b (h ++ pre ++ [Launch (headless this)]) (NewContext 1280 1024) with
        | Some r => (Throws (Foreign r), opened)
        | None =>
            let inner := upload_steps b this videoPath description options (h ++ opened) in
            match rejects b (h ++ opened ++ snd inner) CloseBrowser with
            | None => (match fst inner with
                       | Returns a => Returns a
                       | Throws e => Throws (caught e)
                       end, opened ++ snd inner ++ [CloseBrowser])
            | Some r => (Throws (Foreign r), opened ++ snd inner ++ [CloseBrowser])
            end
        end
    end.
Proof.
  intros V pre opened. subst pre opened. unfold prologue, upload.
  cbv beta iota zeta delta [bind lift log when emit ret call try_finally fst snd].
  rewrite V.
  destruct (debug this), (onProgress options); cbn [app];
    rewrite ?app_nil_r, <- ?app_assoc; cbn [app];
    (destruct (rejects b _ (Launch _)); [reflexivity|]);
    rewrite ?app_nil_r, <- ?app_assoc; cbn [app];
    (destruct (rejects b _ (NewContext _ _)); [reflexivity|]);
    rewrite ?app_nil_r, <- ?app_assoc; cbn [app];
    rewrite guarded_run;
    rewrite ?app_nil_r, <- ?app_assoc; cbn [app];
    (destruct (rejects b _ CloseBrowser); reflexivity).
Qed.

Lemma count_app (f : Event -> bool) (t1 t2 : list Event) :
  count f (t1 ++ t2) = (count f t1 + count f t2)%nat.
Proof. unfold count. now rewrite List.filter_app, length_app. Qed.

Lemma count_in_session (t : list Event) :
  Forall (fun e => in_session e = true) t -> count is_close t = O /\ count is_launch t = O.
Proof.
  unfold count. induction 1 as [|e t E _ [IH1 IH2]]; [now split|].
  unfold in_session in E. rewrite !andb_true_iff, !negb_true_iff in E.
  destruct E as [[E1 E2] _]. cbn [List.filter]. rewrite E1, E2. now split.
Qed.

Lemma prologue_in_session (videoPath : string) :
  Forall (fun e => in_session e = true) (prologue this videoPath options).
Proof.
  unfold prologue. destruct (debug this), (onProgress options); repeat constructor.
Qed.

(** Once the browser is launched and its context created, it is closed
    exactly once, by the last call of the upload, whatever happens in
    between. *)
Lemma upload_closes_once (videoPath : string) (h : list Event) :
  validateVideo host video = Returns videoPath ->
  let pre := prologue this videoPath options in
  rejects b (h ++ pre) (Launch (headless this)) = None ->
  rejects b (h ++ pre ++ [Launch (headless this)]) (NewContext 1280 1024) = None ->
  let t := snd (upload b host this video description options h) in
  (exists mid,
      t = pre ++ [Launch (headless this); NewContext 1280 1024] ++ mid ++ [CloseBrowser]
      /\ Forall (fun e => in_session e = true) mid)
  /\ count is_launch t = 1%nat /\ count is_close t = 1%nat.
Proof.
  intros V pre L C t.
  assert (E : exists mid,
             t = pre ++ [Launch (headless this); NewContext 1280 1024] ++ mid ++ [CloseBrowser]
             /\ Forall (fun e => in_session e = true) mid).
  { exists (snd (upload_steps b this videoPath description options
                   (h ++ pre ++ [Launch (headless this); NewContext 1280 1024]))).
    split; [|now apply only_upload_steps].
    subst t. rewrite (upload_run videoPath h V). cbv zeta. fold pre. rewrite L, C.
    destruct (rejects b _ CloseBrowser); cbn [snd]; now rewrite <- app_assoc. }
  split; [exact E|]. destruct E as (mid & -> & M).
  destruct (count_in_session _ M) as [M1 M2].
  destruct (count_in_session _ (prologue_in_session videoPath)) as [P1 P2]. fold pre in P1, P2.
  rewrite !count_app, M1, M2, P1, P2. now split.
Qed.

(** Without cookies the flow throws at its first statement, after the
    browser and its context exist. *)
Lemma upload_steps_no_cookies (videoPath : string) (h : list Event) :
  cookies this = None ->
  upload_steps b this videoPath description options h = (Throws LoginRequiredError, []).
Proof.
  intros N. unfold upload_steps. rewrite bind_run. unfold setupContext. now rewrite N.
Qed.

End Upload.

(** C2, the failing path: the browser starts and creating its context is
    rejected.  The rejection leaves [upload] before its [try] block is
    entered, so the launched browser is never closed. *)
Theorem upload_leaks_browser_when_context_fails :
  upload Samples.context_fails Samples.host Samples.with_session "clip.MP4" "caption"
         Samples.with_callback []
  = (Throws (Foreign "Error: browser.newContext: Target page, context or browser has been closed"),
     [Progress 0; Launch true; NewContext 1280 1024])
  /\ rejects Samples.context_fails [Progress 0] (Launch true) = None
  /\ count is_close
       (snd (upload Samples.context_fails Samples.host Samples.with_session "clip.MP4"
                    "caption" Samples.with_callback [])) = O.
Proof. vm_compute. repeat split; reflexivity. Qed.

(** ** Missing session *)

Lemma getSession_absent (h : Host) (session filePath : option string) (envVar : string) :
  truthy session = false ->
  truthy (environ h !! envVar) = false ->
  (truthy filePath = true ->
   files h !! Path.resolve (cwd h) (default "" filePath) = None) ->
  files h !! Path.resolve (homedir h) ".tiktok_session" = None ->
  getSession h session envVar filePath = Throws LoginRequiredError.
Proof.
  intros S E F D. unfold getSession, read_trimmed. rewrite S, E, D.
  destruct (truthy filePath); [|reflexivity]. now rewrite F.
Qed.

Lemma no_session_no_cookies `{Runtime} (host : Host) (uoptions : UploaderOptions) :
  truthy (opt_session uoptions) = false ->
  truthy (environ host !! "TIKTOK_SESSION") = false ->
  cookies (new_TikTokUploader host uoptions) = None.
Proof.
  intros S E. unfold new_TikTokUploader, or_else. cbn [cookies]. now rewrite S, E.
Qed.

(** C6, as amended: an uploader built with no session parameter and no
    [TIKTOK_SESSION] has no cookies; its upload of a valid video launches
    the browser and creates the context, then fails with
    [LoginRequiredError] before a page is opened, and closes the browser. *)
Theorem login_required_after_launch `{Runtime} (b : Browser) (host : Host)
    (uoptions : UploaderOptions) (video description videoPath : string)
    (options : UploadOptions) (h : list Event) :
  truthy (opt_session uoptions) = false ->
  truthy (environ host !! "TIKTOK_SESSION") = false ->
  let this := new_TikTokUploader host uoptions in
  let pre := prologue this videoPath options in
  validateVideo host video = Returns videoPath ->
  rejects b (h ++ pre) (Launch (headless this)) = None ->
  rejects b (h ++ pre ++ [Launch (headless this)]) (NewContext 1280 1024) = None ->
  rejects b (h ++ pre ++ [Launch (headless this); NewContext 1280 1024]) CloseBrowser = None ->
  upload b host this video description options h
  = (Throws LoginRequiredError,
     pre ++ [Launch (headless this); NewContext 1280 1024; CloseBrowser]).
Proof.
  intros S E this pre V L C X.
  rewrite (upload_run b host this video description options videoPath h V).
  cbv zeta. fold pre. rewrite L, C.
  rewrite upload_steps_no_cookies by (now apply no_session_no_cookies).
  cbn [fst snd]. rewrite app_nil_r, X. cbn [app]. now rewrite <- app_assoc.
Qed.

Lemma login_required_after_launch_witness :
  upload (Samples.succeeds_at 1) Samples.host Samples.without_session "clip.MP4" "caption"
         Samples.with_callback []
  = (Throws LoginRequiredError,
     [Progress 0; Launch true; NewContext 1280 1024; CloseBrowser]).
Proof.
  apply (@login_required_after_launch Node.runtime (Samples.succeeds_at 1) Samples.host
           (mkUploaderOptions None None None None) "clip.MP4" "caption" "/home/me/clip.MP4"
           Samples.with_callback []); vm_compute; reflexivity.
Defined.

(** C6, the claim as stated fails: with no session anywhere the upload
    does fail with [LoginRequiredError], but the browser has been launched
    by then. *)
Lemma browser_launched_without_session :
  session Samples.without_session = None
  /\ getSession Samples.host None "TIKTOK_SESSION" None = Throws LoginRequiredError
  /\ fst (upload (Samples.succeeds_at 1) Samples.host Samples.without_session "clip.MP4"
                 "caption" Samples.with_callback []) = Throws LoginRequiredError
  /\ In (Launch true)
        (snd (upload (Samples.succeeds_at 1) Samples.host Samples.without_session "clip.MP4"
                     "caption" Samples.with_callback [])).
Proof. vm_compute. repeat split; try reflexivity. right. left. reflexivity. Qed.

(** C1, the failing run: with the default timeout of 60000 ms and a page
    that reaches the content list at the third tick, the callback receives
    70 and then 8. *)
Theorem progress_regresses_after_submit :
  timeout Samples.with_session = 60000
  /\ fst (upload (Samples.succeeds_at 3) Samples.host Samples.with_session "clip.MP4"
                 "caption" Samples.with_callback []) = Returns uploaded
  /\ progress_of
       (snd (upload (Samples.succeeds_at 3) Samples.host Samples.with_session "clip.MP4"
                    "caption" Samples.with_callback []))
     = [0; 10; 40; 60; 70; 8; 17; 25; 100]
  /\ ~ nondecreasing [0; 10; 40; 60; 70; 8; 17; 25; 100].
Proof.
  repeat split; try (vm_compute; reflexivity).
  cbn. intros (_ & _ & _ & _ & L & _). lia.
Qed.

(** ** Modal dismissal *)

Section Dismissal.

Variable b : Browser.
Variable this : TikTokUploader.

Lemma dismiss_one_run (l : string) (h : list Event) :
  dismiss_one b this l h =
    match is_visible b h (label_selector l) 1000 with
    | Resolves true =>
        match rejects b (h ++ [label_check l]) (Click (label_selector l)) with
        | Some _ => (Returns false, [label_check l; Click (label_selector l)])
        | None =>
            match rejects b (h ++ [label_check l; Click (label_selector l)])
                          (WaitForTimeout 500) with
            | Some _ => (Returns false,
                         [label_check l; Click (label_selector l); WaitForTimeout 500])
            | None => (Returns true,
                       [label_check l; Click (label_selector l); WaitForTimeout 500]
                         ++ dismissed_log this l)
            end
        end
    | _ => (Returns false, [label_check l])
    end.
Proof.
  unfold dismiss_one, dismissed_log, label_check, label_selector.
  cbv beta iota zeta delta [bind try_catch isVisible answer call log when emit ret fst snd].
  destruct (is_visible b h _ 1000) as [[|]|]; try reflexivity.
  destruct (rejects b _ (Click _)); [reflexivity|].
  rewrite <- !app_assoc. cbn [app].
  destruct (rejects b _ (WaitForTimeout 500)); [reflexivity|].
  destruct (debug this); reflexivity.
Qed.

Lemma all_hidden_cons (h : list Event) (l : string) (rest : list string) :
  all_hidden b h (l :: rest) ->
  ~ shown b h l /\ all_hidden b (h ++ [label_check l]) rest.
Proof.
  intros A. split.
  - specialize (A O l eq_refl). cbn in A. now rewrite app_nil_r in A.
  - intros i l' E. specialize (A (S i) l' E). cbn in A.
    now rewrite <- app_assoc.
Qed.

Lemma dismiss_one_hidden (l : string) (h : list Event) :
  ~ shown b h l -> dismiss_one b this l h = (Returns false, [label_check l]).
Proof.
  intros N. rewrite dismiss_one_run. unfold shown in N.
  destruct (is_visible b h (label_selector l) 1000) as [[|]|]; congruence.
Qed.

Lemma dismiss_from_hidden (labels : list string) :
  forall h, all_hidden b h labels ->
            dismiss_from b this labels h = (Returns tt, map label_check labels).
Proof.
  induction labels as [|l rest IH]; intros h A; [reflexivity|].
  apply all_hidden_cons in A. destruct A as [N A].
  cbn [dismiss_from]. rewrite bind_run, (dismiss_one_hidden l h N).
  rewrite (IH _ A). reflexivity.
Qed.

Lemma dismiss_from_first (before : list string) (l : string) (after : list string) :
  forall h,
    all_hidden b h before ->
    let seen := h ++ map label_check before in
    shown b seen l ->
    rejects b (seen ++ [label_check l]) (Click (label_selector l)) = None ->
    rejects b (seen ++ [label_check l; Click (label_selector l)]) (WaitForTimeout 500) = None ->
    dismiss_from b this (before ++ l :: after) h =
      (Returns tt,
       map label_check before
         ++ [label_check l; Click (label_selector l); WaitForTimeout 500]
         ++ dismissed_log this l).
Proof.
  induction before as [|l0 before IH]; intros h A seen S C W.
  - subst seen. cbn [map] in *. rewrite app_nil_r in *.
    cbn [app dismiss_from]. rewrite bind_run, dismiss_one_run.
    unfold shown in S. rewrite S, C, W. unfold ret. cbn [fst snd].
    now rewrite app_nil_r.
  - apply all_hidden_cons in A. destruct A as [N A].
    cbn [app dismiss_from]. rewrite bind_run, (dismiss_one_hidden l0 h N).
    subst seen. cbn [map] in *.
    replace (h ++ label_check l0 :: map label_check before)
      with ((h ++ [label_check l0]) ++ map label_check before) in *
      by (now rewrite <- app_assoc).
    rewrite (IH _ A S C W). reflexivity.
Qed.

Lemma dismiss_from_scanned (labels : list string) :
  forall h,
    exists t, dismiss_from b this labels h = (Returns tt, t) /\ Scanned b this labels h t.
Proof.
  induction labels as [|l rest IH]; intros h.
  { exists []. split; [reflexivity | constructor]. }
  cbn [dismiss_from]. rewrite bind_run, dismiss_one_run.
  destruct (is_visible b h (label_selector l) 1000) as [[|]|r] eqn:V.
  - destruct (rejects b (h ++ [label_check l]) (Click (label_selector l))) as [r|] eqn:C.
    + destruct (IH (h ++ [label_check l; Click (label_selector l)])) as (t & E & S).
      exists (label_check l :: Click (label_selector l) :: t). cbn [fst snd]. rewrite E.
      split; [reflexivity | now apply (Scanned_click_rejected b this l rest h t r)].
    + destruct (rejects b (h ++ [label_check l; Click (label_selector l)])
                        (WaitForTimeout 500)) as [r|] eqn:W.
      * destruct (IH (h ++ [label_check l; Click (label_selector l); WaitForTimeout 500]))
          as (t & E & S).
        exists (label_check l :: Click (label_selector l) :: WaitForTimeout 500 :: t).
        cbn [fst snd]. rewrite E.
        split; [reflexivity | now apply (Scanned_pause_rejected b this l rest h t r)].
      * eexists. cbn [fst snd ret]. rewrite app_nil_r.
        split; [reflexivity | now apply Scanned_dismissed].
  - destruct (IH (h ++ [label_check l])) as (t & E & S).
    exists (label_check l :: t). cbn [fst snd]. rewrite E.
    split; [reflexivity | now apply Scanned_hidden].
  - destruct (IH (h ++ [label_check l])) as (t & E & S).
    exists (label_check l :: t). cbn [fst snd]. rewrite E.
    split; [reflexivity | now apply (Scanned_check_rejected b this l rest h t r)].
Qed.

End Dismissal.

(** C9, as amended: the scan asks for the labels in the order [Cancel],
    [Not now], [Close], [Skip], [Got it]; at the first label reported
    visible whose click and pause both resolve it clicks, pauses 500 ms and
    returns, asking for no later label; a label that is reported hidden, or
    whose visibility check, click or pause rejects, is skipped and the scan
    goes on with the next label; when no label is reported visible it only
    asks for the five labels.  It never throws and returns no value in any
    case. *)
Theorem dismissModals_scan (b : Browser) (this : TikTokUploader) (h : list Event) :
  (forall before l after,
      modalButtons = before ++ l :: after ->
      all_hidden b h before ->
      shown b (h ++ map label_check before) l ->
      rejects b ((h ++ map label_check before) ++ [label_check l])
              (Click (label_selector l)) = None ->
      rejects b ((h ++ map label_check before) ++ [label_check l; Click (label_selector l)])
              (WaitForTimeout 500) = None ->
      dismissModals b this h =
        (Returns tt,
         map label_check before
           ++ [label_check l; Click (label_selector l); WaitForTimeout 500]
           ++ dismissed_log this l))
  /\ (all_hidden b h modalButtons ->
      dismissModals b this h = (Returns tt, map label_check modalButtons))
  /\ (exists t,
        dismissModals b this h = (Returns tt, t)
        /\ Scanned b this ["Cancel"; "Not now"; "Close"; "Skip"; "Got it"] h t).
Proof.
  split; [|split].
  - intros before l after E A S C W. unfold dismissModals. rewrite E.
    now apply dismiss_from_first.
  - intros A. now apply dismiss_from_hidden.
  - unfold dismissModals. apply (dismiss_from_scanned b this modalButtons h).
Qed.

Lemma dismissModals_scan_witness :
  dismissModals Samples.close_shown Samples.with_session []
  = (Returns tt,
     [IsVisible "text=Cancel" 1000; IsVisible "text=Not now" 1000;
      IsVisible "text=Close" 1000; Click "text=Close"; WaitForTimeout 500])
  /\ dismissModals Samples.never_done Samples.with_session []
     = (Returns tt,
        [IsVisible "text=Cancel" 1000; IsVisible "text=Not now" 1000;
         IsVisible "text=Close" 1000; IsVisible "text=Skip" 1000;
         IsVisible "text=Got it" 1000]).
Proof.
  split.
  - apply (proj1 (dismissModals_scan Samples.close_shown Samples.with_session [])
             ["Cancel"; "Not now"] "Close" ["Skip"; "Got it"]);
      try reflexivity.
    intros [|[|i]] l E; cbn in E; try discriminate;
      injection E as <-; vm_compute; discriminate.
  - apply (proj1 (proj2 (dismissModals_scan Samples.never_done Samples.with_session []))).
    intros [|[|[|[|[|i]]]]] l E; cbn in E; try discriminate;
      injection E as <-; vm_compute; discriminate.
Defined.

(** C9, the claim as stated fails: [Cancel] is the first label reported
    visible, but its click is rejected, and the scan goes on to click
    [Not now]; and the value returned after a dismissal is the value
    returned when nothing was found. *)
Lemma dismissModals_goes_on_after_rejected_click :
  shown Samples.click_rejected [] "Cancel"
  /\ dismissModals Samples.click_rejected Samples.with_session []
     = (Returns tt,
        [IsVisible "text=Cancel" 1000; Click "text=Cancel";
         IsVisible "text=Not now" 1000; Click "text=Not now"; WaitForTimeout 500])
  /\ count is_click (snd (dismissModals Samples.close_shown Samples.with_session [])) = 1%nat
  /\ count is_click (snd (dismissModals Samples.never_done Samples.with_session [])) = 0%nat
  /\ fst (dismissModals Samples.close_shown Samples.with_session [])
     = fst (dismissModals Samples.never_done Samples.with_session []).
Proof. vm_compute. repeat split; reflexivity. Qed.

(** ** What an upload returns *)

Lemma returns_uploaded_bind {B} (m : Flow B) (k : B -> Flow UploadResult) :
  (forall x, returns_uploaded (k x)) -> returns_uploaded (bind m k).
Proof.
  intros K h a. rewrite bind_run. destruct (m h) as [[x|e] t]; cbn [fst]; [|discriminate].
  apply K.
Qed.

Lemma returns_uploaded_throw (e : Error) : returns_uploaded (throw e).
Proof. intros h a. discriminate. Qed.

Lemma upload_steps_returns_uploaded (b : Browser) (this : TikTokUploader)
    (videoPath description : string) (options : UploadOptions) :
  returns_uploaded (upload_steps b this videoPath description options).
Proof.
  unfold upload_steps.
  do 6 (apply returns_uploaded_bind; intros ?).
  destruct (includes _ "login"); [apply returns_uploaded_throw|].
  do 13 (apply returns_uploaded_bind; intros ?).
  match goal with |- returns_uploaded (match ?p with _ => _ end) => destruct p as [btn|] end.
  - do 6 (apply returns_uploaded_bind; intros ?).
    match goal with |- returns_uploaded (if ?c then _ else _) => destruct c end.
    + apply returns_uploaded_bind. intros _ h a E. now injection E.
    + apply returns_uploaded_bind. intros _. apply returns_uploaded_throw.
  - apply returns_uploaded_bind. intros _. apply returns_uploaded_throw.
Qed.

Lemma upload_result (b : Browser) (host : Host) (this : TikTokUploader)
    (video description : string) (options : UploadOptions) (h : list Event) (r : UploadResult) :
  fst (upload b host this video description options h) = Returns r -> r = uploaded.
Proof.
  destruct (validateVideo host video) as [videoPath|e] eqn:V.
  2:{ now rewrite (upload_invalid b host this video description options e h V). }
  rewrite (upload_run b host this video description options videoPath h V). cbv zeta.
  destruct (rejects b _ (Launch _)); [discriminate|].
  destruct (rejects b _ (NewContext _ _)); [discriminate|].
  pose proof (upload_steps_returns_uploaded b this videoPath description options
                (h ++ prologue this videoPath options
                   ++ [Launch (headless this); NewContext 1280 1024])) as R.
  destruct (upload_steps b this videoPath description options _) as [[a|e] t]; cbn [fst snd] in *.
  - destruct (rejects b _ CloseBrowser); [discriminate|]. intros E. injection E as <-.
    now apply (R a).
  - destruct (rejects b _ CloseBrowser); discriminate.
Qed.

(** ** Batch runner *)

Lemma completions_of_app (t1 t2 : list Event) :
  completions_of (t1 ++ t2) = completions_of t1 ++ completions_of t2.
Proof. apply omap_app. Qed.

Lemma completions_of_only (t : list Event) :
  Forall (fun e => negb (is_complete e) = true) t -> completions_of t = [].
Proof.
  induction 1 as [|e t E _ IH]; [reflexivity|].
  destruct e; try discriminate; exact IH.
Qed.

Lemma only_try_finally {A} (f : Event -> bool) (m : Flow A) (fin : Flow unit) :
  only f m -> only f fin -> only f (try_finally m fin).
Proof.
  intros Hm Hf h. unfold try_finally. specialize (Hm h).
  destruct (m h) as [r t]. specialize (Hf (h ++ t)).
  destruct (fin (h ++ t)) as [[u|e] t']; cbn in *; apply Forall_app; now split.
Qed.

Section BatchRunner.

Variable b : Browser.
Variable host : Host.
Variable this : TikTokUploader.

Lemma only_upload (f : Event -> bool) (video description : string) (options : UploadOptions) :
  (forall e, negb (is_complete e) = true -> f e = true) ->
  only f (upload b host this video description options).
Proof.
  intros Hf. unfold upload.
  assert (S : forall e, in_session e = true -> f e = true).
  { intros e I. apply Hf. unfold in_session in I. rewrite !andb_true_iff in I. tauto. }
  apply only_bind; [apply only_lift|]. intros videoPath.
  do 4 (apply only_bind; [only_auto; now apply Hf|]; intros _).
  apply only_try_finally; [|apply only_call; now apply Hf].
  apply only_try_catch; [now apply only_upload_steps|].
  intros e. unfold upload_catch. destruct (is_flow_error e); apply only_throw.
Qed.

Lemma upload_no_completion (video description : string) (options : UploadOptions)
    (h : list Event) :
  completions_of (snd (upload b host this video description options h)) = [].
Proof. apply completions_of_only. now apply only_upload. Qed.

Lemma upload_from_batch (cb : bool) (videos : list VideoInfo) :
  forall i h,
    exists rs t,
      upload_from b host this cb videos i h = (Returns rs, t)
      /\ Batch b host this cb i videos h rs t.
Proof.
  induction videos as [|v rest IH]; intros i h.
  - exists [], []. split; [reflexivity | constructor].
  - cbn [upload_from].
    change {| visibility := vi_visibility v; onProgress := false |} with (request_options v).
    destruct (upload b host this (video v) (description v) (request_options v) h)
      as [o t1] eqn:U.
    pose (done := if cb then [VideoComplete i (outcome_result o)] else []).
    destruct (IH (i + 1) (h ++ t1 ++ done)) as (rs & t2 & E & B).
    exists (outcome_result o :: rs), (t1 ++ done ++ t2). split.
    + cbv beta iota zeta delta [bind try_catch when emit ret fst snd]. rewrite U.
      subst done.
      destruct o as [r|e]; destruct cb; cbn [outcome_result app] in *;
        rewrite ?app_nil_r, <- ?app_assoc in *; cbn [app] in *;
        rewrite E; rewrite ?app_nil_r; reflexivity.
    + subst done. now apply Batch_next.
Qed.

Lemma batch_length (cb : bool) i videos h rs t :
  Batch b host this cb i videos h rs t -> List.length rs = List.length videos.
Proof. induction 1; cbn; congruence. Qed.

Lemma batch_completions (cb : bool) i videos h rs t :
  Batch b host this cb i videos h rs t ->
  completions_of t = if cb then indexed_from i rs else [].
Proof.
  induction 1 as [i h|i v rest h o t1 rs t2 U B IH]; [now destruct cb|].
  rewrite !completions_of_app, IH.
  replace t1 with (snd (upload b host this (video v) (description v) (request_options v) h))
    by (now rewrite U).
  rewrite upload_no_completion. now destruct cb.
Qed.

Lemma batch_invalid (cb : bool) i videos h rs t :
  Batch b host this cb i videos h rs t ->
  forall k v e,
    videos !! k = Some v ->
    validateVideo host (video v) = Throws e ->
    rs !! k = Some (failed e).
Proof.
  induction 1 as [i h|i v rest h o t1 rs t2 U B IH]; intros k v' e L V; [discriminate|].
  destruct k as [|k].
  - injection L as <-. rewrite (upload_invalid _ _ _ _ _ _ _ _ V) in U.
    injection U as <- <-. reflexivity.
  - now apply (IH k v' e).
Qed.

Lemma batch_outcomes (cb : bool) i videos h rs t :
  Batch b host this cb i videos h rs t ->
  forall k r,
    rs !! k = Some r ->
    exists v hk,
      videos !! k = Some v
      /\ r = outcome_result
               (fst (upload b host this (video v) (description v) (request_options v) hk)).
Proof.
  induction 1 as [i h|i v rest h o t1 rs t2 U B IH]; intros k r L; [discriminate|].
  destruct k as [|k].
  - injection L as <-. exists v, h. split; [reflexivity|]. now rewrite U.
  - destruct (IH k r L) as (v' & hk & V & R). now exists v', hk.
Qed.

End BatchRunner.

(** C8: [uploadMany] never throws; it runs the requests one after the
    other in request order, each upload starting from the history the
    previous one left; it returns one outcome per request, in order: the
    result of the upload when it returned, and when it threw a failure
    outcome, with [success] false, the status [failed] and the rendering
    of the error; a request that fails validation yields such a failure
    outcome at its own index whatever the others do; and the completion
    callback, when given, is called once per request, in order, with that
    request's index and outcome. *)
Theorem uploadMany_sequential (b : Browser) (host : Host) (this : TikTokUploader)
    (videos : list VideoInfo) (onVideoComplete : bool) (h : list Event) :
  exists results t,
    uploadMany b host this videos onVideoComplete h = (Returns results, t)
    /\ Batch b host this onVideoComplete 0 videos h results t
    /\ List.length results = List.length videos
    /\ completions_of t = (if onVideoComplete then indexed_from 0 results else [])
    /\ (forall k v e,
          videos !! k = Some v ->
          validateVideo host (video v) = Throws e ->
          results !! k = Some (failed e))
    /\ (forall k r,
          results !! k = Some r ->
          exists v hk,
            videos !! k = Some v
            /\ match fst (upload b host this (video v) (description v)
                            (request_options v) hk) with
               | Returns a => r = a /\ success r = true
               | Throws e => failure_outcome r e
               end)
    /\ (forall k v e,
          videos !! k = Some v ->
          validateVideo host (video v) = Throws e ->
          exists r, results !! k = Some r /\ failure_outcome r e).
Proof.
  destruct (upload_from_batch b host this onVideoComplete videos 0 h) as (rs & t & E & B).
  exists rs, t. split; [exact E|]. split; [exact B|]. split; [|split; [|split; [|split]]].
  - exact (batch_length _ _ _ _ _ _ _ _ _ B).
  - exact (batch_completions _ _ _ _ _ _ _ _ _ B).
  - exact (batch_invalid _ _ _ _ _ _ _ _ _ B).
  - intros k r L.
    destruct (batch_outcomes _ _ _ _ _ _ _ _ _ B k r L) as (v & hk & V & R).
    exists v, hk. split; [exact V|].
    pose proof (upload_result b host this (video v) (description v) (request_options v) hk) as U.
    destruct (fst (upload b host this (video v) (description v) (request_options v) hk))
      as [a|e]; cbn [outcome_result] in R; subst r.
    + split; [reflexivity|]. now rewrite (U a eq_refl).
    + now repeat split.
  - intros k v e V F. exists (failed e).
    split; [exact (batch_invalid _ _ _ _ _ _ _ _ _ B k v e V F) | now repeat split].
Qed.

Example uploadMany_sample :
  let run := uploadMany (Samples.succeeds_at 1) Samples.host Samples.quick Samples.batch true [] in
  fst run = Returns [uploaded; failed (VideoNotFoundError "/home/me/missing.mp4"); uploaded]
  /\ completions_of (snd run)
     = [(0, uploaded); (1, failed (VideoNotFoundError "/home/me/missing.mp4")); (2, uploaded)]
  /\ count is_launch (snd run) = 2%nat
  /\ count is_close (snd run) = 2%nat.
Proof. vm_compute. repeat split; reflexivity. Qed.

(** ** Visibility *)

Lemma upload_from_ignores_visibility (b : Browser) (host : Host) (this : TikTokUploader)
    (vis : VideoInfo -> option Visibility) (cb : bool) (videos : list VideoInfo) :
  forall i h,
    upload_from b host this cb (map (with_visibility vis) videos) i h
    = upload_from b host this cb videos i h.
Proof.
  induction videos as [|v rest IH]; intros i h; [reflexivity|].
  cbn [map upload_from]. rewrite !bind_run.
  change (try_catch
            (upload b host this (video (with_visibility vis v))
                    (description (with_visibility vis v))
                    {| visibility := vi_visibility (with_visibility vis v);
                       onProgress := false |})
            (fun error => ret (failed error)) h)
    with (try_catch
            (upload b host this (video v) (description v)
                    {| visibility := vi_visibility v; onProgress := false |})
            (fun error => ret (failed error)) h).
  destruct (try_catch _ _ h) as [[r|e] t]; [|reflexivity].
  rewrite !bind_run. destruct (when cb _ _) as [[u|e] t']; [|reflexivity].
  rewrite !bind_run, IH. reflexivity.
Qed.

(** C10: two uploads that differ only in the visibility option perform the
    same calls and end in the same outcome, through the method, through
    the exported function and through the batch runner: the option is
    carried by [UploadOptions] and [VideoInfo] and never read. *)
Theorem visibility_is_ignored (b : Browser) (host : Host) (this : TikTokUploader) :
  (forall video description v1 v2 cb h,
      upload b host this video description {| visibility := v1; onProgress := cb |} h
      = upload b host this video description {| visibility := v2; onProgress := cb |} h)
  /\ (forall (R : Runtime) uoptions video description v1 v2 cb h,
        Exported.upload b host video description uoptions
                        {| visibility := v1; onProgress := cb |} h
        = Exported.upload b host video description uoptions
                          {| visibility := v2; onProgress := cb |} h)
  /\ (forall vis videos cb h,
        uploadMany b host this (map (with_visibility vis) videos) cb h
        = uploadMany b host this videos cb h).
Proof.
  split; [|split].
  - reflexivity.
  - reflexivity.
  - intros vis videos cb h. apply upload_from_ignores_visibility.
Qed.

(** ** The exit dialog *)



Section ExitWalk.

Variable b : Browser.
Variable this : TikTokUploader.






End ExitWalk.





(** ** Progress reports *)

Lemma ticks_from_bounds (T : Z) (k : nat) :
  0 < T -> forall i, 0 <= i -> Forall (fun p => 0 <= p <= 95) (ticks_from T i k).
Proof.
  intros HT. induction k as [|k IH]; intros i Hi; cbn [ticks_from]; constructor.
  - now apply tick_progress_bounds.
  - apply IH. lia.
Qed.

Lemma ticks_from_nondecreasing (T : Z) (k : nat) :
  0 < T -> forall i, nondecreasing (ticks_from T i k).
Proof.
  intros HT. induction k as [|k IH]; intros i; [exact I|].
  cbn [ticks_from]. specialize (IH (i + 1)).
  destruct k as [|k]; [exact I|].
  cbn [ticks_from nondecreasing] in *. split; [|exact IH].
  apply tick_progress_le; lia.
Qed.

Lemma progress_shape_open (T : Z) (ms rest : list Z) :
  milestones = ms ++ rest -> progress_shape T ms false.
Proof.
  intros E. exists ms, O. cbn [ticks_from app]. rewrite app_nil_r.
  split; [reflexivity|]. split; [now exists rest|].
  intros [L|D]; [lia | discriminate].
Qed.

(** What the shape gives: all values before the closing 100 lie between 0
    and 95, the tick values never decrease, and the milestones are
    complete before the first tick. *)
Lemma progress_shape_sound (T : Z) (ps : list Z) (finished : bool) :
  progress_shape T ps finished ->
  exists ms ticks,
    ps = ms ++ ticks ++ (if finished then [100] else [])
    /\ Forall (fun p => 0 <= p <= 95) (ms ++ ticks)
    /\ nondecreasing ms /\ nondecreasing ticks
    /\ (ticks <> [] \/ finished = true -> ms = milestones).
Proof.
  intros (ms & k & E & [rest M] & C).
  exists ms, (ticks_from T 0 k). split; [exact E|].
  assert (Fm : Forall (fun p => 0 <= p <= 95) ms /\ nondecreasing ms).
  { unfold milestones in M.
    destruct ms as [|a [|a0 [|a1 [|a2 [|a3 [|a4 ms]]]]]]; cbn in M; try discriminate;
      inversion M; subst; cbn; repeat split; repeat constructor; lia. }
  destruct Fm as [Fm Nm].
  assert (K : (0 < k)%nat -> 0 < T).
  { intros L. destruct C as (_ & B & _); [now left|].
    destruct (Z.ltb_spec 0 T) as [P|P]; [exact P|]. exfalso.
    assert (T / 5 <= 0) by (apply Z.div_le_upper_bound; lia). lia. }
  destruct k as [|k].
  - cbn [ticks_from]. rewrite app_nil_r. repeat split; try assumption.
    intros [N|D]; [congruence|]. now apply C; right.
  - assert (HT : 0 < T) by (apply K; lia).
    repeat split; try assumption.
    + apply Forall_app. split; [exact Fm | apply ticks_from_bounds; lia].
    + now apply ticks_from_nondecreasing.
    + intros _. apply C. left. lia.
Qed.

Section Reports.

Variable b : Browser.
Variable this : TikTokUploader.

Let T : Z := timeout this / 1000.

Lemma reports_throw (pre : list Z) (e : Error) :
  progress_shape T pre false -> reports T pre (throw e).
Proof.
  intros S h. exists false. cbn. rewrite app_nil_r. split; [exact S | discriminate].
Qed.

Lemma reports_bind {B} (pre : list Z) (m : Flow B) (k : B -> Flow UploadResult) :
  only not_progress m ->
  progress_shape T pre false ->
  (forall x, reports T pre (k x)) ->
  reports T pre (bind m k).
Proof.
  intros Q S K h. rewrite bind_run. specialize (Q h).
  destruct (m h) as [[x|e] t]; cbn [fst snd] in *.
  - rewrite progress_of_app, (progress_of_only _ Q). apply K.
  - exists false. rewrite (progress_of_only _ Q), app_nil_r.
    split; [exact S | discriminate].
Qed.

Lemma reports_emit (pre : list Z) (p : Z) (k : Flow UploadResult) :
  reports T (pre ++ [p]) k ->
  reports T pre (when true (emit (Progress p)) ;; k).
Proof.
  intros K h. rewrite bind_run. cbn [when emit fst snd].
  destruct (K (h ++ [Progress p])) as (finished & S & R).
  exists finished. rewrite progress_of_app. cbn [progress_of omap list_omap].
  change (omap _ [Progress p]) with [p]. rewrite app_assoc. now split.
Qed.

Lemma page_not_progress (e : Event) :
  not_progress e && in_session e && not_console_error e = true -> not_progress e = true.
Proof. rewrite !andb_true_iff. tauto. Qed.

Lemma reports_polling :
  reports T milestones
    (success <- waitForUploadComplete b T true ;;
     if success then
       log this "Upload successful!" ;;
       ret uploaded
     else
       when (debug this) (call b (Screenshot "debug_upload_failed.png")) ;;
       throw (UploadFailedError "Upload did not complete successfully"
                (if debug this then Some "debug_upload_failed.png" else None))).
Proof.
  intros h. rewrite bind_run. unfold waitForUploadComplete.
  destruct (poll_progress b T (Z.to_nat (T / 5)) 0 h) as (k & fin & Hk & Hp & Hr).
  assert (B : (0 < k)%nat -> Z.of_nat k <= T / 5 /\ (0 < k)%nat) by lia.
  destruct (poll b T true (Z.to_nat (T / 5)) 0 h) as [[s|e] t]; cbn [fst snd] in *.
  - destruct s.
    + destruct Hr as [(_ & -> & L)|[N _]]; [|congruence].
      exists true. split; [|reflexivity].
      rewrite progress_of_app, Hp.
      rewrite progress_of_only by (unfold log; only_auto).
      rewrite app_nil_r. exists milestones, k. split; [reflexivity|].
      split; [now exists []|]. intros _. split; [reflexivity|]. apply B. lia.
    + destruct Hr as [(R & _)|[_ ->]]; [discriminate|].
      exists false. split.
      * rewrite progress_of_app, Hp.
        rewrite progress_of_only by only_auto.
        rewrite !app_nil_r. exists milestones, k. rewrite app_nil_r.
        split; [reflexivity|]. split; [now exists []|].
        intros [L|D]; [|discriminate]. split; [reflexivity | now apply B].
      * cbv beta iota zeta delta [bind when call throw ret fst snd].
        destruct (debug this); [destruct (rejects b _ _)|]; discriminate.
  - destruct Hr as [(R & _)|[_ ->]]; [discriminate|].
    exists false. split; [|discriminate].
    rewrite Hp, app_nil_r. exists milestones, k. rewrite app_nil_r.
    split; [reflexivity|]. split; [now exists []|].
    intros [L|D]; [|discriminate]. split; [reflexivity | now apply B].
Qed.

Lemma reports_upload_steps (videoPath description : string) (options : UploadOptions) :
  onProgress options = true ->
  reports T [0] (upload_steps b this videoPath description options).
Proof.
  intros CB. unfold upload_steps. rewrite CB. fold T.
  assert (S0 : progress_shape T [0] false) by (now apply (progress_shape_open T [0] [10; 40; 60; 70])).
  assert (S1 : progress_shape T [0; 10] false) by (now apply (progress_shape_open T _ [40; 60; 70])).
  assert (S2 : progress_shape T [0; 10; 40] false) by (now apply (progress_shape_open T _ [60; 70])).
  assert (S3 : progress_shape T [0; 10; 40; 60] false) by (now apply (progress_shape_open T _ [70])).
  assert (S4 : progress_shape T milestones false) by (now apply (progress_shape_open T _ [])).
  apply reports_bind; [apply only_setupContext, page_not_progress | exact S0 |]. intros _.
  do 3 (apply reports_bind; [only_auto | exact S0 |]; intros _).
  apply reports_emit. cbn [app].
  apply reports_bind; [only_auto | exact S1 |]. intros url.
  destruct (includes (toLowerCase url) "login"); [now apply reports_throw|].
  do 3 (apply reports_bind; [only_auto | exact S1 |]; intros _).
  apply reports_emit. cbn [app].
  apply reports_bind; [apply only_dismissModals, page_not_progress | exact S2 |]. intros _.
  do 5 (apply reports_bind; [only_auto | exact S2 |]; intros _).
  apply reports_emit. cbn [app].
  apply reports_bind; [only_auto | exact S3 |]. intros _.
  apply reports_bind; [apply only_findPostButton, page_not_progress | exact S3 |].
  intros [btn|].
  - do 3 (apply reports_bind; [only_auto | exact S3 |]; intros _).
    apply reports_emit. cbn [app].
    apply reports_bind; [only_auto | exact S4 |]. intros _.
    apply reports_polling.
  - apply reports_bind; [only_auto | exact S3 |]. intros _. now apply reports_throw.
Qed.

End Reports.

Lemma progress_of_prologue (this : TikTokUploader) (videoPath : string)
    (options : UploadOptions) :
  onProgress options = true -> progress_of (prologue this videoPath options) = [0].
Proof. intros CB. unfold prologue. rewrite CB. now destruct (debug this). Qed.

(** The part of C1 that holds of every upload with a callback: the
    reported percentages are a prefix of 0, 10, 40, 60, 70, then tick
    values, then 100 exactly when polling saw the success URL; the upload
    returns only in that case. *)
Lemma upload_progress (b : Browser) (host : Host) (this : TikTokUploader)
    (video description : string) (options : UploadOptions) (h : list Event) :
  onProgress options = true ->
  let run := upload b host this video description options h in
  exists finished,
    progress_shape (timeout this / 1000) (progress_of (snd run)) finished
    /\ (forall res, fst run = Returns res -> finished = true).
Proof.
  intros CB. cbv zeta.
  destruct (validateVideo host video) as [videoPath|e] eqn:V.
  2:{ rewrite (upload_invalid b host this video description options e h V).
      exists false. split; [|discriminate].
      now apply (progress_shape_open _ [] milestones). }
  rewrite (upload_run b host this video description options videoPath h V). cbv zeta.
  set (pre := prologue this videoPath options).
  assert (P : progress_of pre = [0]) by now apply progress_of_prologue.
  assert (S0 : progress_shape (timeout this / 1000) [0] false)
    by (now apply (progress_shape_open _ [0] [10; 40; 60; 70])).
  destruct (rejects b (h ++ pre) _) as [r|].
  { exists false. cbn [fst snd]. rewrite progress_of_app, P. split; [exact S0 | discriminate]. }
  destruct (rejects b (h ++ pre ++ _) _) as [r|].
  { exists false. cbn [fst snd]. rewrite progress_of_app, P. split; [exact S0 | discriminate]. }
  set (opened := pre ++ [Launch (headless this); NewContext 1280 1024]).
  destruct (reports_upload_steps b this videoPath description options CB (h ++ opened))
    as (finished & S & R).
  assert (E : forall t, progress_of (opened ++ t ++ [CloseBrowser]) = [0] ++ progress_of t).
  { intros t. subst opened. rewrite !progress_of_app, P. cbn. now rewrite app_nil_r. }
  exists finished.
  destruct (upload_steps b this videoPath description options (h ++ opened)) as [o t].
  cbn [fst snd] in *.
  destruct (rejects b (h ++ opened ++ t) CloseBrowser); cbn [fst snd]; rewrite E;
    (split; [exact S|]); [discriminate|].
  destruct o as [res|e]; [|discriminate]. intros res' _. now apply (R res).
Qed.

Example sessionToken_sample :
  Node.sessionToken [mkCookie "sessionid" "abc" ".tiktok.com" "/"] = Samples.token.
Proof. vm_compute. reflexivity. Qed.

(** ** The two defects, for every browser *)

(** Whenever the first polling tick is reported and the timeout is 8 s or
    more, the value falls back below the milestone 70 reported before it. *)
Lemma first_tick_below_last_milestone (T : Z) : 8 <= T -> tick_progress 0 T < 70.
Proof.
  intros HT. unfold tick_progress, Math_round.
  apply Z.le_lt_trans with (m := Qfloor ((500 # 8) + (1 # 2))); [|reflexivity].
  apply Qfloor_resp_le. apply Qplus_le_compat; [|apply Qle_refl].
  eapply Qle_trans; [apply Q.le_min_r|].
  unfold Qdiv, Qmult, Qinv, Qle, inject_Z. cbn [Qnum Qden Z.add Z.mul Pos.mul].
  destruct T as [|p|p]; try lia. cbn [Qnum Qden]. lia.
Qed.

Example ticks_of_the_default_timeout :
  ticks_from 60 0 12 = [8; 17; 25; 33; 42; 50; 58; 67; 75; 83; 92; 95].
Proof. vm_compute. reflexivity. Qed.

(** Whenever the launch resolves and the creation of the context rejects,
    the upload ends with that rejection and without a close. *)
Lemma upload_without_context_never_closes (b : Browser) (host : Host)
    (this : TikTokUploader) (video description videoPath r : string)
    (options : UploadOptions) (h : list Event) :
  validateVideo host video = Returns videoPath ->
  let pre := prologue this videoPath options in
  rejects b (h ++ pre) (Launch (headless this)) = None ->
  rejects b (h ++ pre ++ [Launch (headless this)]) (NewContext 1280 1024) = Some r ->
  upload b host this video description options h
  = (Throws (Foreign r), pre ++ [Launch (headless this); NewContext 1280 1024])
  /\ count is_close (snd (upload b host this video description options h)) = O.
Proof.
  intros V pre L C.
  rewrite (upload_run b host this video description options videoPath h V).
  cbv zeta. fold pre. rewrite L, C. split; [reflexivity|].
  cbn [snd]. rewrite count_app.
  destruct (count_in_session _ (prologue_in_session this options videoPath)) as [P _].
  fold pre in P. rewrite P. reflexivity.
Qed.

(** * Further properties of the uploader *)

(** ** What an upload returns and throws *)

(** X1: validation comes before everything else.  When it throws, the
    upload throws the same error and nothing has happened: no callback, no
    browser.  When it passes, the launch of the browser is the first call,
    with only the debug line and the report of 0 before it. *)
Theorem upload_validates_first (b : Browser) (host : Host) (this : TikTokUploader)
    (video description : string) (options : UploadOptions) (h : list Event) :
  match validateVideo host video with
  | Throws e => upload b host this video description options h = (Throws e, [])
  | Returns videoPath =>
      exists t,
        snd (upload b host this video description options h)
        = prologue this videoPath options ++ Launch (headless this) :: t
  end.
Proof.
  destruct (validateVideo host video) as [videoPath|e] eqn:V.
  - rewrite (upload_run b host this video description options videoPath h V). cbv zeta.
    destruct (rejects b _ (Launch _)); [now exists []|].
    destruct (rejects b _ (NewContext _ _)); [now exists [NewContext 1280 1024]|].
    destruct (rejects b _ CloseBrowser); cbn [snd]; rewrite <- app_assoc; cbn [app]; eauto.
  - now apply upload_invalid.
Qed.

Section Throwing.

Variable b : Browser.
Variable this : TikTokUploader.














End Throwing.


Lemma performs_nil {A} (m : Flow A) : performs [] m.
Proof. intros h a _. apply sublist_nil_l. Qed.

Lemma performs_bind {A B} (l1 l2 : list Event) (m : Flow B) (k : B -> Flow A) :
  performs l1 m -> (forall x, performs l2 (k x)) -> performs (l1 ++ l2) (bind m k).
Proof.
  intros Hm Hk h a. rewrite bind_run. specialize (Hm h).
  destruct (m h) as [[x|e] t]; cbn [fst snd] in *; [|discriminate].
  intros E. apply sublist_app; [now apply (Hm x) | now apply (Hk x _ a)].
Qed.

Lemma performs_skip {A B} (l : list Event) (m : Flow B) (k : B -> Flow A) :
  (forall x, performs l (k x)) -> performs l (bind m k).
Proof. intros Hk. apply (performs_bind [] l); [apply performs_nil | exact Hk]. Qed.

Lemma performs_throw {A} (l : list Event) (e : Error) : performs l (@throw A e).
Proof. intros h a. discriminate. Qed.

Lemma performs_call (b : Browser) (ev : Event) : performs [ev] (call b ev).
Proof. intros h a _. unfold call. now destruct (rejects b h ev). Qed.

Lemma performs_setupContext (b : Browser) (this : TikTokUploader) (cs : list JSON) :
  cookies this = Some cs -> performs [AddCookies cs] (setupContext b this).
Proof.
  intros C. unfold setupContext. rewrite C.
  do 3 (apply performs_skip; intros _).
  apply (performs_bind [AddCookies cs] []); [apply performs_call | intros _; apply performs_nil].
Qed.

Lemma sublist_singleton_In {X} (x : X) (l : list X) : sublist [x] l -> In x l.
Proof.
  intros S. apply sublist_cons_l in S. destruct S as (k1 & k2 & -> & _).
  apply in_elt.
Qed.

Section Posting.

Variable b : Browser.

Lemma posts_bind {A B} (l1 l2 : list Event) (m : Flow B) (k : B -> Flow A) :
  performs l1 m -> (forall x, posts b l2 (k x)) -> posts b (l1 ++ l2) (bind m k).
Proof.
  intros Hm Hk h a. rewrite bind_run. specialize (Hm h).
  destruct (m h) as [[x|e] t]; cbn [fst snd] in *; [|discriminate].
  intros E. destruct (Hk x _ a E) as (bs & btn & t1 & t2 & T & S & L & F & C).
  exists bs, btn, (t ++ t1), t2. rewrite T.
  split; [apply app_assoc|]. split; [apply sublist_app; [now apply (Hm x) | exact S]|].
  split; [now rewrite (app_assoc h)|]. now split.
Qed.

Lemma posts_skip {A B} (l : list Event) (m : Flow B) (k : B -> Flow A) :
  (forall x, posts b l (k x)) -> posts b l (bind m k).
Proof. intros Hk. apply (posts_bind [] l); [apply performs_nil | exact Hk]. Qed.

Lemma posts_throw {A} (l : list Event) (e : Error) : posts b l (@throw A e).
Proof. intros h a. discriminate. Qed.

(** What the resolver did when it returns: it scrolled, paused, asked the
    page for its buttons, and returns the first candidate of the answer
    that qualifies. *)
Lemma findPostButton_found (h : list Event) (found : option Candidate) :
  fst (findPostButton b h) = Returns found ->
  exists bs tf,
    snd (findPostButton b h)
    = [ScrollToBottom; WaitForTimeout 500] ++ AllButtons "button" "Post" :: tf
    /\ all_buttons b (h ++ [ScrollToBottom; WaitForTimeout 500]) = Resolves bs
    /\ found = List.find qualifies bs.
Proof.
  unfold findPostButton. cbv beta iota zeta delta [bind call answer].
  destruct (rejects b h ScrollToBottom); cbv beta iota; cbn [fst snd]; [discriminate|].
  destruct (rejects b _ (WaitForTimeout 500)); cbv beta iota; cbn [fst snd]; [discriminate|].
  rewrite <- !app_assoc. cbn [app].
  destruct (all_buttons b (h ++ [ScrollToBottom; WaitForTimeout 500])) as [bs|r] eqn:L;
    cbv beta iota; cbn [fst snd]; [|discriminate].
  pose proof (find_from_find bs ((h ++ [ScrollToBottom; WaitForTimeout 500])
                                   ++ [AllButtons "button" "Post"])) as F.
  destruct (find_from bs _) as [o tf]. cbn [fst snd app] in *. subst o.
  intros E. injection E as <-. exists bs, tf. now repeat split.
Qed.

Lemma posts_findPostButton {A} (k : option Candidate -> Flow A) :
  (forall btn, performs [ClickHandle (handle btn)] (k (Some btn))) ->
  (forall h a, fst (k None h) <> Returns a) ->
  posts b [] (bind (findPostButton b) k).
Proof.
  intros Kc Kn h a. rewrite bind_run.
  pose proof (findPostButton_found h) as F.
  destruct (findPostButton b h) as [[found|e] t]; cbn [fst snd] in *; [|discriminate].
  destruct (F found eq_refl) as (bs & tf & -> & L & ->).
  destruct (List.find qualifies bs) as [btn|] eqn:Q.
  - intros E. exists bs, btn, [ScrollToBottom; WaitForTimeout 500].
    eexists. split; [rewrite <- app_assoc; reflexivity|].
    split; [apply sublist_nil_l|]. split; [exact L|]. split; [exact Q|].
    apply in_or_app. right. apply sublist_singleton_In. now apply (Kc btn _ a).
  - intros E. now destruct (Kn _ a E).
Qed.

Lemma posts_upload_steps (this : TikTokUploader) (videoPath description : string)
    (options : UploadOptions) (cs : list JSON) :
  cookies this = Some cs ->
  posts b (form_calls cs videoPath description)
    (upload_steps b this videoPath description options).
Proof.
  intros C. unfold upload_steps, form_calls.
  apply (posts_bind [AddCookies cs]
           [Goto TIKTOK_UPLOAD_URL; SetInputFiles "input[type='file']" videoPath;
            Fill desc_field description]); [now apply performs_setupContext|]. intros _.
  apply posts_skip. intros _.
  apply (posts_bind [Goto TIKTOK_UPLOAD_URL]
           [SetInputFiles "input[type='file']" videoPath; Fill desc_field description]);
    [apply performs_call|]. intros _.
  do 3 (apply posts_skip; intros ?).
  destruct (includes _ "login"); [apply posts_throw|].
  apply posts_skip. intros _.
  apply (posts_bind [SetInputFiles "input[type='file']" videoPath]
           [Fill desc_field description]); [apply performs_call|]. intros _.
  do 5 (apply posts_skip; intros _).
  apply (posts_bind [Fill desc_field description] []); [apply performs_call|]. intros _.
  do 4 (apply posts_skip; intros _).
  apply posts_findPostButton.
  - intros btn. do 2 (apply performs_skip; intros _).
    apply (performs_bind [ClickHandle (handle btn)] []); [apply performs_call|].
    intros _. apply performs_nil.
  - intros h a. rewrite bind_run. destruct (when _ _ _) as [[[]|e] t]; discriminate.
Qed.

End Posting.

Lemma saw_success_extends (b : Browser) : extends (saw_success b).
Proof.
  split.
  - intros h t1 t2 (t0 & t3 & -> & U). exists (t1 ++ t0), t3.
    rewrite <- !app_assoc in *. now split.
  - intros h t1 t2 (t0 & t3 & -> & U). exists t0, (t3 ++ t2).
    rewrite <- !app_assoc. now split.
Qed.

Lemma reaches_later {A B} (P : list Event -> list Event -> Prop) (m : Flow B) (k : B -> Flow A) :
  extends P -> (forall x, reaches P (k x)) -> reaches P (bind m k).
Proof.
  intros [E _] Hk h a. rewrite bind_run.
  destruct (m h) as [[x|e] t]; cbn [fst snd]; [|discriminate].
  intros R. apply E. now apply (Hk x _ a).
Qed.

Lemma reaches_throw {A} (P : list Event -> list Event -> Prop) (e : Error) :
  reaches P (@throw A e).
Proof. intros h a. discriminate. Qed.

(** The polling loop returns [true] only after reading a success URL. *)
Lemma poll_true (b : Browser) (T : Z) (cb : bool) (left : nat) (i : Z) (h : list Event) :
  fst (poll b T cb left i h) = Returns true -> saw_success b h (snd (poll b T cb left i h)).
Proof.
  revert i h. induction left as [|left IH]; intros i h; [discriminate|].
  rewrite poll_step.
  destruct (rejects b h (WaitForTimeout 5000)); [discriminate|]. cbv zeta.
  destruct (is_success_url _) eqn:U.
  - intros _. cbn [snd]. exists [], ((if cb then [Progress (tick_progress i T)] else [])
                                       ++ (if cb then [Progress 100] else [])).
    split; [|exact U]. unfold tick_events. cbn [app]. now destruct cb.
  - assert (G : fst (poll b T cb left (i + 1) (h ++ tick_events T cb i ++ [IsVisible exit_modal 500]))
                = Returns true ->
                saw_success b h
                  (tick_events T cb i ++ [IsVisible exit_modal 500]
                     ++ snd (poll b T cb left (i + 1)
                               (h ++ tick_events T cb i ++ [IsVisible exit_modal 500])))).
    { intros R. apply IH in R. rewrite app_assoc.
      apply (proj1 (saw_success_extends b)). exact R. }
    destruct (is_visible b _ exit_modal 500) as [[|]|r]; cbn [fst snd]; try exact G.
    discriminate.
Qed.

Lemma reaches_upload_steps (b : Browser) (this : TikTokUploader)
    (videoPath description : string) (options : UploadOptions) :
  reaches (saw_success b) (upload_steps b this videoPath description options).
Proof.
  pose proof (saw_success_extends b) as X.
  unfold upload_steps.
  do 6 (apply reaches_later; [exact X|]; intros ?).
  destruct (includes _ "login"); [apply reaches_throw|].
  do 13 (apply reaches_later; [exact X|]; intros ?).
  match goal with |- reaches _ (match ?p with _ => _ end) => destruct p as [btn|] end.
  2:{ apply reaches_later; [exact X|]. intros _. apply reaches_throw. }
  do 5 (apply reaches_later; [exact X|]; intros ?).
  intros h a. rewrite bind_run. unfold waitForUploadComplete.
  pose proof (poll_true b (timeout this / 1000) (onProgress options)
                (Z.to_nat (timeout this / 1000 / 5)) 0 h) as P.
  destruct (poll _ _ _ _ _ _) as [[[|]|e] t]; cbn [fst snd] in *; try discriminate.
  - intros _. apply (proj2 X). now apply P.
  - rewrite bind_run. destruct (when _ _ _) as [[[]|e] t']; discriminate.
Qed.

(** X3: what a returned upload has done.  The file was validated and the
    session gave cookies; between the creation of the context and the
    close, which is the last call, the run has installed these cookies,
    opened the upload page, handed over the validated path and typed the
    description, in this order; it has then asked the page for its
    buttons, and clicked the first candidate of the page's answer that has
    the exact label and the width asked for; and the page was read at a
    success URL right after a polling wait. *)
Theorem upload_returns_only_after_posting (b : Browser) (host : Host) (this : TikTokUploader)
    (video description : string) (options : UploadOptions) (h : list Event)
    (r : UploadResult) :
  fst (upload b host this video description options h) = Returns r ->
  exists videoPath cs bs btn t1 t2,
    let opened :=
      prologue this videoPath options ++ [Launch (headless this); NewContext 1280 1024] in
    validateVideo host video = Returns videoPath
    /\ cookies this = Some cs
    /\ snd (upload b host this video description options h)
       = opened ++ (t1 ++ AllButtons "button" "Post" :: t2) ++ [CloseBrowser]
    /\ sublist (form_calls cs videoPath description) t1
    /\ all_buttons b (h ++ opened ++ t1) = Resolves bs
    /\ List.find qualifies bs = Some btn
    /\ exact_label btn /\ wide_enough btn
    /\ In (ClickHandle (handle btn)) t2
    /\ saw_success b (h ++ opened) (t1 ++ AllButtons "button" "Post" :: t2).
Proof.
  destruct (validateVideo host video) as [videoPath|e] eqn:V.
  2:{ now rewrite (upload_invalid b host this video description options e h V). }
  rewrite (upload_run b host this video description options videoPath h V). cbv zeta.
  set (opened := prologue this videoPath options ++ [Launch (headless this); NewContext 1280 1024]).
  destruct (rejects b _ (Launch _)); [discriminate|].
  destruct (rejects b _ (NewContext _ _)); [discriminate|].
  destruct (cookies this) as [cs|] eqn:C.
  2:{ rewrite (upload_steps_no_cookies b this description options videoPath _ C). cbn [fst snd].
      destruct (rejects b _ CloseBrowser); discriminate. }
  pose proof (posts_upload_steps b this videoPath description options cs C (h ++ opened)) as S.
  pose proof (reaches_upload_steps b this videoPath description options (h ++ opened)) as U.
  destruct (upload_steps b this videoPath description options (h ++ opened)) as [[a|e] t];
    cbn [fst snd] in *.
  2:{ destruct (rejects b _ CloseBrowser); discriminate. }
  destruct (rejects b _ CloseBrowser); [discriminate|]. intros _.
  destruct (S a eq_refl) as (bs & btn & t1 & t2 & -> & L & B & F & K).
  destruct (proj1 (qualifies_spec btn)) as [QL QW].
  { apply List.find_some in F. tauto. }
  exists videoPath, cs, bs, btn, t1, t2. cbn [snd].
  split; [reflexivity|]. split; [reflexivity|]. split; [reflexivity|].
  split; [exact L|]. split; [now rewrite app_assoc|]. split; [exact F|].
  split; [exact QL|]. split; [exact QW|]. split; [exact K|]. now apply (U a).
Qed.

Lemma upload_returns_only_after_posting_witness :
  let run := upload (Samples.succeeds_at 2) Samples.host Samples.quick "clip.MP4" "hello"
               Samples.with_callback [] in
  fst run = Returns uploaded
  /\ exists videoPath cs bs btn t1 t2,
       let opened :=
         prologue Samples.quick videoPath Samples.with_callback
           ++ [Launch (headless Samples.quick); NewContext 1280 1024] in
       validateVideo Samples.host "clip.MP4" = Returns videoPath
       /\ cookies Samples.quick = Some cs
       /\ snd run = opened ++ (t1 ++ AllButtons "button" "Post" :: t2) ++ [CloseBrowser]
       /\ sublist (form_calls cs videoPath "hello") t1
       /\ all_buttons (Samples.succeeds_at 2) ([] ++ opened ++ t1) = Resolves bs
       /\ List.find qualifies bs = Some btn
       /\ exact_label btn /\ wide_enough btn
       /\ In (ClickHandle (handle btn)) t2
       /\ saw_success (Samples.succeeds_at 2) ([] ++ opened)
            (t1 ++ AllButtons "button" "Post" :: t2).
Proof.
  split; [vm_compute; reflexivity|].
  apply (upload_returns_only_after_posting _ _ _ _ _ _ _ uploaded). vm_compute. reflexivity.
Defined.

(** ** The time spent polling *)

Lemma count_only_no_tick (t : list Event) :
  Forall (fun e => no_tick e = true) t -> count is_tick t = O.
Proof.
  unfold count, no_tick. induction 1 as [|e t E _ IH]; [reflexivity|].
  apply negb_true_iff in E. cbn [List.filter]. now rewrite E.
Qed.

Lemma ticks_quiet {A} (n : nat) (m : Flow A) : only no_tick m -> ticks_at_most n m.
Proof. intros Q h. rewrite (count_only_no_tick _ (Q h)). lia. Qed.

Lemma ticks_bind {A B} (n : nat) (m : Flow B) (k : B -> Flow A) :
  only no_tick m -> (forall x, ticks_at_most n (k x)) -> ticks_at_most n (bind m k).
Proof.
  intros Q K h. rewrite bind_run. specialize (Q h).
  destruct (m h) as [[x|e] t]; cbn [fst snd] in *.
  - rewrite count_app, (count_only_no_tick _ Q). apply K.
  - rewrite (count_only_no_tick _ Q). lia.
Qed.

Lemma ticks_bind_last {A B} (n : nat) (m : Flow B) (k : B -> Flow A) :
  ticks_at_most n m -> (forall x, only no_tick (k x)) -> ticks_at_most n (bind m k).
Proof.
  intros M K h. rewrite bind_run. specialize (M h).
  destruct (m h) as [[x|e] t]; cbn [fst snd] in *; [|exact M].
  rewrite count_app, (count_only_no_tick _ (K x _)). lia.
Qed.

Lemma ticks_poll (b : Browser) (T : Z) (cb : bool) (left : nat) (i : Z) :
  ticks_at_most left (poll b T cb left i).
Proof.
  revert i. induction left as [|left IH]; intros i h; [cbn; lia|].
  rewrite poll_step.
  assert (Tk : count is_tick (tick_events T cb i) = 1%nat) by now destruct cb.
  destruct (rejects b h (WaitForTimeout 5000)); [cbn; lia|]. cbv zeta.
  destruct (is_success_url _).
  { cbn [snd]. rewrite count_app, Tk. destruct cb; cbn; lia. }
  specialize (IH (i + 1) (h ++ tick_events T cb i ++ [IsVisible exit_modal 500])).
  destruct (is_visible b _ exit_modal 500) as [[|]|]; cbn [snd];
    rewrite count_app, Tk; cbn [app]; unfold count in *; cbn [List.filter is_tick length] in *; lia.
Qed.

Section NoTick.

Variable b : Browser.
Variable this : TikTokUploader.

Lemma no_tick_setupContext : only no_tick (setupContext b this).
Proof. unfold setupContext. destruct (cookies this); only_auto. Qed.

Lemma no_tick_dismissModals : only no_tick (dismissModals b this).
Proof.
  unfold dismissModals. induction modalButtons as [|l ls IH]; cbn [dismiss_from].
  - apply only_ret.
  - apply only_bind.
    + unfold dismiss_one. only_auto.
    + intros r. destruct r; [apply only_ret | exact IH].
Qed.

Lemma no_tick_find_from (buttons : list Candidate) : only no_tick (find_from buttons).
Proof.
  induction buttons as [|c cs IH]; cbn [find_from].
  - apply only_ret.
  - apply only_bind.
    + unfold inspect. apply only_try_catch; [|intros ?; apply only_ret].
      apply only_bind; [now apply only_answer|]. intros content.
      apply only_bind; [now apply only_answer|]. intros box.
      destruct box; apply only_ret.
    + intros r. destruct r; [apply only_ret | exact IH].
Qed.

Lemma no_tick_findPostButton : only no_tick (findPostButton b).
Proof.
  unfold findPostButton.
  do 2 (apply only_bind; [now apply only_call|]; intros _).
  apply only_bind; [now apply only_answer|]. intros buttons.
  apply no_tick_find_from.
Qed.

Lemma ticks_upload_steps (videoPath description : string) (options : UploadOptions) :
  ticks_at_most (Z.to_nat (timeout this / 1000 / 5))
    (upload_steps b this videoPath description options).
Proof.
  unfold upload_steps.
  apply ticks_bind; [apply no_tick_setupContext|]. intros _.
  do 4 (apply ticks_bind; [only_auto|]; intros _).
  apply ticks_bind; [only_auto|]. intros url.
  destruct (includes (toLowerCase url) "login"); [apply ticks_quiet, only_throw|].
  do 4 (apply ticks_bind; [only_auto|]; intros _).
  apply ticks_bind; [apply no_tick_dismissModals|]. intros _.
  do 7 (apply ticks_bind; [only_auto|]; intros _).
  apply ticks_bind; [apply no_tick_findPostButton|]. intros [btn|].
  - do 5 (apply ticks_bind; [only_auto|]; intros _).
    apply ticks_bind_last; [apply ticks_poll|]. intros [|]; only_auto.
  - apply ticks_quiet. only_auto.
Qed.

End NoTick.

Lemma no_tick_prologue (this : TikTokUploader) (videoPath : string) (options : UploadOptions) :
  count is_tick (prologue this videoPath options) = O.
Proof. unfold prologue. now destruct (debug this), (onProgress options). Qed.

Lemma ticks_upload (b : Browser) (host : Host) (this : TikTokUploader)
    (video description : string) (options : UploadOptions) (h : list Event) :
  (count is_tick (snd (upload b host this video description options h))
   <= Z.to_nat (timeout this / 1000 / 5))%nat.
Proof.
  destruct (validateVideo host video) as [videoPath|e] eqn:V.
  2:{ rewrite (upload_invalid b host this video description options e h V). cbn. lia. }
  rewrite (upload_run b host this video description options videoPath h V). cbv zeta.
  pose proof (no_tick_prologue this videoPath options) as P.
  destruct (rejects b _ (Launch _)); [cbn [snd]; rewrite count_app, P; cbn; lia|].
  destruct (rejects b _ (NewContext _ _)); [cbn [snd]; rewrite count_app, P; cbn; lia|].
  pose proof (ticks_upload_steps b this videoPath description options
                (h ++ prologue this videoPath options
                   ++ [Launch (headless this); NewContext 1280 1024])) as S.
  destruct (rejects b _ CloseBrowser); cbn [snd];
    rewrite !count_app, P;
    change (count is_tick [CloseBrowser]) with O;
    change (count is_tick [Launch (headless this); NewContext 1280 1024]) with O; lia.
Qed.

(** X4: the polling waits of an upload, five seconds each, never add up
    to more than the timeout of the uploader, and no other wait of an
    upload is five seconds long. *)
Theorem polling_within_timeout (b : Browser) (host : Host) (this : TikTokUploader)
    (video description : string) (options : UploadOptions) (h : list Event) :
  5000 * Z.of_nat (count is_tick (snd (upload b host this video description options h)))
  <= Z.max 0 (timeout this).
Proof.
  pose proof (ticks_upload b host this video description options h) as T.
  zify. Z.to_euclidean_division_equations. lia.
Qed.

Lemma saw_success_tick (b : Browser) (h t : list Event) :
  saw_success b h t -> (1 <= count is_tick t)%nat.
Proof. intros (t0 & t1 & -> & _). rewrite count_app. cbn. lia. Qed.

(** X5: an uploader whose timeout is under five seconds never returns
    from an upload: the polling loop has no iteration, so every run that
    gets as far as the click ends in an error. *)
Theorem upload_never_returns_under_five_seconds (b : Browser) (host : Host)
    (this : TikTokUploader) (video description : string) (options : UploadOptions)
    (h : list Event) :
  timeout this < 5000 ->
  exists e, fst (upload b host this video description options h) = Throws e.
Proof.
  intros Short.
  destruct (fst (upload b host this video description options h)) as [r|e] eqn:R; [|now exists e].
  exfalso.
  assert (Z0 : Z.to_nat (timeout this / 1000 / 5) = O).
  { zify. Z.to_euclidean_division_equations. lia. }
  destruct (validateVideo host video) as [videoPath|e] eqn:V.
  2:{ now rewrite (upload_invalid b host this video description options e h V) in R. }
  rewrite (upload_run b host this video description options videoPath h V) in R. cbv zeta in R.
  destruct (rejects b _ (Launch _)); [discriminate|].
  destruct (rejects b _ (NewContext _ _)); [discriminate|].
  set (h' := h ++ prologue this videoPath options
                ++ [Launch (headless this); NewContext 1280 1024]) in R.
  pose proof (ticks_upload_steps b this videoPath description options h') as T.
  pose proof (reaches_upload_steps b this videoPath description options h') as U.
  rewrite Z0 in T.
  destruct (upload_steps b this videoPath description options h') as [[a|e] t]; cbn [fst snd] in *.
  - pose proof (saw_success_tick _ _ _ (U a eq_refl)) as K. lia.
  - revert R. destruct (rejects b _ CloseBrowser); discriminate.
Qed.

Lemma upload_never_returns_under_five_seconds_witness :
  exists e,
    fst (upload (Samples.succeeds_at 0) Samples.host
           (@new_TikTokUploader Node.runtime Samples.host
              (mkUploaderOptions (Some "3f9a0c") None (Some 4999) None))
           "clip.MP4" "hello" Samples.with_callback []) = Throws e.
Proof.
  apply upload_never_returns_under_five_seconds. vm_compute. reflexivity.
Defined.

(** ** The reports of an upload *)

Lemma ticks_from_length (T : Z) (k : nat) : forall i, length (ticks_from T i k) = k.
Proof. induction k as [|k IH]; intros i; cbn [ticks_from length]; [reflexivity | now rewrite IH]. Qed.

(** X6: the percentages a callback receives from one upload are, in this
    order: a prefix of 0, 10, 40, 60, 70; then, only after all five, one
    value per polling tick, each between 0 and 95 and never below the
    tick before it, the ticks spanning no more than the timeout; then 100
    at most once, as the last value.  An upload that returns has reported
    the 100. *)
Theorem upload_reports (b : Browser) (host : Host) (this : TikTokUploader)
    (video description : string) (options : UploadOptions) (h : list Event) :
  onProgress options = true ->
  let run := upload b host this video description options h in
  exists (ms ticks : list Z) (finished : bool),
    progress_of (snd run) = ms ++ ticks ++ (if finished then [100] else [])
    /\ (exists rest, milestones = ms ++ rest)
    /\ (ticks <> [] \/ finished = true -> ms = milestones /\ ticks <> [])
    /\ Forall (fun p => 0 <= p <= 95) ticks
    /\ nondecreasing ticks
    /\ 5000 * Z.of_nat (length ticks) <= Z.max 0 (timeout this)
    /\ (forall res, fst run = Returns res -> finished = true).
Proof.
  intros CB run.
  destruct (upload_progress b host this video description options h CB)
    as (finished & (ms & k & E & M & C) & R).
  fold run in E, R.
  exists ms, (ticks_from (timeout this / 1000) 0 k), finished.
  assert (N : ticks_from (timeout this / 1000) 0 k <> [] -> (0 < k)%nat).
  { destruct k; [now intros []|lia]. }
  assert (P : (0 < k)%nat -> ticks_from (timeout this / 1000) 0 k <> []).
  { destruct k; [lia|discriminate]. }
  assert (K : (0 < k)%nat -> Z.of_nat k <= timeout this / 1000 / 5) by (intros L; apply C; now left).
  repeat split; try assumption.
  - apply C. destruct H as [H|H]; [left; now apply N | now right].
  - apply P, C. destruct H as [H|H]; [left; now apply N | now right].
  - destruct k as [|k]; [constructor|]. apply ticks_from_bounds; [|lia].
    specialize (K ltac:(lia)). zify. Z.to_euclidean_division_equations. lia.
  - destruct k as [|k]; [exact I|]. apply ticks_from_nondecreasing.
    specialize (K ltac:(lia)). zify. Z.to_euclidean_division_equations. lia.
  - rewrite ticks_from_length. destruct k as [|k]; [cbn; lia|].
    specialize (K ltac:(lia)). zify. Z.to_euclidean_division_equations. lia.
Qed.

Lemma upload_reports_witness :
  let run := upload (Samples.succeeds_at 2) Samples.host Samples.quick "clip.MP4" "hello"
               Samples.with_callback [] in
  progress_of (snd run) = [0; 10; 40; 60; 70; 50; 95; 100]
  /\ exists (ms ticks : list Z) (finished : bool),
    progress_of (snd run) = ms ++ ticks ++ (if finished then [100] else [])
    /\ (exists rest, milestones = ms ++ rest)
    /\ (ticks <> [] \/ finished = true -> ms = milestones /\ ticks <> [])
    /\ Forall (fun p => 0 <= p <= 95) ticks
    /\ nondecreasing ticks
    /\ 5000 * Z.of_nat (length ticks) <= Z.max 0 (timeout Samples.quick)
    /\ (forall res, fst run = Returns res -> finished = true).
Proof.
  split; [vm_compute; reflexivity|].
  apply (upload_reports (Samples.succeeds_at 2) Samples.host Samples.quick "clip.MP4" "hello"
           Samples.with_callback []).
  reflexivity.
Defined.

(** ** Browsers of a batch *)

Section Browsers.

Variable b : Browser.
Variable host : Host.
Variable this : TikTokUploader.

Lemma upload_browsers (video description : string) (options : UploadOptions) (h : list Event) :
  let t := snd (upload b host this video description options h) in
  count is_launch t
  = (match validateVideo host video with Returns _ => 1 | Throws _ => 0 end)%nat
  /\ (count is_close t <= count is_launch t)%nat
  /\ (always_starts b -> count is_close t = count is_launch t).
Proof.
  cbv zeta. destruct (validateVideo host video) as [videoPath|e] eqn:V.
  2:{ rewrite (upload_invalid b host this video description options e h V). cbn.
      repeat split; lia. }
  rewrite (upload_run b host this video description options videoPath h V). cbv zeta.
  set (pre := prologue this videoPath options).
  destruct (count_in_session _ (prologue_in_session this options videoPath)) as [P1 P2].
  fold pre in P1, P2.
  destruct (rejects b (h ++ pre) _) as [r|] eqn:L.
  { cbn [snd]. rewrite !count_app, P1, P2. cbn. repeat split; try lia.
    intros S. destruct (S (h ++ pre)) as [S1 _]. rewrite S1 in L. discriminate. }
  destruct (rejects b (h ++ pre ++ _) _) as [r|] eqn:C.
  { cbn [snd]. rewrite !count_app, P1, P2. cbn. repeat split; try lia.
    intros S. destruct (S (h ++ pre ++ [Launch (headless this)])) as [_ S2].
    rewrite S2 in C. discriminate. }
  pose proof (only_upload_steps in_session (fun e I => I) b this videoPath description options
                (h ++ pre ++ [Launch (headless this); NewContext 1280 1024])) as M.
  destruct (count_in_session _ M) as [M1 M2].
  assert (E : forall o o',
             snd (A:=Outcome UploadResult)
               (match rejects b (h ++ (pre ++ [Launch (headless this); NewContext 1280 1024])
                                   ++ snd (upload_steps b this videoPath description options
                                             (h ++ pre ++ [Launch (headless this); NewContext 1280 1024])))
                        CloseBrowser with
                | None => (o, (pre ++ [Launch (headless this); NewContext 1280 1024])
                              ++ snd (upload_steps b this videoPath description options
                                        (h ++ pre ++ [Launch (headless this); NewContext 1280 1024]))
                              ++ [CloseBrowser])
                | Some r => (o' r, (pre ++ [Launch (headless this); NewContext 1280 1024])
                              ++ snd (upload_steps b this videoPath description options
                                        (h ++ pre ++ [Launch (headless this); NewContext 1280 1024]))
                              ++ [CloseBrowser])
                end)
             = (pre ++ [Launch (headless this); NewContext 1280 1024])
                 ++ snd (upload_steps b this videoPath description options
                           (h ++ pre ++ [Launch (headless this); NewContext 1280 1024]))
                 ++ [CloseBrowser]).
  { intros o o'. now destruct (rejects b _ CloseBrowser). }
  rewrite E. rewrite !count_app, P1, P2, M1, M2. cbn. repeat split; lia.
Qed.

Lemma batch_browsers (cb : bool) i videos h rs t :
  Batch b host this cb i videos h rs t ->
  count is_launch t = length (List.filter (passes_validation host) videos)
  /\ (count is_close t <= count is_launch t)%nat
  /\ (always_starts b -> count is_close t = count is_launch t).
Proof.
  induction 1 as [i h|i v rest h o t1 rs t2 U B (IH1 & IH2 & IH3)]; [cbn; repeat split; lia|].
  destruct (upload_browsers (video v) (description v) (request_options v) h) as (U1 & U2 & U3).
  rewrite U in U1, U2, U3. cbn [snd] in U1, U2, U3.
  assert (D : forall f, (f = is_launch \/ f = is_close) ->
                count f (if cb then [VideoComplete i (outcome_result o)] else []) = O).
  { intros f [-> | ->]; now destruct cb. }
  rewrite !count_app, !D by tauto.
  cbn [List.filter]. unfold passes_validation at 1.
  destruct (validateVideo host (video v)); cbn [length]; repeat split; try lia;
    intros S; specialize (IH3 S); specialize (U3 S); lia.
Qed.

End Browsers.

(** X7: a batch starts one browser for each request whose file passes
    validation, none for the others, and never closes more browsers than
    it started. *)
Theorem uploadMany_one_browser_per_valid_request (b : Browser) (host : Host)
    (this : TikTokUploader) (videos : list VideoInfo) (onVideoComplete : bool)
    (h : list Event) :
  let t := snd (uploadMany b host this videos onVideoComplete h) in
  count is_launch t = length (List.filter (passes_validation host) videos)
  /\ (count is_close t <= count is_launch t)%nat.
Proof.
  cbv zeta. unfold uploadMany.
  destruct (upload_from_batch b host this onVideoComplete videos 0 h) as (rs & t & E & B).
  rewrite E. cbn [snd].
  destruct (batch_browsers b host this _ _ _ _ _ _ B) as (L & C & _). now split.
Qed.

(** X8: when neither the launch nor the creation of the context is ever
    rejected, a batch has closed every browser it started by the time it
    returns, whatever else failed in between. *)
Theorem uploadMany_closes_every_browser (b : Browser) (host : Host)
    (this : TikTokUploader) (videos : list VideoInfo) (onVideoComplete : bool)
    (h : list Event) :
  always_starts b ->
  let t := snd (uploadMany b host this videos onVideoComplete h) in
  count is_close t = count is_launch t.
Proof.
  intros S. cbv zeta. unfold uploadMany.
  destruct (upload_from_batch b host this onVideoComplete videos 0 h) as (rs & t & E & B).
  rewrite E. cbn [snd].
  destruct (batch_browsers b host this _ _ _ _ _ _ B) as (_ & _ & C). now apply C.
Qed.

Lemma uploadMany_closes_every_browser_witness :
  let t := snd (uploadMany Samples.exit_dialog Samples.host Samples.quick Samples.batch true []) in
  count is_launch t = 2%nat /\ count is_close t = count is_launch t.
Proof.
  split; [vm_compute; reflexivity|].
  apply (uploadMany_closes_every_browser Samples.exit_dialog Samples.host Samples.quick
           Samples.batch true []).
  intros h. split; reflexivity.
Defined.

(** ** The modal scan, for every page *)

Section Scan.

Variable b : Browser.
Variable this : TikTokUploader.

Lemma dismissed_log_no_check (l : string) : List.filter is_check (dismissed_log this l) = [].
Proof. unfold dismissed_log. now destruct (debug this). Qed.

Lemma is_dismissal_own (l : string) :
  is_dismissal [l] (label_check l) = true /\ is_dismissal [l] (Click (label_selector l)) = true.
Proof. cbn. now rewrite String.eqb_refl. Qed.

Lemma is_dismissal_mono_l (l : string) (asked : list string) (e : Event) :
  is_dismissal [l] e = true -> is_dismissal (l :: asked) e = true.
Proof.
  destruct e; cbn [is_dismissal map existsb]; try (intros E; exact E);
    rewrite ?andb_true_iff, !orb_true_iff; intuition discriminate.
Qed.

Lemma is_dismissal_mono_r (l : string) (asked : list string) (e : Event) :
  is_dismissal asked e = true -> is_dismissal (l :: asked) e = true.
Proof.
  destruct e; cbn [is_dismissal map existsb]; try (intros E; exact E);
    rewrite ?andb_true_iff, !orb_true_iff; tauto.
Qed.

Lemma dismiss_from_scan (labels : list string) :
  forall h,
    exists asked rest,
      labels = asked ++ rest
      /\ fst (dismiss_from b this labels h) = Returns tt
      /\ List.filter is_check (snd (dismiss_from b this labels h)) = map label_check asked
      /\ Forall (fun e => is_dismissal asked e = true) (snd (dismiss_from b this labels h))
      /\ (rest <> [] ->
          exists t0 l,
            snd (dismiss_from b this labels h)
            = t0 ++ [label_check l; Click (label_selector l); WaitForTimeout 500]
                 ++ dismissed_log this l
            /\ List.last asked "" = l /\ asked <> []
            /\ shown b (h ++ t0) l).
Proof.
  induction labels as [|l ls IH]; intros h.
  { exists [], []. repeat split; [constructor | now intros []]. }
  cbn [dismiss_from]. rewrite bind_run, dismiss_one_run.
  assert (Go : forall t1,
             List.filter is_check t1 = [label_check l] ->
             Forall (fun e => is_dismissal [l] e = true) t1 ->
             exists asked rest,
               l :: ls = asked ++ rest
               /\ fst (dismiss_from b this ls (h ++ t1)) = Returns tt
               /\ List.filter is_check (t1 ++ snd (dismiss_from b this ls (h ++ t1)))
                  = map label_check asked
               /\ Forall (fun e => is_dismissal asked e = true)
                         (t1 ++ snd (dismiss_from b this ls (h ++ t1)))
               /\ (rest <> [] ->
                   exists t0 l',
                     t1 ++ snd (dismiss_from b this ls (h ++ t1))
                     = t0 ++ [label_check l'; Click (label_selector l'); WaitForTimeout 500]
                          ++ dismissed_log this l'
                     /\ List.last asked "" = l' /\ asked <> []
                     /\ shown b (h ++ t0) l')).
  { intros t1 F A. destruct (IH (h ++ t1)) as (asked & rest & E & R & C & Al & D).
    exists (l :: asked), rest. split; [now rewrite E|]. split; [exact R|].
    split; [rewrite List.filter_app, F, C; reflexivity|].
    split.
    { apply Forall_app. split.
      - eapply Forall_impl; [exact A|]. intros e. apply is_dismissal_mono_l.
      - eapply Forall_impl; [exact Al|]. intros e. apply is_dismissal_mono_r. }
    intros N. destruct (D N) as (t0 & l' & T & La & Ne & S).
    exists (t1 ++ t0), l'. rewrite T, <- !app_assoc. split; [reflexivity|].
    split; [|split; [discriminate | now rewrite app_assoc]].
    destruct asked as [|a asked]; [congruence | exact La]. }
  destruct (is_visible b h (label_selector l) 1000) as [[|]|r] eqn:V;
    cbn [fst snd]; try (apply Go; [reflexivity | now repeat constructor; apply is_dismissal_own]).
  destruct (rejects b _ (Click _)); cbn [fst snd];
    [apply Go; [reflexivity | now repeat constructor; apply is_dismissal_own]|].
  destruct (rejects b _ (WaitForTimeout 500)); cbn [fst snd];
    [apply Go; [reflexivity | now repeat constructor; apply is_dismissal_own]|].
  exists [l], ls. split; [reflexivity|]. split; [reflexivity|].
  rewrite app_nil_r. split; [|split].
  - cbn [app List.filter is_check label_check]. now rewrite dismissed_log_no_check.
  - repeat constructor; try apply is_dismissal_own.
    unfold dismissed_log. destruct (debug this); now repeat constructor.
  - intros _. exists [], l. rewrite app_nil_r. repeat split; [discriminate | exact V].
Qed.

End Scan.

(** X9: the modal scan never throws, whatever the page does.  It asks
    for the labels of the list in order, each at most once, and clicks
    nothing it has not asked for; when it stops before the end of the list,
    the last label it asked for was reported visible and the run ends with
    its click, the pause and the debug line. *)
Theorem dismissModals_never_throws (b : Browser) (this : TikTokUploader) (h : list Event) :
  let run := dismissModals b this h in
  exists asked rest,
    modalButtons = asked ++ rest
    /\ fst run = Returns tt
    /\ List.filter is_check (snd run) = map label_check asked
    /\ Forall (fun e => is_dismissal asked e = true) (snd run)
    /\ (rest <> [] ->
        exists t0 l,
          snd run = t0 ++ [label_check l; Click (label_selector l); WaitForTimeout 500]
                       ++ dismissed_log this l
          /\ List.last asked "" = l /\ asked <> []
          /\ shown b (h ++ t0) l).
Proof.
  cbv zeta. unfold dismissModals.
  destruct (dismiss_from_scan b this modalButtons h) as (asked & rest & E & R & C & A & D).
  exists asked, rest. repeat split; assumption.
Qed.
(** ** Runs on a page that resolves every call *)

Lemma yields_bind {A B} (Q : A -> Prop) (R : B -> Prop) (m : Flow A) (k : A -> Flow B) :
  yields Q m -> (forall x, Q x -> yields R (k x)) -> yields R (bind m k).
Proof.
  intros M K h. rewrite bind_run. destruct (M h) as (a & E & Qa).
  destruct (m h) as [o t]. cbn [fst] in E. subst o. cbn [fst]. now apply K.
Qed.

Lemma yields_ret {A} (Q : A -> Prop) (a : A) : Q a -> yields Q (ret a).
Proof. intros Qa h. now exists a. Qed.

Lemma yields_any {A B} (R : B -> Prop) (m : Flow A) (k : A -> Flow B) :
  yields (fun _ => True) m -> (forall x, yields R (k x)) -> yields R (bind m k).
Proof. intros M K. apply (yields_bind (fun _ => True)); auto. Qed.

Lemma yields_when (c : bool) (ev : Event) : yields (fun _ => True) (when c (emit ev)).
Proof. intros h. exists tt. now destruct c. Qed.

Section Resolving.

Variable b : Browser.
Variable this : TikTokUploader.
Hypothesis resolves : never_rejects b.

Lemma call_resolves (ev : Event) (h : list Event) : call b ev h = (Returns tt, [ev]).
Proof. unfold call. now rewrite resolves. Qed.

Lemma yields_call (ev : Event) : yields (fun _ => True) (call b ev).
Proof. intros h. exists tt. now rewrite call_resolves. Qed.

Lemma yields_log (text : string) : yields (fun _ => True) (log this text).
Proof. apply yields_when. Qed.

Lemma yields_setupContext (cs : list JSON) :
  cookies this = Some cs -> yields (fun _ => True) (setupContext b this).
Proof.
  intros C. unfold setupContext. rewrite C.
  do 4 (apply yields_any; [apply yields_call|]; intros _). apply yields_call.
Qed.

Lemma yields_dismissModals : yields (fun _ => True) (dismissModals b this).
Proof.
  intros h. exists tt. split; [|exact I]. unfold dismissModals.
  destruct (dismiss_from_scan b this modalButtons h) as (asked & rest & _ & R & _). exact R.
Qed.

Lemma yields_findPostButton :
  (forall h, exists bs btn, all_buttons b h = Resolves bs /\ List.find qualifies bs = Some btn) ->
  yields (fun found => found <> None) (findPostButton b).
Proof.
  intros P. unfold findPostButton.
  do 2 (apply yields_any; [apply yields_call|]; intros _).
  apply (yields_bind (fun bs => exists btn, List.find qualifies bs = Some btn)).
  - intros h. destruct (P h) as (bs & btn & E & F). exists bs.
    unfold answer. rewrite E. split; [reflexivity | now exists btn].
  - intros bs [btn F] h. exists (Some btn). rewrite find_from_find, F. now split.
Qed.

(** The polling loop returns [true] when the success URL shows within its
    rounds and the exit dialog never does. *)
Lemma poll_succeeds (T : Z) (cb : bool) (n : nat) :
  (forall h, is_visible b h exit_modal 500 <> Resolves true) ->
  (forall h, (n < count is_tick h)%nat -> is_success_url (current_url b h) = true) ->
  forall left i h,
    (0 < left)%nat -> (n < count is_tick h + left)%nat ->
    fst (poll b T cb left i h) = Returns true.
Proof.
  intros Quiet Done. induction left as [|left IH]; intros i h Pos Enough; [lia|].
  rewrite poll_step, resolves. cbv zeta.
  destruct (is_success_url _) eqn:U; [reflexivity|].
  assert (C : (count is_tick (h ++ [WaitForTimeout 5000]) <= n)%nat).
  { destruct (Nat.le_gt_cases (count is_tick (h ++ [WaitForTimeout 5000])) n) as [L|G];
      [exact L|]. rewrite (Done _ G) in U. discriminate. }
  rewrite count_app in C. change (count is_tick [WaitForTimeout 5000]) with 1%nat in C.
  assert (Next : fst (poll b T cb left (i + 1)
                        (h ++ tick_events T cb i ++ [IsVisible exit_modal 500])) = Returns true).
  { apply IH; [lia|]. rewrite !count_app.
    replace (count is_tick (tick_events T cb i)) with 1%nat by now destruct cb.
    cbn. lia. }
  pose proof (Quiet (h ++ tick_events T cb i)) as Q.
  destruct (is_visible b _ exit_modal 500) as [[|]|r]; cbn [fst]; [congruence | exact Next..].
Qed.

Lemma yields_upload_steps (videoPath description : string) (options : UploadOptions)
    (cs : list JSON) :
  cookies this = Some cs ->
  cooperates b (Z.to_nat (timeout this / 1000 / 5)) ->
  yields (fun r => r = uploaded) (upload_steps b this videoPath description options).
Proof.
  intros C [_ In Quiet Post (n & Small & Done)]. unfold upload_steps.
  apply yields_any; [now apply (yields_setupContext cs)|]. intros _.
  do 3 (apply yields_any; [apply yields_call|]; intros _).
  apply yields_any; [apply yields_when|]. intros _.
  apply (yields_bind (fun url => includes (toLowerCase url) "login" = false)).
  { intros h. exists (current_url b h). split; [reflexivity | apply In]. }
  intros url ->.
  apply yields_any; [apply yields_log|]. intros _.
  do 2 (apply yields_any; [apply yields_call|]; intros _).
  apply yields_any; [apply yields_when|]. intros _.
  apply yields_any; [apply yields_dismissModals|]. intros _.
  apply yields_any; [apply yields_log|]. intros _.
  do 4 (apply yields_any; [apply yields_call|]; intros _).
  apply yields_any; [apply yields_when|]. intros _.
  apply yields_any; [apply yields_log|]. intros _.
  apply (yields_bind (fun found => found <> None)); [now apply yields_findPostButton|].
  intros [btn|] Found; [clear Found | congruence].
  do 3 (apply yields_any; [apply yields_call|]; intros _).
  apply yields_any; [apply yields_when|]. intros _.
  apply yields_any; [apply yields_log|]. intros _.
  apply (yields_bind (fun ok => ok = true)).
  { intros h. exists true. split; [|reflexivity]. unfold waitForUploadComplete.
    apply (poll_succeeds _ _ n Quiet Done); lia. }
  intros ok ->.
  apply yields_any; [apply yields_log|]. intros _. now apply yields_ret.
Qed.

End Resolving.

(** X10: on a page that cooperates (every call resolves, neither the
    login page nor the exit dialog shows, a button that qualifies is
    listed, and a success URL shows within the polling rounds), an upload
    of a valid file with a session returns the success result. *)
Theorem upload_succeeds (b : Browser) (host : Host) (this : TikTokUploader)
    (video description videoPath : string) (options : UploadOptions) (cs : list JSON)
    (h : list Event) :
  validateVideo host video = Returns videoPath ->
  cookies this = Some cs ->
  cooperates b (Z.to_nat (timeout this / 1000 / 5)) ->
  fst (upload b host this video description options h) = Returns uploaded.
Proof.
  intros V C Co. pose proof (calls_resolve _ _ Co) as R.
  rewrite (upload_run b host this video description options videoPath h V). cbv zeta.
  rewrite !R.
  destruct (yields_upload_steps b this R videoPath description options cs C Co
              (h ++ prologue this videoPath options
                 ++ [Launch (headless this); NewContext 1280 1024])) as (a & E & ->).
  cbn [fst]. now rewrite E.
Qed.

Lemma succeeds_at_cooperates (n iterations : nat) :
  (n <= iterations)%nat -> (0 < iterations)%nat -> cooperates (Samples.succeeds_at n) iterations.
Proof.
  intros L P. split.
  - intros h ev. reflexivity.
  - intros h. cbn. now destruct (n <=? count is_tick h)%nat.
  - intros h. discriminate.
  - intros h. exists Samples.buttons. eexists. split; reflexivity.
  - exists (Nat.pred n). split; [lia|]. intros h C. cbn.
    destruct (Nat.leb_spec n (count is_tick h)); [reflexivity | lia].
Qed.

Lemma upload_succeeds_witness :
  fst (upload (Samples.succeeds_at 2) Samples.host Samples.quick "clip.MP4" "hello"
         Samples.with_callback []) = Returns uploaded.
Proof.
  apply (upload_succeeds (Samples.succeeds_at 2) Samples.host Samples.quick "clip.MP4" "hello"
           "/home/me/clip.MP4" Samples.with_callback
           (map cookie_object [mkCookie "sessionid" "3f9a0c" ".tiktok.com" "/";
                               mkCookie "sessionid_ss" "3f9a0c" ".tiktok.com" "/"]) []).
  - vm_compute. reflexivity.
  - vm_compute. reflexivity.
  - apply succeeds_at_cooperates; vm_compute; lia.
Defined.

(** X11: when the upload page, once loaded with the cookies, is at a URL
    that contains [login] in any letter case, the upload throws
    [SessionExpiredError]; it has handed no file to the page, and it has
    closed the browser. *)
Theorem upload_session_expired (b : Browser) (host : Host) (this : TikTokUploader)
    (video description videoPath : string) (options : UploadOptions) (cs : list JSON)
    (h : list Event) :
  validateVideo host video = Returns videoPath ->
  cookies this = Some cs ->
  never_rejects b ->
  includes (toLowerCase (current_url b (h ++ prologue this videoPath options
                                          ++ opening this cs options))) "login" = true ->
  upload b host this video description options h
  = (Throws SessionExpiredError,
     prologue this videoPath options ++ opening this cs options ++ [Url; CloseBrowser]).
Proof.
  intros V C R L.
  rewrite (upload_run b host this video description options videoPath h V). cbv zeta.
  rewrite !R.
  assert (S : upload_steps b this videoPath description options
                (h ++ prologue this videoPath options
                   ++ [Launch (headless this); NewContext 1280 1024])
              = (Throws SessionExpiredError,
                 [NewPage; Goto TIKTOK_BASE_URL; WaitForTimeout 1000; AddCookies cs; ClosePage;
                  NewPage; Goto TIKTOK_UPLOAD_URL; WaitForTimeout 3000]
                 ++ (if onProgress options then [Progress 10] else []) ++ [Url])).
  { revert L. unfold upload_steps, setupContext, opening. rewrite C.
    cbv beta iota zeta delta [bind call when emit ret page_url throw fst snd].
    rewrite !R. rewrite <- !app_assoc. cbn [app].
    destruct (onProgress options); cbn [app]; rewrite <- ?app_assoc; cbn [app];
      intros ->; reflexivity. }
  rewrite S. cbn [fst snd]. unfold opening. rewrite <- !app_assoc. reflexivity.
Qed.

Lemma upload_session_expired_witness :
  upload logged_out Samples.host Samples.with_session "clip.MP4" "hello" Samples.with_callback []
  = (Throws SessionExpiredError,
     prologue Samples.with_session "/home/me/clip.MP4" Samples.with_callback
       ++ opening Samples.with_session
            (map cookie_object [mkCookie "sessionid" "3f9a0c" ".tiktok.com" "/";
                                mkCookie "sessionid_ss" "3f9a0c" ".tiktok.com" "/"])
            Samples.with_callback
       ++ [Url; CloseBrowser]).
Proof.
  apply (upload_session_expired logged_out Samples.host Samples.with_session "clip.MP4" "hello").
  - vm_compute. reflexivity.
  - vm_compute. reflexivity.
  - intros h ev. reflexivity.
  - vm_compute. reflexivity.
Defined.
(** * Properties of the command line *)

(** ** The progress bar *)

Lemma showProgress_range (progress : Z) :
  Cli.showProgress progress = None <-> progress < 0 \/ 103 < progress.
Proof.
  unfold Cli.showProgress. cbv zeta.
  destruct ((30 * progress / 100 <? 0) || (30 - 30 * progress / 100 <? 0)) eqn:E.
  - split; [intros _ | reflexivity].
    apply orb_true_iff in E. rewrite !Z.ltb_lt in E.
    Z.to_euclidean_division_equations. lia.
  - split; [discriminate|]. intros R. exfalso.
    apply orb_false_iff in E. rewrite !Z.ltb_ge in E.
    Z.to_euclidean_division_equations. lia.
Qed.

Lemma reported_values (b : Browser) (host : Host) (this : TikTokUploader)
    (video description : string) (options : UploadOptions) (h : list Event) :
  onProgress options = true ->
  Forall (fun p => 0 <= p <= 100)
         (progress_of (snd (upload b host this video description options h))).
Proof.
  intros CB.
  destruct (upload_progress b host this video description options h CB) as (finished & S & _).
  apply progress_shape_sound in S. destruct S as (ms & ticks & -> & B & _).
  rewrite app_assoc. apply Forall_app. split.
  - eapply Forall_impl; [exact B|]. cbn. intros p P. lia.
  - destruct finished; repeat constructor; lia.
Qed.

(** X12: the progress bar of the command line throws (the [RangeError]
    of [repeat]) exactly on values below 0 or above 103, and no upload
    ever reports such a value: every value an upload hands to the callback
    lies between 0 and 100 and is drawn. *)
Theorem showProgress_never_throws (b : Browser) (host : Host) (this : TikTokUploader)
    (video description : string) (options : UploadOptions) (h : list Event) :
  onProgress options = true ->
  (forall progress, Cli.showProgress progress = None <-> progress < 0 \/ 103 < progress)
  /\ Forall (fun p => 0 <= p <= 100 /\ Cli.showProgress p <> None)
            (progress_of (snd (upload b host this video description options h))).
Proof.
  intros CB. split; [exact showProgress_range|].
  eapply Forall_impl; [exact (reported_values b host this video description options h CB)|].
  cbn. intros p P. split; [exact P|]. rewrite showProgress_range. lia.
Qed.

Lemma showProgress_never_throws_witness :
  Cli.showProgress 50 = Some [Cli.carriage_return +:+ "  [███████████████░░░░░░░░░░░░░░░] 50%"]
  /\ Forall (fun p => 0 <= p <= 100 /\ Cli.showProgress p <> None)
            (progress_of (snd (upload (Samples.succeeds_at 2) Samples.host Samples.quick
                                 "clip.MP4" "hello" Samples.with_callback []))).
Proof.
  split; [vm_compute; reflexivity|].
  apply (showProgress_never_throws (Samples.succeeds_at 2) Samples.host Samples.quick
           "clip.MP4" "hello" Samples.with_callback []).
  reflexivity.
Defined.

(** ** The upload command *)

Section UploadCommand.

Context `{Runtime}.
Variable b : Browser.
Variable host : Host.
Variable inspect : Error -> string.

Lemma upload_failed_run (debugging : bool) (e : Error) (h : list Event) :
  exists t text,
    Cli.upload_failed inspect debugging e h = (Returns 1, t ++ [ConsoleError text]).
Proof.
  unfold Cli.upload_failed.
  destruct e; cbv beta iota zeta delta [bind emit ret when fst snd]; cbn [app];
    try (eexists [], _; reflexivity).
  destruct debugging; cbn [app].
  - eexists [_], _. reflexivity.
  - eexists [], _. reflexivity.
Qed.

Lemma cmdUpload_run (args : list string) (h : list Event) :
  let parsed := Cli.parse_upload_args args in
  truthy (Cli.videoPath parsed) = true ->
  truthy (Cli.caption parsed) = true ->
  forall session,
    cli_session host = Returns session ->
    let run := upload b host (cli_uploader host parsed session)
                 (default "" (Cli.videoPath parsed)) (default "" (Cli.caption parsed))
                 (cli_request parsed) (h ++ cli_banner parsed) in
    Cli.cmdUpload b host inspect args h =
      match fst run with
      | Returns _ =>
          (Returns 0,
           cli_banner parsed ++ snd run ++ [ConsoleLog success_line])
      | Throws e =>
          (Returns 1,
           cli_banner parsed ++ snd run
             ++ snd (Cli.upload_failed inspect (Cli.debug parsed) e
                       (h ++ cli_banner parsed ++ snd run)))
      end.
Proof.
  intros parsed V C session S run. unfold cli_session in S. unfold Cli.cmdUpload. fold parsed. rewrite V, C, S.
  cbn [negb]. fold (cli_uploader host parsed session). fold (cli_request parsed).
  unfold try_catch. rewrite !bind_run. cbn [emit fst snd]. rewrite !bind_run. cbn [emit fst snd].
  rewrite !bind_run. cbn [emit fst snd]. rewrite !bind_run.
  rewrite <- !app_assoc. cbn [app]. fold (cli_banner parsed). fold run.
  pose proof (upload_result b host (cli_uploader host parsed session)
                (default "" (Cli.videoPath parsed)) (default "" (Cli.caption parsed))
                (cli_request parsed) (h ++ cli_banner parsed)) as R. fold run in R.
  destruct run as [[r|e] t]; cbn [fst snd] in *.
  - rewrite (R r eq_refl). cbv beta iota zeta delta [bind emit when ret uploaded success videoUrl truthy fst snd].
    cbn [app]. rewrite ?app_nil_r. reflexivity.
  - destruct (upload_failed_run (Cli.debug parsed) e (h ++ cli_banner parsed ++ t))
      as (t' & text & E).
    unfold cli_banner in *. cbn [app] in *. rewrite E. reflexivity.
Qed.

End UploadCommand.
Section UploadCommandProperties.

Context `{Runtime}.
Variable b : Browser.
Variable host : Host.
Variable inspect : Error -> string.

(** X13: without a video path, without a caption, or without any source
    of a session, the upload command returns 1 after printing error lines
    only: it has not touched the browser. *)
Theorem cmdUpload_stops_before_the_browser (args : list string) (h : list Event) :
  let parsed := Cli.parse_upload_args args in
  truthy (Cli.videoPath parsed) = false
  \/ truthy (Cli.caption parsed) = false
  \/ (exists e, cli_session host = Throws e) ->
  let run := Cli.cmdUpload b host inspect args h in
  fst run = Returns 1
  /\ snd run <> []
  /\ Forall (fun ev => not_console_error ev = false) (snd run).
Proof.
  intros parsed Missing. unfold Cli.cmdUpload. fold parsed.
  destruct (truthy (Cli.videoPath parsed)) eqn:V; cbn [negb].
  2:{ cbn. repeat split; [discriminate | repeat constructor]. }
  destruct (truthy (Cli.caption parsed)) eqn:C; cbn [negb].
  2:{ cbn. repeat split; [discriminate | repeat constructor]. }
  destruct Missing as [M|[M|[e M]]]; try discriminate.
  unfold cli_session in M. rewrite M. cbn.
  repeat split; [discriminate | repeat constructor].
Qed.

(** X14: the upload command never throws.  It returns 0 exactly when it
    had a video path, a caption and a session and the upload returned,
    and then the success line is the last thing printed; in every other
    case it returns 1 and the last thing printed is an error line. *)
Theorem cmdUpload_exit_code (args : list string) (h : list Event) :
  let parsed := Cli.parse_upload_args args in
  exists code t,
    Cli.cmdUpload b host inspect args h = (Returns code, t)
    /\ ((code = 0 /\ exists t0, t = t0 ++ [ConsoleLog success_line])
        \/ (code = 1 /\ exists t0 text, t = t0 ++ [ConsoleError text]))
    /\ (code = 0 <->
        truthy (Cli.videoPath parsed) = true
        /\ truthy (Cli.caption parsed) = true
        /\ exists session r,
            cli_session host = Returns session
            /\ fst (upload b host (cli_uploader host parsed session)
                      (default "" (Cli.videoPath parsed)) (default "" (Cli.caption parsed))
                      (cli_request parsed) (h ++ cli_banner parsed)) = Returns r).
Proof.
  intros parsed.
  destruct (truthy (Cli.videoPath parsed)) eqn:V.
  2:{ eexists 1, [_]. unfold Cli.cmdUpload. fold parsed. rewrite V. cbn.
      split; [reflexivity|]. split; [right; split; [reflexivity | now eexists [], _]|].
      split; [discriminate | intros (F & _); discriminate]. }
  destruct (truthy (Cli.caption parsed)) eqn:C.
  2:{ eexists 1, [_]. unfold Cli.cmdUpload. fold parsed. rewrite V, C. cbn.
      split; [reflexivity|]. split; [right; split; [reflexivity | now eexists [], _]|].
      split; [discriminate | intros (_ & F & _); discriminate]. }
  destruct (cli_session host) as [session|e] eqn:S.
  2:{ eexists 1, [_; _]. unfold Cli.cmdUpload. fold parsed. unfold cli_session in S.
      rewrite V, C, S. cbn.
      split; [reflexivity|]. split; [right; split; [reflexivity | now eexists [_], _]|].
      split; [discriminate | intros (_ & _ & s & r & F & _); discriminate]. }
  rewrite (cmdUpload_run b host inspect args h V C session S). cbv zeta. fold parsed.
  destruct (upload b host (cli_uploader host parsed session) _ _ _ _) as [[r|e] t] eqn:U;
    cbn [fst snd].
  - eexists 0, _. split; [reflexivity|]. split.
    + left. split; [reflexivity|]. exists (cli_banner parsed ++ t). apply app_assoc.
    + split; [|reflexivity]. intros _. split; [reflexivity|]. split; [reflexivity|].
      exists session, r. now rewrite U.
  - destruct (upload_failed_run inspect (Cli.debug parsed) e (h ++ cli_banner parsed ++ t))
      as (t' & text & E).
    rewrite E. cbn [snd].
    eexists 1, _. split; [reflexivity|]. split.
    + right. split; [reflexivity|]. exists (cli_banner parsed ++ t ++ t'), text.
      now rewrite (app_assoc t), (app_assoc (cli_banner parsed)).
    + split; [discriminate|]. intros (_ & _ & s & r & S' & F).
      injection S' as <-. rewrite U in F. discriminate.
Qed.



End UploadCommandProperties.

Example cmdCheck_on_a_directory :
  getSession directory_session_host None "TIKTOK_SESSION" None
  = Throws (Foreign "Error: EISDIR: illegal operation on a directory, read")
  /\ Cli.cmdCheck (H := Node.runtime) directory_session_host []
     = (Returns 1,
        [ConsoleError "Error: Error: EISDIR: illegal operation on a directory, read"]).
Proof. split; vm_compute; reflexivity. Qed.

Lemma cmdUpload_stops_before_the_browser_witness :
  let run := Cli.cmdUpload (H := Node.runtime) Samples.never_done Samples.host String_of_error
               ["clip.MP4"; "--debug"; "-c"] [] in
  Cli.caption (Cli.parse_upload_args ["clip.MP4"; "--debug"; "-c"]) = None
  /\ fst run = Returns 1
  /\ snd run <> []
  /\ Forall (fun ev => not_console_error ev = false) (snd run).
Proof.
  split; [reflexivity|].
  apply (cmdUpload_stops_before_the_browser (H := Node.runtime) Samples.never_done
           Samples.host String_of_error ["clip.MP4"; "--debug"; "-c"] []).
  right. left. reflexivity.
Defined.


(** ** Routing and arguments *)

Lemma has_upload (args : list string) (flag : string) :
  String.prefix "-" flag = true -> Cli.has ("upload" :: args) flag = Cli.has args flag.
Proof.
  intros P. unfold Cli.has. cbn [existsb].
  destruct (String.eqb_spec flag "upload") as [->|N]; [discriminate | reflexivity].
Qed.

(** X17: a first argument with a supported video extension is a
    shorthand: the command line routes exactly as if [upload] had been put
    in front of it, flags for help and version included. *)
Theorem route_shorthand (command : string) (rest : list string) :
  toLowerCase (Path.extname command) ∈ SUPPORTED_FORMATS ->
  Cli.route (command :: rest) = Cli.route ("upload" :: command :: rest).
Proof.
  intros Ext. unfold Cli.route. rewrite !has_upload by reflexivity.
  cbn [List.length Nat.eqb orb].
  destruct (Cli.has (command :: rest) "--help" || Cli.has (command :: rest) "-h"); [reflexivity|].
  destruct (Cli.has (command :: rest) "--version" || Cli.has (command :: rest) "-v");
    [reflexivity|].
  cbn [String.eqb Ascii.eqb Bool.eqb andb].
  assert (N : forall word, Path.extname word = "" -> command <> word).
  { intros word E ->. rewrite E in Ext. apply supported_iff in Ext.
    cbn in Ext. intuition discriminate. }
  destruct (String.eqb_spec command "auth") as [E|_]; [now apply N in E|].
  destruct (String.eqb_spec command "upload") as [E|_]; [now apply N in E|].
  destruct (String.eqb_spec command "check") as [E|_]; [now apply N in E|].
  now rewrite bool_decide_eq_true_2.
Qed.

Lemma route_shorthand_witness :
  Cli.route ["clip.MP4"; "-c"; "hello"] = Cli.Upload ["clip.MP4"; "-c"; "hello"]
  /\ Cli.route ["clip.MP4"; "-c"; "hello"] = Cli.route ["upload"; "clip.MP4"; "-c"; "hello"].
Proof.
  split; [vm_compute; reflexivity|].
  apply (route_shorthand "clip.MP4" ["-c"; "hello"]).
  apply supported_iff. left. reflexivity.
Defined.

Lemma parse_from_sound (n : nat) :
  forall args st,
    (List.length args <= n)%nat ->
    let parsed := Cli.parse_from args st in
    (truthy (Cli.videoPath st) = true -> Cli.videoPath parsed = Cli.videoPath st)
    /\ (forall v, Cli.videoPath parsed = Some v ->
                  Cli.videoPath st = Some v \/ (In v args /\ String.prefix "-" v = false))
    /\ (forall c, Cli.caption parsed = Some c ->
                  Cli.caption st = Some c
                  \/ exists before flag after,
                       args = before ++ flag :: c :: after
                       /\ (flag = "-c" \/ flag = "--caption")).
Proof.
  induction n as [|n IH]; intros args st L; cbv zeta.
  { destruct args; [|cbn in L; lia]. cbn. repeat split; auto. }
  destruct args as [|arg rest]; [cbn; repeat split; auto|].
  cbn [List.length] in L.
  assert (Step : forall st',
             (truthy (Cli.videoPath st) = true -> Cli.videoPath st' = Cli.videoPath st
                                                  /\ truthy (Cli.videoPath st') = true) ->
             (forall v, Cli.videoPath st' = Some v ->
                        Cli.videoPath st = Some v \/ (v = arg /\ String.prefix "-" v = false)) ->
             Cli.caption st' = Cli.caption st ->
             let parsed := Cli.parse_from rest st' in
             (truthy (Cli.videoPath st) = true -> Cli.videoPath parsed = Cli.videoPath st)
             /\ (forall v, Cli.videoPath parsed = Some v ->
                           Cli.videoPath st = Some v
                           \/ (In v (arg :: rest) /\ String.prefix "-" v = false))
             /\ (forall c, Cli.caption parsed = Some c ->
                           Cli.caption st = Some c
                           \/ exists before flag after,
                                arg :: rest = before ++ flag :: c :: after
                                /\ (flag = "-c" \/ flag = "--caption"))).
  { intros st' Keep New Cap. cbv zeta.
    destruct (IH rest st' ltac:(lia)) as (I1 & I2 & I3). repeat split.
    - intros T. destruct (Keep T) as [K1 K2]. now rewrite (I1 K2).
    - intros v E. destruct (I2 v E) as [E'|[E1 E2]].
      + destruct (New v E') as [?|[-> ?]]; [now left | right; split; [now left | assumption]].
      + right. split; [now right | assumption].
    - intros c E. destruct (I3 c E) as [E'|(before & flag & after & -> & F)].
      + left. congruence.
      + right. exists (arg :: before), flag, after. now split. }
  cbn [Cli.parse_from].
  destruct (String.eqb arg "-c" || String.eqb arg "--caption") eqn:Cflag.
  { assert (F : arg = "-c" \/ arg = "--caption").
    { apply orb_true_iff in Cflag. rewrite !String.eqb_eq in Cflag. exact Cflag. }
    destruct rest as [|v rest']; cbn [Cli.videoPath Cli.caption].
    - repeat split; auto. discriminate.
    - cbn [List.length] in L.
      destruct (IH rest' (Cli.mkUploadArgs (Cli.videoPath st) (Some v) (Cli.visibility st)
                            (Cli.visible st) (Cli.debug st) (Cli.quiet st)) ltac:(lia))
        as (I1 & I2 & I3).
      cbn [Cli.videoPath Cli.caption] in *. repeat split.
      + exact I1.
      + intros w E. destruct (I2 w E) as [?|[? ?]]; [now left|]. right. split; [|assumption].
        right. now right.
      + intros c E. destruct (I3 c E) as [E'|(before & flag & after & -> & F')].
        * injection E' as <-. right. exists [], arg, rest'. now split.
        * right. exists (arg :: v :: before), flag, after. now split. }
  destruct (String.eqb arg "--visibility").
  { destruct rest as [|v rest']; [repeat split; auto|].
    cbn [List.length] in L.
    assert (Skip : forall st',
               Cli.videoPath st' = Cli.videoPath st -> Cli.caption st' = Cli.caption st ->
               let parsed := Cli.parse_from rest' st' in
               (truthy (Cli.videoPath st) = true -> Cli.videoPath parsed = Cli.videoPath st)
               /\ (forall w, Cli.videoPath parsed = Some w ->
                             Cli.videoPath st = Some w
                             \/ (In w (arg :: v :: rest') /\ String.prefix "-" w = false))
               /\ (forall c, Cli.caption parsed = Some c ->
                             Cli.caption st = Some c
                             \/ exists before flag after,
                                  arg :: v :: rest' = before ++ flag :: c :: after
                                  /\ (flag = "-c" \/ flag = "--caption"))).
    { intros st' EV EC. cbv zeta.
      destruct (IH rest' st' ltac:(lia)) as (I1 & I2 & I3). rewrite EV, EC in *.
      repeat split.
      - exact I1.
      - intros w E. destruct (I2 w E) as [?|[? ?]]; [now left|]. right. split; [|assumption].
        right. now right.
      - intros c E. destruct (I3 c E) as [E'|(before & flag & after & -> & F')]; [now left|].
        right. exists (arg :: v :: before), flag, after. now split. }
    destruct (Cli.visibility_of v); now apply Skip. }
  destruct (String.eqb arg "--visible"); [apply Step; cbn; auto; discriminate|].
  destruct (String.eqb arg "--debug"); [apply Step; cbn; auto; discriminate|].
  destruct (String.eqb arg "-q" || String.eqb arg "--quiet"); [apply Step; cbn; auto; discriminate|].
  destruct (negb (String.prefix "-" arg) && negb (truthy (Cli.videoPath st))) eqn:Pos.
  - apply andb_true_iff in Pos. rewrite !negb_true_iff in Pos. destruct Pos as [P1 P2].
    apply Step; cbn [Cli.videoPath Cli.caption]; [congruence | | reflexivity].
    intros v E. injection E as <-. now right.
  - apply Step; auto.
Qed.

(** X18: what the argument loop of the upload command yields comes from
    the command line.  The video path is an argument that does not start
    with a dash; the caption is an argument that directly follows [-c] or
    [--caption], whatever it looks like; and once a video path is set, no
    later argument replaces it. *)
Theorem parse_upload_args_sound (args : list string) :
  let parsed := Cli.parse_upload_args args in
  (forall v, Cli.videoPath parsed = Some v -> In v args /\ String.prefix "-" v = false)
  /\ (forall c, Cli.caption parsed = Some c ->
                exists before flag after,
                  args = before ++ flag :: c :: after /\ (flag = "-c" \/ flag = "--caption"))
  /\ (forall more st, truthy (Cli.videoPath st) = true ->
                      Cli.videoPath (Cli.parse_from more st) = Cli.videoPath st).
Proof.
  cbv zeta. unfold Cli.parse_upload_args.
  destruct (parse_from_sound (List.length args) args Cli.initial (Nat.le_refl _))
    as (_ & V & C).
  split; [|split].
  - intros v E. destruct (V v E) as [F|G]; [discriminate | exact G].
  - intros c E. destruct (C c E) as [F|G]; [discriminate | exact G].
  - intros more st T.
    destruct (parse_from_sound (List.length more) more st (Nat.le_refl _)) as (K & _).
    now apply K.
Qed.

(** * Properties of the interactive login *)

Lemma login_bind_run {A B} (m : Login.Flow A) (k : A -> Login.Flow B) (h : list Login.Event) :
  Login.bind m k h =
    match m h with
    | (Login.Returns a, t) => (fst (k a (h ++ t)), t ++ snd (k a (h ++ t)))
    | (Login.Throws e, t) => (Login.Throws e, t)
    end.
Proof.
  unfold Login.bind. destruct (m h) as [[a|e] t]; [|reflexivity].
  now destruct (k a (h ++ t)).
Qed.

Lemma login_count_app (f : Login.Event -> bool) (t1 t2 : list Login.Event) :
  login_count f (t1 ++ t2) = (login_count f t1 + login_count f t2)%nat.
Proof. unfold login_count. now rewrite List.filter_app, length_app. Qed.

Lemma login_count_open (t : list Login.Event) :
  Forall (fun e => login_open e = true) t ->
  login_count login_is_close t = O /\ login_count login_is_write t = O.
Proof.
  unfold login_count. induction 1 as [|e t E _ [IH1 IH2]]; [now split|].
  unfold login_open in E. rewrite andb_true_iff, !negb_true_iff in E.
  destruct E as [E1 E2]. cbn [List.filter]. rewrite E1, E2. now split.
Qed.

Section KeepsOpen.

Variable b : Login.Browser.

Lemma keeps_open_ret {A} (a : A) : login_keeps_open b (Login.ret a).
Proof. intros h. split; [constructor | discriminate]. Qed.

Lemma keeps_open_emit (ev : Login.Event) :
  login_open ev = true -> login_keeps_open b (Login.emit ev).
Proof. intros O h. split; [now repeat constructor | discriminate]. Qed.

Lemma keeps_open_call (ev : Login.Event) :
  login_open ev = true -> ev <> Login.Cookies -> login_keeps_open b (Login.call b ev).
Proof.
  intros O N h. unfold Login.call.
  destruct (Login.rejects b h ev) as [r|] eqn:R; cbn [fst snd].
  - split; [now repeat constructor|]. intros e E. injection E as <-.
    exists r, [], ev. rewrite app_nil_r. repeat split.
    unfold login_rejected. destruct ev; try exact R. congruence.
  - split; [now repeat constructor | discriminate].
Qed.

Lemma keeps_open_cookies : login_keeps_open b (Login.cookies b).
Proof.
  intros h. unfold Login.cookies.
  destruct (Login.context_cookies b h) as [cs|r] eqn:R; cbn [fst snd].
  - split; [now repeat constructor | discriminate].
  - split; [now repeat constructor|]. intros e E. injection E as <-.
    exists r, [], Login.Cookies. rewrite app_nil_r. now repeat split.
Qed.

Lemma keeps_open_page_url : login_keeps_open b (Login.page_url b).
Proof. intros h. split; [now repeat constructor | discriminate]. Qed.

Lemma keeps_open_bind {A B} (m : Login.Flow A) (k : A -> Login.Flow B) :
  login_keeps_open b m -> (forall x, login_keeps_open b (k x)) ->
  login_keeps_open b (Login.bind m k).
Proof.
  intros M K h. rewrite login_bind_run. destruct (M h) as [Mo Mt].
  destruct (m h) as [[x|e] t]; cbn [fst snd] in *; 
    [|split; [assumption | intros e0 E; injection E as <-; now apply Mt]].
  destruct (K x (h ++ t)) as [Ko Kt]. split; [apply Forall_app; now split|].
  intros e E. destruct (Kt e E) as (r & t0 & ev & -> & T & R).
  exists r, (t ++ t0), ev. rewrite T, <- !app_assoc in *. now repeat split.
Qed.

Lemma keeps_open_wait_for_login (timeout : Z) (fuel : nat) :
  forall elapsed, login_keeps_open b (Login.wait_for_login b fuel elapsed timeout).
Proof.
  induction fuel as [|fuel IH]; intros elapsed; cbn [Login.wait_for_login];
    [apply keeps_open_ret|].
  destruct (elapsed <? timeout); [|apply keeps_open_ret].
  apply keeps_open_bind; [now apply keeps_open_call|]. intros _.
  apply keeps_open_bind; [apply keeps_open_cookies|]. intros cs.
  destruct (Login.has_sessionid _).
  { apply keeps_open_bind; [now apply keeps_open_emit|]. intros _. apply keeps_open_ret. }
  apply keeps_open_bind; [apply keeps_open_page_url|]. intros url.
  destruct (negb _ && _); [|apply IH].
  apply keeps_open_bind; [now apply keeps_open_call|]. intros _.
  apply keeps_open_bind; [apply keeps_open_cookies|]. intros cs'.
  destruct (Login.has_sessionid _); [|apply IH].
  apply keeps_open_bind; [now apply keeps_open_emit|]. intros _. apply keeps_open_ret.
Qed.

Lemma lifecycle_bind {A B} (m : Login.Flow A) (k : A -> Login.Flow B) :
  login_keeps_open b m -> (forall x, login_lifecycle b (k x)) ->
  login_lifecycle b (Login.bind m k).
Proof.
  intros M K h. rewrite login_bind_run. destruct (M h) as [Mo Mt].
  destruct (login_count_open _ Mo) as [C _].
  destruct (m h) as [[x|e] t]; cbn [fst snd] in *.
  - specialize (K x (h ++ t)).
    destruct (fst (k x (h ++ t))) as [a|[|r]].
    + rewrite login_count_app. lia.
    + rewrite login_count_app. lia.
    + destruct K as (t0 & ev & T & R & N). exists (t ++ t0), ev.
      rewrite T, <- !app_assoc in *. repeat split; [exact R|].
      rewrite login_count_app. lia.
  - destruct (Mt e eq_refl) as (r & t0 & ev & -> & T & R).
    exists t0, ev. repeat split; try assumption.
    rewrite T in Mo. apply Forall_app in Mo. destruct Mo as [Mo0 Mo1].
    destruct (login_count_open _ Mo0) as [C0 _]. rewrite C0.
    inversion Mo1 as [|? ? O _]; subst. unfold login_open in O.
    apply andb_true_iff in O. destruct O as [_ O]. apply negb_true_iff in O. now rewrite O.
Qed.

Lemma detects_bind {A} (m : Login.Flow A) (k : A -> Login.Flow bool) :
  login_keeps_open b m -> (forall x, login_detects b (k x)) ->
  login_detects b (Login.bind m k).
Proof.
  intros M K h. rewrite login_bind_run. destruct (M h) as [Mo _].
  destruct (m h) as [[x|e] t]; cbn [fst snd] in *; [|discriminate].
  intros E. destruct (K x (h ++ t) E) as (t0 & seen & T & O & C & S).
  exists (t ++ t0), seen. rewrite T, <- !app_assoc in *.
  repeat split; try assumption. apply Forall_app. now split.
Qed.

Lemma detects_ret_false : login_detects b (Login.ret false).
Proof. intros h. discriminate. Qed.

(** A read of the cookies followed by the test for [sessionid]. *)
Lemma detects_read (rest : list Cookie -> Login.Flow bool) :
  (forall cs, login_detects b (rest cs)) ->
  login_detects b
    (Login.bind (Login.cookies b)
       (fun cs =>
          if Login.has_sessionid (Login.auth_cookies cs)
          then Login.bind (Login.emit (Login.ConsoleLog "Login detected!"))
                          (fun _ => Login.ret true)
          else rest cs)).
Proof.
  intros R h. rewrite login_bind_run. unfold Login.cookies.
  destruct (Login.context_cookies b h) as [cs|r] eqn:C; cbn [fst snd]; [|discriminate].
  destruct (Login.has_sessionid (Login.auth_cookies cs)) eqn:S.
  - intros _. exists [], cs. rewrite app_nil_r. repeat split; [constructor | exact C | exact S].
  - intros E. destruct (R cs (h ++ [Login.Cookies]) E) as (t0 & seen & T & O & C' & S').
    exists (Login.Cookies :: t0), seen. rewrite T. rewrite <- app_assoc in C'.
    repeat split; try assumption. now constructor.
Qed.

Lemma detects_wait_for_login (timeout : Z) (fuel : nat) :
  forall elapsed, login_detects b (Login.wait_for_login b fuel elapsed timeout).
Proof.
  induction fuel as [|fuel IH]; intros elapsed; cbn [Login.wait_for_login];
    [apply detects_ret_false|].
  destruct (elapsed <? timeout); [|apply detects_ret_false].
  apply detects_bind; [now apply keeps_open_call|]. intros _.
  apply detects_read. intros cs.
  apply detects_bind; [apply keeps_open_page_url|]. intros url.
  destruct (negb _ && _); [|apply IH].
  apply detects_bind; [now apply keeps_open_call|]. intros _.
  apply detects_read. intros cs'. apply IH.
Qed.

End KeepsOpen.

Lemma login_call_run (b : Login.Browser) (ev : Login.Event) (h : list Login.Event) :
  Login.call b ev h =
    match Login.rejects b h ev with
    | None => (Login.Returns tt, [ev])
    | Some r => (Login.Throws (Login.Rejected r), [ev])
    end.
Proof. reflexivity. Qed.

Section LoginRuns.

Variable b : Login.Browser.
Variable host : Host.
Variable saveToFile : option string.

Lemma ending_lifecycle (sessionFound : bool) :
  login_lifecycle b (login_ending b host saveToFile sessionFound).
Proof.
  intros h. unfold login_ending. destruct sessionFound; cbn [negb].
  - rewrite login_bind_run. unfold Login.cookies.
    destruct (Login.context_cookies b h) as [cs|r] eqn:C; cbv beta iota; cbn [fst snd].
    2:{ exists [], Login.Cookies. rewrite app_nil_r. now repeat split. }
    rewrite login_bind_run. rewrite login_call_run.
    destruct (Login.rejects b (h ++ [Login.Cookies]) Login.CloseBrowser) as [r|] eqn:X;
      cbv beta iota; cbn [fst snd].
    { exists [Login.Cookies], Login.CloseBrowser. now repeat split. }
    rewrite login_bind_run. destruct (truthy saveToFile).
    + rewrite login_bind_run. rewrite login_call_run.
      destruct (Login.rejects b _ (Login.WriteFile _ _)) as [r|] eqn:W; cbv beta iota; cbn [fst snd].
      * exists [Login.Cookies; Login.CloseBrowser], (Login.WriteFile
                 (Path.resolve (cwd host) (default "" saveToFile))
                 (Node.sessionToken (Login.auth_cookies cs))).
        rewrite <- !app_assoc in W. split; [reflexivity|]. split; [exact W | reflexivity].
      * reflexivity.
    + reflexivity.
  - rewrite login_bind_run. rewrite login_call_run.
    destruct (Login.rejects b h Login.CloseBrowser) as [r|] eqn:X; cbv beta iota; cbn [fst snd].
    + exists [], Login.CloseBrowser. rewrite app_nil_r. now repeat split.
    + reflexivity.
Qed.

Lemma ending_token (h t0 : list Login.Event) (seen : list Cookie) (token : string) :
  Forall (fun e => login_open e = true) t0 ->
  Login.context_cookies b (h ++ t0) = Resolves seen ->
  Login.has_sessionid (Login.auth_cookies seen) = true ->
  let h' := h ++ t0 ++ [Login.Cookies; Login.ConsoleLog "Login detected!"] in
  fst (login_ending b host saveToFile true h') = Login.Returns token ->
  login_token_from b host saveToFile h
    ((t0 ++ [Login.Cookies; Login.ConsoleLog "Login detected!"])
       ++ snd (login_ending b host saveToFile true h')) token.
Proof.
  intros O C S h'. unfold login_ending. cbn [negb].
  rewrite login_bind_run. unfold Login.cookies.
  destruct (Login.context_cookies b h') as [cs|r] eqn:C'; cbv beta iota; cbn [fst snd]; [|discriminate].
  rewrite login_bind_run. rewrite login_call_run.
  destruct (Login.rejects b (h' ++ [Login.Cookies]) Login.CloseBrowser) as [r|] eqn:X;
    cbv beta iota; cbn [fst snd]; [discriminate|].
  rewrite login_bind_run.
  assert (Done : forall saved,
             saved = login_saved host saveToFile (Node.sessionToken (Login.auth_cookies cs)) ->
             Login.Returns (Node.sessionToken (Login.auth_cookies cs)) = Login.Returns token ->
             login_token_from b host saveToFile h
               ((t0 ++ [Login.Cookies; Login.ConsoleLog "Login detected!"])
                  ++ [Login.Cookies] ++ [Login.CloseBrowser] ++ saved ++ []) token).
  { intros saved -> E. injection E as <-. exists t0, seen, cs.
    rewrite app_nil_r, <- !app_assoc. cbn [app].
    repeat split; try assumption. apply parseSession_sessionToken. }
  unfold login_saved in Done. destruct (truthy saveToFile).
  - rewrite login_bind_run. rewrite login_call_run.
    destruct (Login.rejects b _ (Login.WriteFile _ _)); cbv beta iota; cbn [fst snd]; [discriminate|].
    now apply Done.
  - cbv beta iota. cbn [fst snd]. now apply Done.
Qed.

Lemma yields_token_bind {A} (m : Login.Flow A) (k : A -> Login.Flow string) :
  login_keeps_open b m -> (forall x, login_yields_token b host saveToFile (k x)) ->
  login_yields_token b host saveToFile (Login.bind m k).
Proof.
  intros M K h token. rewrite login_bind_run. destruct (M h) as [Mo _].
  destruct (m h) as [[x|e] t]; cbn [fst snd] in *; [|discriminate].
  intros E. destruct (K x (h ++ t) token E) as (t0 & seen & cs & T & O & C & S & C' & Tk & P).
  exists (t ++ t0), seen, cs. rewrite T, <- !app_assoc in *.
  repeat split; try assumption. apply Forall_app. now split.
Qed.

Lemma yields_token_ending (head : Login.Flow bool) :
  login_keeps_open b head -> login_detects b head ->
  login_yields_token b host saveToFile (Login.bind head (login_ending b host saveToFile)).
Proof.
  intros K D h token. rewrite login_bind_run. specialize (D h).
  destruct (head h) as [[[|]|e] t]; cbn [fst snd] in *; try discriminate.
  - destruct (D eq_refl) as (t0 & seen & -> & O & C & S). intros E.
    now apply (ending_token h t0 seen token).
  - unfold login_ending. cbn [negb]. rewrite login_bind_run, login_call_run.
    destruct (Login.rejects b _ Login.CloseBrowser); discriminate.
Qed.

Lemma interactiveLogin_lifecycle (timeout : Z) :
  login_lifecycle b (Login.interactiveLogin b host saveToFile timeout).
Proof.
  unfold Login.interactiveLogin.
  do 9 (apply lifecycle_bind;
        [first [now apply keeps_open_emit | now apply keeps_open_call]|]; intros _).
  apply lifecycle_bind; [apply keeps_open_wait_for_login|].
  intros sessionFound. apply (ending_lifecycle sessionFound).
Qed.

Lemma interactiveLogin_yields_token (timeout : Z) :
  login_yields_token b host saveToFile (Login.interactiveLogin b host saveToFile timeout).
Proof.
  unfold Login.interactiveLogin.
  do 9 (apply yields_token_bind;
        [first [now apply keeps_open_emit | now apply keeps_open_call]|]; intros _).
  apply (yields_token_ending (Login.wait_for_login b (Z.to_nat timeout) 0 timeout)).
  - apply keeps_open_wait_for_login.
  - apply detects_wait_for_login.
Qed.

End LoginRuns.

(** X19: what a returned login hands out.  The run ends with a read of
    the cookies that showed an auth cookie named [sessionid], the line
    [Login detected!], a second read of the cookies, the close of the
    browser, and the write of the token when a file was asked for.  The
    token is the base64 of the JSON text of the auth cookies of the second
    read, and decoding it as a session gives back exactly these cookies,
    with their four fields. *)
Theorem interactiveLogin_token (b : Login.Browser) (host : Host) (saveToFile : option string)
    (timeout : Z) (h : list Login.Event) (token : string) :
  let run := Login.interactiveLogin b host saveToFile timeout h in
  fst run = Login.Returns token ->
  exists t0 seen cs,
    snd run = t0 ++ [Login.Cookies; Login.ConsoleLog "Login detected!"; Login.Cookies;
                     Login.CloseBrowser] ++ login_saved host saveToFile token
    /\ Forall (fun e => login_open e = true) t0
    /\ Login.context_cookies b (h ++ t0) = Resolves seen
    /\ Login.has_sessionid (Login.auth_cookies seen) = true
    /\ Login.context_cookies
         b (h ++ t0 ++ [Login.Cookies; Login.ConsoleLog "Login detected!"]) = Resolves cs
    /\ token = Node.sessionToken (Login.auth_cookies cs)
    /\ @parseSession Node.runtime token = map cookie_object (Login.auth_cookies cs).
Proof.
  intros run R. exact (interactiveLogin_yields_token b host saveToFile timeout h token R).
Qed.

Lemma interactiveLogin_token_witness :
  let run := Login.interactiveLogin (logs_in_after 14) Samples.host (Some "tok") 10000 [] in
  fst run = Login.Returns Samples.token
  /\ exists t0 seen cs,
    snd run = t0 ++ [Login.Cookies; Login.ConsoleLog "Login detected!"; Login.Cookies;
                     Login.CloseBrowser] ++ login_saved Samples.host (Some "tok") Samples.token
    /\ Forall (fun e => login_open e = true) t0
    /\ Login.context_cookies (logs_in_after 14) ([] ++ t0) = Resolves seen
    /\ Login.has_sessionid (Login.auth_cookies seen) = true
    /\ Login.context_cookies (logs_in_after 14)
         ([] ++ t0 ++ [Login.Cookies; Login.ConsoleLog "Login detected!"]) = Resolves cs
    /\ Samples.token = Node.sessionToken (Login.auth_cookies cs)
    /\ @parseSession Node.runtime Samples.token = map cookie_object (Login.auth_cookies cs).
Proof.
  split; [vm_compute; reflexivity|].
  apply (interactiveLogin_token (logs_in_after 14) Samples.host (Some "tok") 10000 []
           Samples.token).
  vm_compute. reflexivity.
Defined.

(** X20: the browser of a login.  A login that returns, or that times
    out, has closed its browser exactly once.  A login that fails on a
    rejected call stops at that call, and unless the call is the write of
    the session file it had not closed the browser before: a rejected
    [newContext], [newPage], [goto], wait or read of the cookies leaves the
    browser open. *)
Theorem interactiveLogin_browser (b : Login.Browser) (host : Host) (saveToFile : option string)
    (timeout : Z) (h : list Login.Event) :
  let run := Login.interactiveLogin b host saveToFile timeout h in
  match fst run with
  | Login.Returns _ | Login.Throws Login.TimedOut =>
      login_count login_is_close (snd run) = 1%nat
  | Login.Throws (Login.Rejected r) =>
      exists t0 ev,
        snd run = t0 ++ [ev]
        /\ login_rejected b (h ++ t0) ev r
        /\ login_count login_is_close t0 = (if login_is_write ev then 1 else 0)%nat
  end.
Proof.
  cbv zeta. pose proof (interactiveLogin_lifecycle b host saveToFile timeout h) as L.
  destruct (fst (Login.interactiveLogin b host saveToFile timeout h)) as [token|[|r]]; exact L.
Qed.

(** ** A login that nobody completes *)

Ltac euclid := zify; Z.to_euclidean_division_equations; lia.

Lemma wait_for_login_step (b : Login.Browser) (fuel : nat) (elapsed timeout : Z)
    (h : list Login.Event) :
  let wait := Login.WaitForTimeout 2000 in
  let again (pre : list Login.Event) :=
    (fst (Login.wait_for_login b fuel (elapsed + 2000) timeout (h ++ pre)),
     pre ++ snd (Login.wait_for_login b fuel (elapsed + 2000) timeout (h ++ pre))) in
  Login.wait_for_login b (S fuel) elapsed timeout h =
    if elapsed <? timeout then
      match Login.rejects b h wait with
      | Some r => (Login.Throws (Login.Rejected r), [wait])
      | None =>
          match Login.context_cookies b (h ++ [wait]) with
          | Rejects r => (Login.Throws (Login.Rejected r), [wait; Login.Cookies])
          | Resolves cs =>
              if Login.has_sessionid (Login.auth_cookies cs)
              then (Login.Returns true,
                    [wait; Login.Cookies; Login.ConsoleLog "Login detected!"])
              else
                let url := toLowerCase (Login.current_url b (h ++ [wait; Login.Cookies])) in
                if negb (includes url "login") && includes url "/foryou" then
                  match Login.rejects b (h ++ [wait; Login.Cookies; Login.Url]) wait with
                  | Some r =>
                      (Login.Throws (Login.Rejected r), [wait; Login.Cookies; Login.Url; wait])
                  | None =>
                      match Login.context_cookies
                              b (h ++ [wait; Login.Cookies; Login.Url; wait]) with
                      | Rejects r =>
                          (Login.Throws (Login.Rejected r),
                           [wait; Login.Cookies; Login.Url; wait; Login.Cookies])
                      | Resolves newCookies =>
                          if Login.has_sessionid (Login.auth_cookies newCookies)
                          then (Login.Returns true,
                                [wait; Login.Cookies; Login.Url; wait; Login.Cookies;
                                 Login.ConsoleLog "Login detected!"])
                          else again [wait; Login.Cookies; Login.Url; wait; Login.Cookies]
                      end
                  end
                else again [wait; Login.Cookies; Login.Url]
          end
      end
    else (Login.Returns false, []).
Proof.
  cbv zeta. cbn [Login.wait_for_login].
  destruct (elapsed <? timeout); [|reflexivity].
  cbv beta iota zeta delta [Login.bind Login.call Login.cookies Login.page_url Login.emit
                              Login.ret fst snd].
  destruct (Login.rejects b h _); [reflexivity|].
  destruct (Login.context_cookies b (h ++ _)) as [cs|r]; [|reflexivity].
  destruct (Login.has_sessionid _); [reflexivity|].
  rewrite <- !app_assoc. cbn [app].
  destruct (negb _ && _).
  - destruct (Login.rejects b _ _); [reflexivity|].
    rewrite <- !app_assoc. cbn [app].
    destruct (Login.context_cookies b (h ++ _)) as [cs'|r]; [|reflexivity].
    destruct (Login.has_sessionid _); [reflexivity|].
    rewrite <- !app_assoc. cbn [app].
    now destruct (Login.wait_for_login b fuel _ _ _).
  - now destruct (Login.wait_for_login b fuel _ _ _).
Qed.

Section Idle.

Variable b : Login.Browser.
Hypothesis idle : nobody_logs_in b.

Lemma idle_call (ev : Login.Event) (h : list Login.Event) :
  Login.call b ev h = (Login.Returns tt, [ev]).
Proof. rewrite login_call_run. now rewrite (proj1 idle). Qed.

Lemma idle_wait_for_login (timeout : Z) (fuel : nat) :
  forall elapsed h,
    timeout - elapsed <= 2000 * Z.of_nat fuel ->
    exists t,
      Login.wait_for_login b fuel elapsed timeout h = (Login.Returns false, t)
      /\ Forall (fun e => login_open e = true) t
      /\ timeout - elapsed <= 2000 * Z.of_nat (login_count login_is_wait t)
      /\ Z.of_nat (login_count login_is_wait t) <= 2 * Z.max 0 ((timeout - elapsed + 1999) / 2000).
Proof.
  induction fuel as [|fuel IH]; intros elapsed h F.
  { exists []. repeat split; [constructor | cbn; lia |]. cbn. euclid. }
  rewrite wait_for_login_step. cbv zeta.
  destruct (Z.ltb_spec elapsed timeout) as [L|G].
  2:{ exists []. repeat split; [constructor | cbn; lia |]. cbn. euclid. }
  assert (Go : forall pre,
             Forall (fun e => login_open e = true) pre ->
             (1 <= login_count login_is_wait pre <= 2)%nat ->
             exists t,
               (fst (Login.wait_for_login b fuel (elapsed + 2000) timeout (h ++ pre)),
                pre ++ snd (Login.wait_for_login b fuel (elapsed + 2000) timeout (h ++ pre)))
               = (Login.Returns false, t)
               /\ Forall (fun e => login_open e = true) t
               /\ timeout - elapsed <= 2000 * Z.of_nat (login_count login_is_wait t)
               /\ Z.of_nat (login_count login_is_wait t)
                  <= 2 * Z.max 0 ((timeout - elapsed + 1999) / 2000)).
  { intros pre O C. destruct (IH (elapsed + 2000) (h ++ pre) ltac:(lia)) as (t & E & Ot & Lo & Up).
    exists (pre ++ t). rewrite E. cbn [fst snd]. split; [reflexivity|].
    split; [apply Forall_app; now split|].
    rewrite login_count_app. split; [lia|].
    assert (S : (timeout - elapsed + 1999) / 2000
                = (timeout - (elapsed + 2000) + 1999) / 2000 + 1) by euclid.
    assert (P : 0 <= (timeout - (elapsed + 2000) + 1999) / 2000) by euclid.
    lia. }
  rewrite !(proj1 idle).
  destruct (proj2 idle (h ++ [Login.WaitForTimeout 2000])) as (cs & -> & ->).
  destruct (negb _ && _).
  - destruct (proj2 idle (h ++ [Login.WaitForTimeout 2000; Login.Cookies; Login.Url;
                                Login.WaitForTimeout 2000])) as (cs' & -> & ->).
    apply Go; [repeat constructor | cbn; lia].
  - apply Go; [repeat constructor | cbn; lia].
Qed.

End Idle.

(** X21: a login that nobody completes.  When every call resolves and
    the context never holds a [sessionid] cookie, the login throws its
    [LoginRequiredError] for the timeout; the close of the browser is its
    last call and nothing was written; it has waited, two seconds at a
    time, at least as long as the timeout, and at most two waits for each
    started period of two seconds. *)
Theorem interactiveLogin_times_out (b : Login.Browser) (host : Host)
    (saveToFile : option string) (timeout : Z) (h : list Login.Event) :
  nobody_logs_in b ->
  exists t,
    Login.interactiveLogin b host saveToFile timeout h
    = (Login.Throws Login.TimedOut, t ++ [Login.CloseBrowser])
    /\ Forall (fun e => login_open e = true) t
    /\ timeout <= 2000 * Z.of_nat (login_count login_is_wait t)
    /\ Z.of_nat (login_count login_is_wait t) <= 2 * Z.max 0 ((timeout + 1999) / 2000).
Proof.
  intros Idle. unfold Login.interactiveLogin.
  cbv beta iota zeta delta [Login.bind Login.emit fst snd].
  rewrite !(idle_call b Idle). cbn [app].
  match goal with
  | |- context [Login.wait_for_login b _ 0 timeout ?h'] =>
      destruct (idle_wait_for_login b Idle timeout (Z.to_nat timeout) 0 h' ltac:(lia))
        as (t & -> & O & Lo & Up)
  end.
  cbn [negb]. rewrite !(idle_call b Idle).
  cbv beta iota zeta delta [Login.throw]. cbn [app].
  exists ([Login.ConsoleLog "Opening browser for TikTok login...";
           Login.ConsoleLog "Please log in to your TikTok account.";
           Login.ConsoleLog ("The browser will close automatically after login is detected."
                               +:+ Cli.newline);
           Login.Launch false; Login.NewContext 1280 800; Login.NewPage;
           Login.Goto "https://www.tiktok.com/login";
           Login.ConsoleLog "Waiting for login...";
           Login.ConsoleLog ("(You have 5 minutes to complete the login)" +:+ Cli.newline)]
            ++ t).
  rewrite Z.sub_0_r in *. split; [reflexivity|].
  split; [|split].
  - apply Forall_app. split; [repeat constructor | exact O].
  - rewrite login_count_app. cbn [login_count List.filter login_is_wait length Nat.add]. exact Lo.
  - rewrite login_count_app. cbn [login_count List.filter login_is_wait length Nat.add]. exact Up.
Qed.

Lemma interactiveLogin_times_out_witness :
  exists t,
    Login.interactiveLogin idle_login Samples.host (Some "tok") 5000 []
    = (Login.Throws Login.TimedOut, t ++ [Login.CloseBrowser])
    /\ Forall (fun e => login_open e = true) t
    /\ 5000 <= 2000 * Z.of_nat (login_count login_is_wait t)
    /\ Z.of_nat (login_count login_is_wait t) <= 2 * Z.max 0 ((5000 + 1999) / 2000).
Proof.
  apply (interactiveLogin_times_out idle_login Samples.host (Some "tok") 5000 []).
  split; [reflexivity|]. intros h. eexists. split; reflexivity.
Defined.
(** ** From the login to the uploader *)

Lemma sextet_char_plain (v : N) : (v < 64)%N -> plain_byte (Node.sextet_char v).
Proof.
  intros L. unfold plain_byte.
  destruct (sextet_char_cases v L) as [[B ->]|[[B ->]|[[B ->]|[[-> ->]|[-> ->]]]]]; lia.
Qed.

Lemma base64_chars_plain (l : list N) :
  Forall (fun c => (c < 256)%N) l -> Forall plain_byte (Node.base64_chars l).
Proof.
  induction l as [|a|a b|a b c r IH] using triple_ind; intros F.
  - constructor.
  - inversion F as [|? ? La _]; subst. cbn [Node.base64_chars].
    repeat constructor; try (apply sextet_char_plain; euclid); unfold plain_byte; lia.
  - inversion F as [|? ? La F']; subst. inversion F' as [|? ? Lb _]; subst.
    cbn [Node.base64_chars].
    repeat constructor; try (apply sextet_char_plain; euclid); unfold plain_byte; lia.
  - inversion F as [|? ? La F']; subst. inversion F' as [|? ? Lb F'']; subst.
    inversion F'' as [|? ? Lc Fr]; subst. cbn [Node.base64_chars].
    repeat (constructor; [apply sextet_char_plain; euclid|]). now apply IH.
Qed.

(** No white-space sequence starts or ends with a plain byte. *)
Lemma strip_any_plain (ws : list (list N)) (c : N) (l : list N) :
  Forall (fun p => exists a p', p = a :: p' /\ ~ plain_byte a) ws ->
  plain_byte c -> strip_any ws (c :: l) = None.
Proof.
  intros W P. induction W as [|p ws (a & p' & -> & N) _ IH]; [reflexivity|].
  cbn [strip_any strip]. destruct (N.eqb_spec a c) as [->|_]; [contradiction | exact IH].
Qed.

Lemma drop_ws_plain (ws : list (list N)) (fuel : nat) (l : list N) :
  Forall (fun p => exists a p', p = a :: p' /\ ~ plain_byte a) ws ->
  match l with c :: _ => plain_byte c | [] => True end ->
  drop_ws ws fuel l = l.
Proof.
  intros W P. destruct fuel as [|fuel]; [reflexivity|]. cbn [drop_ws].
  destruct l as [|c l].
  - assert (E : strip_any ws [] = None).
    { clear P. induction W as [|p ws (a & p' & -> & N) _ IH]; [reflexivity | exact IH]. }
    now rewrite E.
  - now rewrite strip_any_plain.
Qed.

Lemma whitespace_not_plain :
  Forall (fun p => exists a p', p = a :: p' /\ ~ plain_byte a) whitespace
  /\ Forall (fun p => exists a p', p = a :: p' /\ ~ plain_byte a) (map (@rev N) whitespace).
Proof.
  unfold whitespace, plain_byte. cbn [map rev app].
  split; repeat (constructor; [eexists _, _; split; [reflexivity | lia]|]); constructor.
Qed.

Lemma trim_plain (l : list N) :
  Forall (fun c => (c < 256)%N) l -> Forall plain_byte l -> trim (of_bytes l) = of_bytes l.
Proof.
  intros B P. unfold trim. rewrite (bytes_of_bytes l B).
  destruct whitespace_not_plain as [W1 W2].
  rewrite (drop_ws_plain whitespace _ l W1).
  2:{ destruct P; [exact I | assumption]. }
  rewrite (drop_ws_plain _ _ (rev l) W2).
  2:{ apply Forall_rev in P. destruct P; [exact I | assumption]. }
  now rewrite rev_involutive.
Qed.

Lemma base64_chars_bound (l : list N) :
  Forall (fun c => (c < 256)%N) l -> Forall (fun c => (c < 256)%N) (Node.base64_chars l).
Proof. intros F. now apply octets_sextets_chars. Qed.

Lemma trim_sessionToken (cs : list Cookie) :
  trim (Node.sessionToken cs) = Node.sessionToken cs.
Proof.
  unfold Node.sessionToken, Node.base64_encode.
  apply trim_plain.
  - apply base64_chars_bound, bytes_bound.
  - apply base64_chars_plain, bytes_bound.
Qed.

Lemma sessionToken_truthy (cs : list Cookie) : truthy (Some (Node.sessionToken cs)) = true.
Proof.
  unfold truthy. apply negb_true_iff. apply String.eqb_neq. intros E.
  assert (D : Node.base64_decode (Node.sessionToken cs) = Node.json_stringify cs)
    by apply base64_decode_encode.
  rewrite E in D. change (Node.base64_decode "") with "" in D.
  unfold Node.json_stringify, of_bytes in D. cbn [app map string_of_list_ascii] in D.
  discriminate D.
Qed.

(** X22: the session file a login writes is a session the uploader
    accepts.  When a login with a file name returns, it has written its
    token to that file, resolved against the working directory; on a host
    that holds this file, and no session in the environment, the session
    lookup with the same file name returns the token unchanged, and an
    uploader made with it holds cookies: exactly the auth cookies the login
    read last. *)
Theorem saved_session_round_trip (b : Login.Browser) (host after : Host) (file envVar : string)
    (timeout : Z) (h : list Login.Event) (token : string) (entry : Entry) :
  let run := Login.interactiveLogin b host (Some file) timeout h in
  let saved := Path.resolve (cwd host) file in
  fst run = Login.Returns token ->
  file <> "" ->
  cwd after = cwd host ->
  files after !! saved = Some entry ->
  utf8 entry = token ->
  truthy (environ after !! envVar) = false ->
  exists t0 cs,
    snd run = t0 ++ [Login.Cookies; Login.CloseBrowser; Login.WriteFile saved token;
                     Login.ConsoleLog (Cli.newline +:+ "Session saved to: " +:+ saved)]
    /\ Login.context_cookies b (h ++ t0) = Resolves cs
    /\ getSession after None envVar (Some file) = Returns token
    /\ cookies (@new_TikTokUploader Node.runtime after
                  (mkUploaderOptions (Some token) None None None))
       = Some (map cookie_object (Login.auth_cookies cs)).
Proof.
  intros run saved R Named Cwd File Content Env.
  assert (T : truthy (Some file) = true).
  { unfold truthy. apply negb_true_iff. now apply String.eqb_neq. }
  destruct (interactiveLogin_yields_token b host (Some file) timeout h token R)
    as (t0 & seen & cs & E & O & C & S & C' & Tk & P).
  fold run in E. unfold login_saved in E. rewrite T in E. cbn [default] in E. fold saved in E.
  exists (t0 ++ [Login.Cookies; Login.ConsoleLog "Login detected!"]), cs.
  split; [rewrite E, <- app_assoc; reflexivity|].
  split; [exact C'|].
  split.
  - unfold getSession. change (truthy None) with false. cbv iota. rewrite Env, T.
    unfold read_trimmed. cbn [default id]. rewrite Cwd. fold saved. rewrite File, Content.
    now rewrite Tk, trim_sessionToken.
  - assert (Tr : truthy (Some token) = true) by (rewrite Tk; apply sessionToken_truthy).
    unfold new_TikTokUploader, or_else. cbn [opt_session].
    rewrite Tr. cbn [default id cookies]. rewrite Tr. now rewrite P.
Qed.

Lemma saved_session_round_trip_witness :
  let run := Login.interactiveLogin (logs_in_after 14) Samples.host (Some "tok") 10000 [] in
  let after :=
    {| cwd := "/home/me"; homedir := "/home/me"; environ := ∅;
       files := {[ "/home/me/tok" := mkEntry 96 Samples.token ]} |} in
  exists t0 cs,
    snd run = t0 ++ [Login.Cookies; Login.CloseBrowser;
                     Login.WriteFile "/home/me/tok" Samples.token;
                     Login.ConsoleLog (Cli.newline +:+ "Session saved to: " +:+ "/home/me/tok")]
    /\ Login.context_cookies (logs_in_after 14) ([] ++ t0) = Resolves cs
    /\ getSession after None "TIKTOK_SESSION" (Some "tok") = Returns Samples.token
    /\ cookies (@new_TikTokUploader Node.runtime after
                  (mkUploaderOptions (Some Samples.token) None None None))
       = Some (map cookie_object (Login.auth_cookies cs)).
Proof.
  apply (saved_session_round_trip (logs_in_after 14) Samples.host
           {| cwd := "/home/me"; homedir := "/home/me"; environ := ∅;
              files := {[ "/home/me/tok" := mkEntry 96 Samples.token ]} |}
           "tok" "TIKTOK_SESSION" 10000 [] Samples.token (mkEntry 96 Samples.token)).
  - vm_compute. reflexivity.
  - discriminate.
  - reflexivity.
  - vm_compute. reflexivity.
  - reflexivity.
  - reflexivity.
Defined.
(** ** The login command *)

Lemma log_lines_run (lines : list string) (h : list Login.Event) :
  Login.log_lines lines h = (Login.Returns tt, map Login.ConsoleLog lines).
Proof.
  revert h. induction lines as [|line rest IH]; intros h; [reflexivity|].
  cbn [Login.log_lines map]. rewrite login_bind_run. cbn [Login.emit fst snd].
  now rewrite IH.
Qed.

Lemma save_target_sound (args : list string) (p : string) :
  Login.save_target args = Some p ->
  p <> ""
  /\ exists before after,
       args = before ++ "--save-to-file" :: p :: after /\ ~ In "--save-to-file" before.
Proof.
  induction args as [|arg rest IH]; [discriminate|]. cbn [Login.save_target].
  destruct (String.eqb_spec arg "--save-to-file") as [->|N].
  - destruct rest as [|next rest']; [discriminate|].
    unfold truthy. destruct (String.eqb_spec next "") as [->|Ne]; [discriminate|].
    intros E. injection E as <-. split; [exact Ne|]. exists [], rest'. now split.
  - intros E. destruct (IH E) as (Ne & before & after & -> & NI).
    split; [exact Ne|]. exists (arg :: before), after. split; [reflexivity|].
    intros [F|F]; [congruence | contradiction].
Qed.

(** X23: the login command never throws.  It returns 0 exactly when the
    login returned, after printing the instructions with the token; it
    returns 1 after one error line when the login threw.  The login gets
    the default timeout of five minutes, and a file name only from an
    argument that is not empty and directly follows the first
    [--save-to-file]. *)
Theorem cmdAuth_exit_code (b : Login.Browser) (host : Host) (args : list string)
    (h : list Login.Event) :
  let login := Login.interactiveLogin b host (Login.save_target args) 300000 h in
  Login.cmdAuth b host args h
  = match fst login with
    | Login.Returns token =>
        (Login.Returns 0,
         snd login ++ map Login.ConsoleLog (Login.printSessionInstructions token))
    | Login.Throws e =>
        (Login.Returns 1,
         snd login ++ [Login.ConsoleError ("Error: " +:+ Login.String_of_failure e)])
    end
  /\ (forall token, fst login = Login.Returns token ->
        In (Login.ConsoleLog ("TIKTOK_SESSION=" +:+ token)) (snd (Login.cmdAuth b host args h)))
  /\ (forall p, Login.save_target args = Some p ->
        p <> ""
        /\ exists before after,
             args = before ++ "--save-to-file" :: p :: after
             /\ ~ In "--save-to-file" before).
Proof.
  intros login.
  assert (E : Login.cmdAuth b host args h
              = match fst login with
                | Login.Returns token =>
                    (Login.Returns 0,
                     snd login ++ map Login.ConsoleLog (Login.printSessionInstructions token))
                | Login.Throws e =>
                    (Login.Returns 1,
                     snd login ++ [Login.ConsoleError ("Error: " +:+ Login.String_of_failure e)])
                end).
  { unfold Login.cmdAuth, Login.try_catch. rewrite login_bind_run. fold login.
    destruct login as [[token|e] t]; cbn [fst snd].
    - rewrite login_bind_run, log_lines_run. cbn [fst snd Login.ret]. now rewrite app_nil_r.
    - reflexivity. }
  split; [exact E|]. split; [|apply save_target_sound].
  intros token R. rewrite E, R. cbn [snd]. apply in_or_app. right.
  cbn [Login.printSessionInstructions map In]. tauto.
Qed.

(** ** The session lookup *)


(** ** Uploads without a progress callback *)

Section Silent.

Variable b : Browser.
Variable host : Host.
Variable this : TikTokUploader.

Lemma silent_poll (T : Z) (left : nat) :
  forall i, only not_progress (poll b T false left i).
Proof.
  induction left as [|left IH]; intros i h; [constructor|].
  rewrite poll_step. destruct (rejects b h (WaitForTimeout 5000)); [now repeat constructor|].
  cbv zeta. destruct (is_success_url _); [now repeat constructor|].
  destruct (is_visible b _ exit_modal 500) as [[|]|]; cbn [snd tick_events app];
    repeat (constructor; [reflexivity|]); try constructor; apply IH.
Qed.

Lemma silent_upload_steps (videoPath description : string) (options : UploadOptions) :
  onProgress options = false ->
  only not_progress (upload_steps b this videoPath description options).
Proof.
  intros CB. unfold upload_steps. rewrite CB.
  apply only_bind; [apply only_setupContext, page_not_progress|]. intros _.
  do 4 (apply only_bind; [only_auto|]; intros _).
  apply only_bind; [only_auto|]. intros url.
  destruct (includes (toLowerCase url) "login"); [apply only_throw|].
  do 4 (apply only_bind; [only_auto|]; intros _).
  apply only_bind; [apply only_dismissModals, page_not_progress|]. intros _.
  do 7 (apply only_bind; [only_auto|]; intros _).
  apply only_bind; [apply only_findPostButton, page_not_progress|]. intros [btn|].
  - do 5 (apply only_bind; [only_auto|]; intros _).
    apply only_bind; [apply silent_poll|]. intros [|]; only_auto.
  - only_auto.
Qed.

Lemma silent_upload (video description : string) (options : UploadOptions) :
  onProgress options = false ->
  only not_progress (upload b host this video description options).
Proof.
  intros CB. unfold upload. rewrite CB.
  apply only_bind; [apply only_lift|]. intros videoPath.
  do 4 (apply only_bind; [only_auto|]; intros _).
  apply only_try_finally; [|now apply only_call].
  apply only_try_catch; [now apply silent_upload_steps|].
  intros e. unfold upload_catch. destruct (is_flow_error e); apply only_throw.
Qed.

Lemma silent_upload_from (cb : bool) (videos : list VideoInfo) :
  forall i, only not_progress (upload_from b host this cb videos i).
Proof.
  induction videos as [|v rest IH]; intros i; cbn [upload_from]; [apply only_ret|].
  apply only_bind.
  - apply only_try_catch; [now apply silent_upload | intros e; apply only_ret].
  - intros result. apply only_bind; [only_auto|]. intros _.
    apply only_bind; [apply IH|]. intros results. apply only_ret.
Qed.

End Silent.

(** X25: an upload without a progress callback reports nothing: no
    percentage at all leaves the uploader, whatever the page does.  This
    is what the quiet mode of the command line relies on. *)
Theorem upload_without_callback_reports_nothing (b : Browser) (host : Host)
    (this : TikTokUploader) (video description : string) (options : UploadOptions)
    (h : list Event) :
  onProgress options = false ->
  progress_of (snd (upload b host this video description options h)) = [].
Proof.
  intros CB. apply progress_of_only. now apply silent_upload.
Qed.

Lemma upload_without_callback_reports_nothing_witness :
  let run := upload (Samples.succeeds_at 2) Samples.host Samples.quick "clip.MP4" "hello"
               (mkUploadOptions (Some friends) false) [] in
  fst run = Returns uploaded /\ progress_of (snd run) = [].
Proof.
  split; [vm_compute; reflexivity|].
  apply (upload_without_callback_reports_nothing (Samples.succeeds_at 2) Samples.host
           Samples.quick "clip.MP4" "hello" (mkUploadOptions (Some friends) false) []).
  reflexivity.
Defined.

(** X26: the exported [uploadMany] builds one uploader from its options
    and runs the batch with it; it never throws, returns one result for
    each request, and calls no callback: no progress is reported and no
    completion is announced. *)
Theorem exported_uploadMany_is_silent `{Runtime} (b : Browser) (host : Host)
    (videos : list VideoInfo) (options : UploaderOptions) (h : list Event) :
  exists results t,
    Exported.uploadMany b host videos options h = (Returns results, t)
    /\ List.length results = List.length videos
    /\ progress_of t = []
    /\ completions_of t = []
    /\ count is_launch t = List.length (List.filter (passes_validation host) videos).
Proof.
  unfold Exported.uploadMany, uploadMany.
  destruct (upload_from_batch b host (new_TikTokUploader host options) false videos 0 h)
    as (rs & t & E & B).
  exists rs, t. split; [exact E|]. split; [|split; [|split]].
  - exact (batch_length _ _ _ _ _ _ _ _ _ B).
  - apply progress_of_only.
    pose proof (silent_upload_from b host (new_TikTokUploader host options) false videos 0 h) as S.
    now rewrite E in S.
  - exact (batch_completions _ _ _ _ _ _ _ _ _ B).
  - now destruct (batch_browsers b host _ _ _ _ _ _ _ B).
Qed.
(** ** From a token to the cookies of the upload *)

Lemma token_cookies (host : Host) (cs : list Cookie) (hidden : option bool)
    (limit : option Z) (verbose : option bool) :
  cookies (@new_TikTokUploader Node.runtime host
             (mkUploaderOptions (Some (Node.sessionToken cs)) hidden limit verbose))
  = Some (map cookie_object cs).
Proof.
  unfold new_TikTokUploader, or_else. cbn [opt_session].
  rewrite sessionToken_truthy. cbn [default id cookies]. rewrite sessionToken_truthy.
  now rewrite parseSession_sessionToken.
Qed.

(** X27: the exported [upload], given as session option the token of a
    cookie list, installs exactly these cookies, whatever session the
    environment holds: when it returns, the run has, after launching the
    browser, added the cookies of the list, opened the upload page, handed
    over the validated path and typed the description, in this order; it
    has then asked the page for its buttons and clicked the first
    candidate of the page's answer that qualifies; and it closed the
    browser last. *)
Theorem exported_upload_installs_the_token (b : Browser) (host : Host)
    (video description : string) (cs : list Cookie) (hidden : option bool)
    (limit : option Z) (verbose : option bool) (options : UploadOptions)
    (h : list Event) (r : UploadResult) :
  let uploaderOptions := mkUploaderOptions (Some (Node.sessionToken cs)) hidden limit verbose in
  let run := @Exported.upload Node.runtime b host video description uploaderOptions options h in
  fst run = Returns r ->
  exists videoPath bs btn before t1 t2,
    let opened := before ++ [Launch (default true hidden); NewContext 1280 1024] in
    validateVideo host video = Returns videoPath
    /\ snd run = opened ++ (t1 ++ AllButtons "button" "Post" :: t2) ++ [CloseBrowser]
    /\ sublist (form_calls (map cookie_object cs) videoPath description) t1
    /\ all_buttons b (h ++ opened ++ t1) = Resolves bs
    /\ List.find qualifies bs = Some btn
    /\ exact_label btn /\ wide_enough btn
    /\ In (ClickHandle (handle btn)) t2.
Proof.
  cbv zeta. unfold Exported.upload.
  set (this := @new_TikTokUploader Node.runtime host _).
  assert (C : cookies this = Some (map cookie_object cs)) by apply token_cookies.
  assert (Hl : headless this = default true hidden) by reflexivity.
  destruct (validateVideo host video) as [videoPath|e] eqn:V.
  2:{ now rewrite (upload_invalid b host this video description options e h V). }
  rewrite (upload_run b host this video description options videoPath h V). cbv zeta.
  destruct (rejects b _ (Launch _)); [discriminate|].
  destruct (rejects b _ (NewContext _ _)); [discriminate|].
  pose proof (posts_upload_steps b this videoPath description options _ C
                (h ++ prologue this videoPath options
                   ++ [Launch (headless this); NewContext 1280 1024])) as S.
  destruct (upload_steps b this videoPath description options _) as [[a|e] t]; cbn [fst snd] in *.
  2:{ destruct (rejects b _ CloseBrowser); discriminate. }
  destruct (rejects b _ CloseBrowser); [discriminate|]. intros _.
  destruct (S a eq_refl) as (bs & btn & t1 & t2 & -> & L & B & F & K).
  destruct (proj1 (qualifies_spec btn)) as [QL QW].
  { apply List.find_some in F. tauto. }
  exists videoPath, bs, btn, (prologue this videoPath options), t1, t2. rewrite <- Hl.
  split; [reflexivity|]. split; [reflexivity|]. split; [exact L|].
  split; [now rewrite <- app_assoc in B|]. split; [exact F|].
  split; [exact QL|]. split; [exact QW|]. exact K.
Qed.

Lemma exported_upload_installs_the_token_witness :
  let cs := [mkCookie "sessionid" "abc" ".tiktok.com" "/"] in
  let run := @Exported.upload Node.runtime (Samples.succeeds_at 2) Samples.host "clip.MP4"
               "hello" (mkUploaderOptions (Some (Node.sessionToken cs)) None (Some 10000) None)
               Samples.with_callback [] in
  fst run = Returns uploaded
  /\ exists videoPath bs btn before t1 t2,
       let opened := before ++ [Launch (default true None); NewContext 1280 1024] in
       validateVideo Samples.host "clip.MP4" = Returns videoPath
       /\ snd run = opened ++ (t1 ++ AllButtons "button" "Post" :: t2) ++ [CloseBrowser]
       /\ sublist (form_calls (map cookie_object cs) videoPath "hello") t1
       /\ all_buttons (Samples.succeeds_at 2) ([] ++ opened ++ t1) = Resolves bs
       /\ List.find qualifies bs = Some btn
       /\ exact_label btn /\ wide_enough btn
       /\ In (ClickHandle (handle btn)) t2.
Proof.
  split; [vm_compute; reflexivity|].
  apply (exported_upload_installs_the_token (Samples.succeeds_at 2) Samples.host "clip.MP4"
           "hello" [mkCookie "sessionid" "abc" ".tiktok.com" "/"] None (Some 10000) None
           Samples.with_callback [] uploaded).
  vm_compute. reflexivity.
Defined.
